(** * IKAR DAW: the audio scheduling engine, its offline renderer and the
      WAV encoder, embedded from [src/utils/audio-engine.ts], with the two
      UI handlers of the main component that drive sample loading and AI
      chord generation. *)

From Stdlib Require Import ZArith QArith Qround Lia Bool String.
From stdpp Require Import base list strings.

Local Open Scope Z_scope.

(** ** WAV encoding ([audioBufferToWav]) *)
Module Wav.

(** The numbers the encoder computes with. Channel data is a Float32Array,
    so every finite sample is a dyadic rational with a 24-bit significand;
    the sum [0.5 + s], the products [s * 32768] and [s * 32767] and the
    truncation [| 0] are then exact in double precision, and [Fin] carries
    the exact value. [NaN] also stands for [undefined] once it reaches
    [Math.min]. *)
Inductive jsnum : Type :=
  | Fin (q : Q)
  | PosInf
  | NegInf
  | NaN.

Definition Qltb (x y : Q) : bool :=
  Qnum x * Zpos (Qden y) <? Qnum y * Zpos (Qden x).

Definition Math_min (a b : jsnum) : jsnum :=
  match a, b with
  | NaN, _ | _, NaN => NaN
  | NegInf, _ | _, NegInf => NegInf
  | PosInf, x | x, PosInf => x
  | Fin x, Fin y => if Qltb y x then Fin y else Fin x
  end.

Definition Math_max (a b : jsnum) : jsnum :=
  match a, b with
  | NaN, _ | _, NaN => NaN
  | PosInf, _ | _, PosInf => PosInf
  | NegInf, x | x, NegInf => x
  | Fin x, Fin y => if Qltb x y then Fin y else Fin x
  end.

Definition js_add (a b : jsnum) : jsnum :=
  match a, b with
  | NaN, _ | _, NaN => NaN
  | PosInf, NegInf | NegInf, PosInf => NaN
  | PosInf, _ | _, PosInf => PosInf
  | NegInf, _ | _, NegInf => NegInf
  | Fin x, Fin y => Fin (x + y)
  end.

Definition Qsign (x : Q) : Z := Z.sgn (Qnum x).

Definition js_inf (sign : Z) : jsnum :=
  if sign =? 0 then NaN else if sign <? 0 then NegInf else PosInf.

Definition js_mul (a b : jsnum) : jsnum :=
  match a, b with
  | NaN, _ | _, NaN => NaN
  | Fin x, Fin y => Fin (x * y)
  | Fin x, PosInf | PosInf, Fin x => js_inf (Qsign x)
  | Fin x, NegInf | NegInf, Fin x => js_inf (- Qsign x)
  | PosInf, PosInf | NegInf, NegInf => PosInf
  | PosInf, NegInf | NegInf, PosInf => NegInf
  end.

Definition js_lt (a b : jsnum) : bool :=
  match a, b with
  | NaN, _ | _, NaN => false
  | Fin x, Fin y => Qltb x y
  | NegInf, NegInf | PosInf, _ => false
  | NegInf, _ | _, PosInf => true
  | Fin _, NegInf => false
  end.

(** [x | 0]: ToInt32, truncation toward zero then wrap-around to 32 bits. *)
Definition Qtrunc (q : Q) : Z := Z.quot (Qnum q) (Zpos (Qden q)).

Definition wrap_signed (bits : Z) (z : Z) : Z :=
  let m := z mod 2 ^ bits in
  if m <? 2 ^ (bits - 1) then m else m - 2 ^ bits.

Definition ToInt32 (x : jsnum) : Z :=
  match x with
  | Fin q => wrap_signed 32 (Qtrunc q)
  | _ => 0
  end.

(** The DataView over the output ArrayBuffer and the write position [pos]
    that [setUint16], [setUint32] and the sample loop share. *)
Record Writer : Type := mkWriter {
  view : list Z;
  pos : nat
}.

(** Little-endian store of the low [n] bytes of [v] at offset [p]. *)
Fixpoint store_le (n : nat) (v : Z) (p : nat) (bytes : list Z) : list Z :=
  match n with
  | O => bytes
  | S n' => store_le n' (v / 256) (S p) (<[p := v mod 256]> bytes)
  end.

Definition setUint16 (data : Z) (w : Writer) : Writer :=
  {| view := store_le 2 (data mod 2 ^ 16) (pos w) (view w);
     pos := (pos w + 2)%nat |}.

Definition setUint32 (data : Z) (w : Writer) : Writer :=
  {| view := store_le 4 (data mod 2 ^ 32) (pos w) (view w);
     pos := (pos w + 4)%nat |}.

(** [view.setInt16(pos, sample, true); pos += 2] *)
Definition setInt16 (sample : Z) (w : Writer) : Writer :=
  {| view := store_le 2 (sample mod 2 ^ 16) (pos w) (view w);
     pos := (pos w + 2)%nat |}.

Record AudioBuffer : Type := mkAudioBuffer {
  sampleRate : Z;
  length : nat;
  channelData : list (list jsnum)
}.

Definition numberOfChannels (buffer : AudioBuffer) : nat :=
  List.length (channelData buffer).

(** [channels[i][offset]]; past the end the read is [undefined]. *)
Definition sample_at (channel : list jsnum) (offset : nat) : jsnum :=
  default NaN (channel !! offset).

Definition clamp (x : jsnum) : jsnum :=
  Math_max (Fin (-1)) (Math_min (Fin 1) x).

(** [(0.5 + sample < 0 ? sample * 32768 : sample * 32767) | 0] *)
Definition scale (sample : jsnum) : Z :=
  ToInt32 (if js_lt (js_add (Fin (1 # 2)) sample) (Fin 0)
           then js_mul sample (Fin 32768)
           else js_mul sample (Fin 32767)).

Definition encode_sample (x : jsnum) : Z := scale (clamp x).

Definition write_frame (channels : list (list jsnum)) (offset : nat)
    (w : Writer) : Writer :=
  fold_left (fun w ch => setInt16 (encode_sample (sample_at ch offset)) w)
            channels w.

(** [while (pos < length) { for each channel ...; offset++ }]; the fuel is
    the number of frames, which [write_loop_done] shows to be enough. *)
Fixpoint write_loop (fuel : nat) (channels : list (list jsnum))
    (len offset : nat) (w : Writer) : Writer :=
  match fuel with
  | O => w
  | S fuel' =>
      if (pos w <? len)%nat
      then write_loop fuel' channels len (S offset)
             (write_frame channels offset w)
      else w
  end.

Definition write_header (numOfChan : nat) (rate : Z) (len : nat)
    (w : Writer) : Writer :=
  let w := setUint32 0x46464952 w in
  let w := setUint32 (Z.of_nat len - 8) w in
  let w := setUint32 0x45564157 w in
  let w := setUint32 0x20746d66 w in
  let w := setUint32 16 w in
  let w := setUint16 1 w in
  let w := setUint16 (Z.of_nat numOfChan) w in
  let w := setUint32 rate w in
  let w := setUint32 (rate * 2 * Z.of_nat numOfChan) w in
  let w := setUint16 (Z.of_nat numOfChan * 2) w in
  let w := setUint16 16 w in
  let w := setUint32 0x61746164 w in
  setUint32 (Z.of_nat len - Z.of_nat (pos w) - 4) w.

Definition wav_length (buffer : AudioBuffer) : nat :=
  (length buffer * numberOfChannels buffer * 2 + 44)%nat.

Definition encode (buffer : AudioBuffer) : Writer :=
  let numOfChan := numberOfChannels buffer in
  let len := wav_length buffer in
  let w := {| view := replicate len 0; pos := 0 |} in
  let w := write_header numOfChan (sampleRate buffer) len w in
  write_loop (length buffer) (channelData buffer) len 0 w.

Definition audioBufferToWav (buffer : AudioBuffer) : list Z :=
  view (encode buffer).

(** Reads of the finished file, as [DataView.getUint16/32(off, true)]. *)
Definition load_le (n : nat) (p : nat) (bytes : list Z) : option Z :=
  if decide (p + n ≤ List.length bytes)%nat
  then Some (foldr (fun b r => b + 256 * r) 0 (take n (drop p bytes)))
  else None.

Definition getUint16 (bytes : list Z) (off : nat) : option Z := load_le 2 off bytes.
Definition getUint32 (bytes : list Z) (off : nat) : option Z := load_le 4 off bytes.
Definition getInt16 (bytes : list Z) (off : nat) : option Z :=
  wrap_signed 16 <$> load_le 2 off bytes.

(** The conversion as the specification words it: the clamped sample is
    scaled by 32768 when it is negative and by 32767 otherwise. *)
Definition spec_scale (sample : jsnum) : Z :=
  ToInt32 (if js_lt sample (Fin 0)
           then js_mul sample (Fin 32768)
           else js_mul sample (Fin 32767)).

Definition spec_encode_sample (x : jsnum) : Z := spec_scale (clamp x).

(** A small stereo buffer, and a mono buffer holding the one sample -0.25. *)
Definition demo_buffer : AudioBuffer :=
  {| sampleRate := 44100;
     length := 2;
     channelData := [[Fin (1 # 2); Fin (-1)]; [Fin 0; NaN]] |}.

Definition quarter_buffer : AudioBuffer :=
  {| sampleRate := 44100; length := 1; channelData := [[Fin (-1 # 4)]] |}.

(** The bytes of an ASCII chunk identifier. *)
Definition ascii_bytes (s : string) : list Z :=
  map (fun a => Z.of_nat (Ascii.nat_of_ascii a)) (String.list_ascii_of_string s).

End Wav.

(** ** Numbers, time notation and the error/state monad of the engine *)

(** Tone's musical time notation, as far as the engine uses it. *)
Inductive Notation : Type := N1m | N4n | N8n | N16n.

(** The arithmetic of JS numbers the engine relies on. It is kept abstract:
    every statement about times below holds for whatever [+], [*] and
    [Math.floor] the host implements, IEEE doubles included.
    [toSeconds bpm n] is [Tone.Time(n).toSeconds()] evaluated against a
    transport whose tempo is [bpm]. *)
Class JsNumber (num : Type) : Type := {
  num_of_Q : Q -> num;
  num_add : num -> num -> num;
  num_mul : num -> num -> num;
  num_floor : num -> Z;
  toSeconds : num -> Notation -> num
}.

Definition num_of_Z {num : Type} `{!JsNumber num} (z : Z) : num := num_of_Q (inject_Z z).
Definition num_of_nat {num : Type} `{!JsNumber num} (n : nat) : num := num_of_Z (Z.of_nat n).

(** Exact rational arithmetic in 4/4, the instance the examples run on. *)
Definition beats (n : Notation) : Q :=
  match n with N1m => 4 | N4n => 1 | N8n => 1 # 2 | N16n => 1 # 4 end.

#[global] Instance Q_JsNumber : JsNumber Q := {|
  num_of_Q q := q;
  num_add := Qplus;
  num_mul := Qmult;
  num_floor := Qfloor;
  toSeconds bpm n := Qred (beats n * (60 / bpm))
|}.

(** A JS computation over a mutable state: a value or a thrown exception,
    with the state as it stands at that point. *)
Inductive Outcome (A : Type) : Type :=
  | Ok (a : A)
  | Throw (e : string).
Arguments Ok {A} a.
Arguments Throw {A} e.

Definition M (S A : Type) : Type := S -> Outcome A * S.

#[global] Instance M_ret {S} : MRet (M S) := fun A a s => (Ok a, s).
#[global] Instance M_bind {S} : MBind (M S) := fun A B f m s =>
  match m s with
  | (Ok a, s') => f a s'
  | (Throw e, s') => (Throw e, s')
  end.

Definition get {S} : M S S := fun s => (Ok s, s).
Definition gets {S A} (f : S -> A) : M S A := fun s => (Ok (f s), s).
Definition modify {S} (f : S -> S) : M S unit := fun s => (Ok tt, f s).
Definition throw {S A} (e : string) : M S A := fun s => (Throw e, s).

(** [try { body } catch (e) { handler e }] *)
Definition try_catch {S A} (body : M S A) (handler : string -> M S A) : M S A :=
  fun s => match body s with
           | (Ok a, s') => (Ok a, s')
           | (Throw e, s') => handler e s'
           end.

(** [for (const x of xs) body x] *)
Fixpoint for_ {S A} (xs : list A) (body : A -> M S unit) : M S unit :=
  match xs with
  | [] => mret tt
  | x :: xs' => body x;; for_ xs' body
  end.

Definition when_ {S} (c : bool) (body : M S unit) : M S unit :=
  if c then body else mret tt.

(** [xs[i]] for a JS number [i] holding an integer: [None] is [undefined]. *)
Definition index {A} (xs : list A) (i : Z) : option A :=
  if i <? 0 then None else xs !! Z.to_nat i.

Definition TypeError : string := "TypeError".
Definition LoadError : string := "LoadError".
Definition NotAllowedError : string := "NotAllowedError".

(** ** Data model ([types.ts]) *)

Inductive Track : Type := Kick | Snare | Hihat | Bass | Chords.

(** The keys of [SampleSettings]: the three sample-based tracks. *)
Inductive Drum : Type := DKick | DSnare | DHihat.

Definition drum_track (d : Drum) : Track :=
  match d with DKick => Kick | DSnare => Snare | DHihat => Hihat end.

#[global] Instance Track_eq_dec : EqDecision Track.
Proof. solve_decision. Defined.
#[global] Instance Drum_eq_dec : EqDecision Drum.
Proof. solve_decision. Defined.

(** [Object.keys] of a [TrackSettings] object, in insertion order. *)
Definition all_tracks : list Track := [Kick; Snare; Hihat; Bass; Chords].

(** A step value: [boolean | Note | string | null]. *)
Inductive Step : Type :=
  | StepBool (b : bool)
  | StepNote (s : string)
  | StepNull.

(** JS truthiness of [steps[i]]; [None] is [undefined] (index past the end). *)
Definition truthy (s : option Step) : bool :=
  match s with
  | Some (StepBool b) => b
  | Some (StepNote n) => bool_decide (n ≠ "")
  | Some StepNull | None => false
  end.

Record TrackState : Type := mkTrackState { steps : list Step }.

Record SequencerState : Type := mkSequencerState {
  seq_kick : TrackState;
  seq_snare : TrackState;
  seq_hihat : TrackState;
  seq_bass : TrackState;
  seq_chords : TrackState
}.

Record SampleSettings : Type := mkSampleSettings {
  ss_kick : string;
  ss_snare : string;
  ss_hihat : string
}.

Definition sample_of (s : SampleSettings) (d : Drum) : string :=
  match d with DKick => ss_kick s | DSnare => ss_snare s | DHihat => ss_hihat s end.

Definition set_sample (s : SampleSettings) (d : Drum) (url : string) : SampleSettings :=
  match d with
  | DKick => mkSampleSettings url (ss_snare s) (ss_hihat s)
  | DSnare => mkSampleSettings (ss_kick s) url (ss_hihat s)
  | DHihat => mkSampleSettings (ss_kick s) (ss_snare s) url
  end.

(** What the engine cannot decide by itself: whether the browser lets the
    audio context start, and whether a sample URL fetches and decodes. *)
Record World : Type := mkWorld {
  audio_allowed : bool;
  fetch_ok : string -> bool
}.

Section Model.
Context {num : Type} `{!JsNumber num}.

(** A numeric literal of the source. *)
Definition lit (q : Q) : num := num_of_Q q.
#[local] Arguments lit q%_Q.

Inductive JsVal : Type :=
  | VNum (n : num)
  | VStr (s : string).

(** An options object with opaque fields ([settings: any]). *)
Definition Bag : Type := list (string * JsVal).

Record TrackSetting : Type := mkTrackSetting {
  volume : num;
  pan : num;
  mute : bool;
  solo : bool
}.

Record TrackSettings : Type := mkTrackSettings {
  ts_kick : TrackSetting;
  ts_snare : TrackSetting;
  ts_hihat : TrackSetting;
  ts_bass : TrackSetting;
  ts_chords : TrackSetting
}.

(** [settings[key]] *)
Definition setting_of (s : TrackSettings) (t : Track) : TrackSetting :=
  match t with
  | Kick => ts_kick s | Snare => ts_snare s | Hihat => ts_hihat s
  | Bass => ts_bass s | Chords => ts_chords s
  end.

Record EffectState : Type := mkEffectState {
  wet : num;
  settings : Bag
}.

Record EffectsState : Type := mkEffectsState {
  distortion : EffectState;
  delay : EffectState;
  reverb : EffectState
}.

Record Oscillator : Type := mkOscillator {
  osc_type : string;
  osc_count : option num;
  osc_spread : option num
}.

Record Envelope : Type := mkEnvelope {
  attack : num;
  decay : num;
  sustain : num;
  release : num
}.

Record Filter : Type := mkFilter {
  filter_type : string;
  rolloff : num;
  filter_Q : num
}.

Record FilterEnvelope : Type := mkFilterEnvelope {
  fe_attack : num;
  fe_decay : num;
  fe_sustain : num;
  fe_release : num;
  baseFrequency : num;
  octaves : num
}.

Record SynthState : Type := mkSynthState {
  oscillator : Oscillator;
  envelope : Envelope;
  filter : Filter;
  filterEnvelope : FilterEnvelope
}.

(** A pattern; [prompts] is UI-only and left out. [synthState] may be
    missing in a stored layout, which [loadPattern] guards against. *)
Record Pattern : Type := mkPattern {
  sequencerState : SequencerState;
  trackSettings : TrackSettings;
  effectsState : EffectsState;
  synthState : option SynthState
}.

Record CompressorSettings : Type := mkCompressorSettings {
  threshold : num;
  ratio : num;
  comp_attack : num;
  comp_release : num
}.

Record MasterSettings : Type := mkMasterSettings {
  master_volume : num;
  compressor : CompressorSettings;
  limiter_threshold : num
}.

Record DawLayout : Type := mkDawLayout {
  patterns : list Pattern;
  arrangement : list (option Z);
  bpm : num;
  sampleSettings : SampleSettings;
  masterSettings : MasterSettings
}.

(** ** The signal graph and the voices (engine-internal Tone objects) *)

Record Channel : Type := mkChannel {
  ch_volume : num;
  ch_pan : num;
  ch_mute : bool
}.

Record Channels : Type := mkChannels {
  c_kick : Channel;
  c_snare : Channel;
  c_hihat : Channel;
  c_bass : Channel;
  c_chords : Channel
}.

Definition channel_of (c : Channels) (t : Track) : Channel :=
  match t with
  | Kick => c_kick c | Snare => c_snare c | Hihat => c_hihat c
  | Bass => c_bass c | Chords => c_chords c
  end.

Definition set_channel (c : Channels) (t : Track) (x : Channel) : Channels :=
  match t with
  | Kick => mkChannels x (c_snare c) (c_hihat c) (c_bass c) (c_chords c)
  | Snare => mkChannels (c_kick c) x (c_hihat c) (c_bass c) (c_chords c)
  | Hihat => mkChannels (c_kick c) (c_snare c) x (c_bass c) (c_chords c)
  | Bass => mkChannels (c_kick c) (c_snare c) (c_hihat c) x (c_chords c)
  | Chords => mkChannels (c_kick c) (c_snare c) (c_hihat c) (c_bass c) x
  end.

(** An effect unit: the arguments its constructor was given, its wet
    amount, and the properties assigned through [set] since. *)
Record Effect : Type := mkEffect {
  fx_args : list JsVal;
  fx_wet : num;
  fx_params : Bag
}.

Record BassEffects : Type := mkBassEffects {
  fx_distortion : Effect;
  fx_delay : Effect;
  fx_reverb : Effect
}.

(** The options object a synth constructor was given; every group is
    optional, and a group left out keeps Tone's default. *)
Record SynthOptions : Type := mkSynthOptions {
  opt_oscillator : option Oscillator;
  opt_envelope : option Envelope;
  opt_filter : option Filter;
  opt_filterEnvelope : option FilterEnvelope
}.

Definition no_options : SynthOptions := mkSynthOptions None None None None.

Record Sampler : Type := mkSampler {
  sampler_url : string;
  sampler_baseUrl : string
}.

(** The mono synth of the bass: constructor options and the last
    [set(synthState)]. *)
Record BassVoice : Type := mkBassVoice {
  bass_options : SynthOptions;
  bass_set : option SynthState
}.

Record Instruments : Type := mkInstruments {
  i_kick : Sampler;
  i_snare : Sampler;
  i_hihat : Sampler;
  i_bass : BassVoice;
  i_chords : SynthOptions
}.

Definition sampler_of (i : Instruments) (d : Drum) : Sampler :=
  match d with DKick => i_kick i | DSnare => i_snare i | DHihat => i_hihat i end.

Definition set_sampler (i : Instruments) (d : Drum) (s : Sampler) : Instruments :=
  match d with
  | DKick => mkInstruments s (i_snare i) (i_hihat i) (i_bass i) (i_chords i)
  | DSnare => mkInstruments (i_kick i) s (i_hihat i) (i_bass i) (i_chords i)
  | DHihat => mkInstruments (i_kick i) (i_snare i) s (i_bass i) (i_chords i)
  end.

Definition set_bass (i : Instruments) (b : BassVoice) : Instruments :=
  mkInstruments (i_kick i) (i_snare i) (i_hihat i) b (i_chords i).

Record Master : Type := mkMaster {
  bus_volume : num;
  bus_compressor : Bag;
  bus_limiter : num
}.

Record Graph : Type := mkGraph {
  channels : Channels;
  bassEffects : BassEffects;
  instruments : Instruments;
  master : Master
}.

(** What the engine asks of Tone and of its owner, in program order:
    the triggers and draw callbacks it schedules, each with its time, the
    settings it writes to the graph (one [Apply...] per block of writes),
    and the callbacks it makes when the transport stops. *)
Inductive Command : Type :=
  | TriggerAttack (t : Track) (note : string) (time : num)
  | TriggerAttackRelease (t : Track) (note : Step) (duration : Notation) (time : num)
  | TriggerRelease (t : Track) (time : num)
  | DrawSchedule (step : nat) (bar : Z) (time : num)
  | ApplyTrackSettings (s : TrackSettings)
  | ApplyBassEffects (s : EffectsState)
  | ApplyBassSynth (s : SynthState)
  | StepChange (step bar : Z)
  | MetersSilenced.

(** ** The live engine ([class AudioEngine]) *)

Record Transport : Type := mkTransport {
  transport_bpm : num;
  transport_started : bool;
  mainLoop_started : bool;
  mainLoop_iterations : option nat;
  uiLoop_started : bool
}.

Record Engine : Type := mkEngine {
  graph : Graph;
  isInitialized : bool;
  currentLayout : option DawLayout;
  currentPatternIndex : option Z;
  transport : Transport;
  pending : list string;
  trace : list Command;
  console : list string
}.

Definition with_graph (f : Graph -> Graph) (e : Engine) : Engine :=
  mkEngine (f (graph e)) (isInitialized e) (currentLayout e)
    (currentPatternIndex e) (transport e) (pending e) (trace e) (console e).
Definition with_isInitialized (b : bool) (e : Engine) : Engine :=
  mkEngine (graph e) b (currentLayout e)
    (currentPatternIndex e) (transport e) (pending e) (trace e) (console e).
Definition with_currentLayout (l : option DawLayout) (e : Engine) : Engine :=
  mkEngine (graph e) (isInitialized e) l
    (currentPatternIndex e) (transport e) (pending e) (trace e) (console e).
Definition with_currentPatternIndex (p : option Z) (e : Engine) : Engine :=
  mkEngine (graph e) (isInitialized e) (currentLayout e)
    p (transport e) (pending e) (trace e) (console e).
Definition with_transport (f : Transport -> Transport) (e : Engine) : Engine :=
  mkEngine (graph e) (isInitialized e) (currentLayout e)
    (currentPatternIndex e) (f (transport e)) (pending e) (trace e) (console e).
Definition with_pending (f : list string -> list string) (e : Engine) : Engine :=
  mkEngine (graph e) (isInitialized e) (currentLayout e)
    (currentPatternIndex e) (transport e) (f (pending e)) (trace e) (console e).
Definition with_trace (f : list Command -> list Command) (e : Engine) : Engine :=
  mkEngine (graph e) (isInitialized e) (currentLayout e)
    (currentPatternIndex e) (transport e) (pending e) (f (trace e)) (console e).
Definition with_console (f : list string -> list string) (e : Engine) : Engine :=
  mkEngine (graph e) (isInitialized e) (currentLayout e)
    (currentPatternIndex e) (transport e) (pending e) (trace e) (f (console e)).

Definition with_channels (f : Channels -> Channels) (g : Graph) : Graph :=
  mkGraph (f (channels g)) (bassEffects g) (instruments g) (master g).
Definition with_bassEffects (f : BassEffects -> BassEffects) (g : Graph) : Graph :=
  mkGraph (channels g) (f (bassEffects g)) (instruments g) (master g).
Definition with_instruments (f : Instruments -> Instruments) (g : Graph) : Graph :=
  mkGraph (channels g) (bassEffects g) (f (instruments g)) (master g).
Definition with_master (f : Master -> Master) (g : Graph) : Graph :=
  mkGraph (channels g) (bassEffects g) (instruments g) (f (master g)).

(** Commands appended to the trace of the engine. *)
Definition log (cs : list Command) (e : Engine) : Engine :=
  with_trace (fun t => t ++ cs) e.

Definition emit (c : Command) : M Engine unit := modify (log [c]).
Definition console_log (s : string) : M Engine unit :=
  modify (with_console (fun t => t ++ [s])).

Definition SAMPLES_URL : string :=
  "https://storage.googleapis.com/prompt-dj-app-public/samples/rythmai-daw/".

(** The first entry of each [SAMPLE_LIBRARY] list. *)
Definition default_sample (d : Drum) : string :=
  match d with DKick => "kick.wav" | DSnare => "snare.wav" | DHihat => "hihat.wav" end.

(** [createSampler]: the sampler, and the download Tone starts for it. *)
Definition blob_prefix : string := "blob:".
Definition isBlob (url : string) : bool := String.prefix blob_prefix url.
Definition new_sampler (url : string) : Sampler :=
  mkSampler url (if isBlob url then "" else SAMPLES_URL).
Definition full_url (s : Sampler) : string := sampler_baseUrl s +:+ sampler_url s.

Definition createSampler (url : string) : M Engine Sampler :=
  let s := new_sampler url in
  modify (with_pending (fun p => p ++ [full_url s]));;
  mret s.

(** [Tone.loaded()]: waits for the downloads in flight and rejects when one
    of them failed; none is left in flight afterwards. *)
Definition Tone_loaded {S} (w : World) (pend : S -> list string)
    (clear : S -> S) : M S unit :=
  p ← gets pend;
  modify clear;;
  if forallb (fetch_ok w) p then mret tt else throw LoadError.

(** [Tone.start()]: rejects while the browser keeps the context suspended. *)
Definition Tone_start {S} (w : World) : M S unit :=
  if audio_allowed w then mret tt else throw NotAllowedError.

(** Tone's defaults for a channel strip and for an effect's mix. *)
Definition default_channel : Channel := mkChannel (lit 0) (lit 0) false.
Definition default_wet : num := lit 1.

Definition live_bass_options : SynthOptions :=
  mkSynthOptions
    (Some (mkOscillator "sawtooth" None None))
    (Some (mkEnvelope (lit 0.01) (lit 0.2) (lit 0.2) (lit 0.1)))
    None
    (Some (mkFilterEnvelope (lit 0.01) (lit 0.1) (lit 0.1) (lit 0.2) (lit 200) (lit 4))).

Definition live_chords_options : SynthOptions :=
  mkSynthOptions
    (Some (mkOscillator "fatsawtooth" (Some (lit 3)) (Some (lit 30))))
    (Some (mkEnvelope (lit 0.01) (lit 0.5) (lit 0.2) (lit 0.8)))
    None
    None.

(** The graph the constructor builds. *)
Definition live_graph : Graph :=
  mkGraph
    (mkChannels (mkChannel (lit (-3)) (lit 0) false)
                (mkChannel (lit (-3)) (lit 0) false)
                (mkChannel (lit (-10)) (lit 0) false)
                (mkChannel (lit (-3)) (lit 0) false)
                (mkChannel (lit (-9)) (lit 0) false))
    (mkBassEffects (mkEffect [VNum (lit 0)] default_wet [])
                   (mkEffect [VStr "8n"; VNum (lit 0.5)] default_wet [])
                   (mkEffect [VNum (lit 1.5)] default_wet []))
    (mkInstruments (new_sampler (default_sample DKick))
                   (new_sampler (default_sample DSnare))
                   (new_sampler (default_sample DHihat))
                   (mkBassVoice live_bass_options None)
                   live_chords_options)
    (mkMaster (lit 0)
              [("threshold", VNum (lit (-18))); ("ratio", VNum (lit 4))]
              (lit (-6))).

(** [new AudioEngine()]; Tone's transport starts out stopped at 120 bpm. *)
Definition new_engine : Engine :=
  mkEngine live_graph false None None
    (mkTransport (lit 120) false false None false)
    (map (fun d => full_url (new_sampler (default_sample d))) [DKick; DSnare; DHihat])
    [] [].

(** [node.set(options)]: assigns the listed properties, keeps the others. *)
Fixpoint assign (b : Bag) (k : string) (v : JsVal) : Bag :=
  match b with
  | [] => [(k, v)]
  | (k', v') :: rest =>
      if decide (k = k') then (k, v) :: rest else (k', v') :: assign rest k v
  end.

Definition Tone_set (params new : Bag) : Bag :=
  fold_left (fun b kv => assign b kv.1 kv.2) new params.

Definition set_wet (v : num) (fx : Effect) : Effect :=
  mkEffect (fx_args fx) v (fx_params fx).
Definition set_params (new : Bag) (fx : Effect) : Effect :=
  mkEffect (fx_args fx) (fx_wet fx) (Tone_set (fx_params fx) new).

Definition set_pan (v : num) (c : Channel) : Channel :=
  mkChannel (ch_volume c) v (ch_mute c).
Definition set_volume (v : num) (c : Channel) : Channel :=
  mkChannel v (ch_pan c) (ch_mute c).
Definition set_mute (b : bool) (c : Channel) : Channel :=
  mkChannel (ch_volume c) (ch_pan c) b.

Definition on_channel (t : Track) (f : Channel -> Channel) (g : Graph) : Graph :=
  with_channels (fun c => set_channel c t (f (channel_of c t))) g.

Definition updateMixerSettings (settings : TrackSettings) : M Engine unit :=
  emit (ApplyTrackSettings settings);;
  let soloedTracks :=
    List.filter (fun key => solo (setting_of settings key)) all_tracks in
  for_ all_tracks (fun key =>
    let trackSettings := setting_of settings key in
    modify (with_graph (on_channel key (set_pan (pan trackSettings))));;
    modify (with_graph (on_channel key (set_volume (volume trackSettings))));;
    if (0 <? List.length soloedTracks)%nat
    then modify (with_graph (on_channel key (set_mute (negb (solo trackSettings)))))
    else modify (with_graph (on_channel key (set_mute (mute trackSettings))))).

Definition on_distortion (f : Effect -> Effect) (b : BassEffects) : BassEffects :=
  mkBassEffects (f (fx_distortion b)) (fx_delay b) (fx_reverb b).
Definition on_delay (f : Effect -> Effect) (b : BassEffects) : BassEffects :=
  mkBassEffects (fx_distortion b) (f (fx_delay b)) (fx_reverb b).
Definition on_reverb (f : Effect -> Effect) (b : BassEffects) : BassEffects :=
  mkBassEffects (fx_distortion b) (fx_delay b) (f (fx_reverb b)).

Definition updateBassEffects (effectsState : EffectsState) : M Engine unit :=
  emit (ApplyBassEffects effectsState);;
  let fx f := modify (with_graph (with_bassEffects f)) in
  fx (on_distortion (set_wet (wet (distortion effectsState))));;
  fx (on_distortion (set_params (settings (distortion effectsState))));;
  fx (on_delay (set_wet (wet (delay effectsState))));;
  fx (on_delay (set_params (settings (delay effectsState))));;
  fx (on_reverb (set_wet (wet (reverb effectsState))));;
  fx (on_reverb (set_params (settings (reverb effectsState)))).

Definition bass_apply (s : SynthState) (i : Instruments) : Instruments :=
  set_bass i (mkBassVoice (bass_options (i_bass i)) (Some s)).

Definition setBassSynth (s : SynthState) : M Engine unit :=
  emit (ApplyBassSynth s);;
  modify (with_graph (with_instruments (bass_apply s))).

(** [loadPattern(pattern)]; reading a field of [undefined] throws. *)
Definition loadPattern (pattern : option Pattern) : M Engine unit :=
  match pattern with
  | None => throw TypeError
  | Some pattern =>
      updateMixerSettings (trackSettings pattern);;
      updateBassEffects (effectsState pattern);;
      match synthState pattern with
      | Some s => setBassSynth s
      | None => mret tt
      end
  end.

Definition step_at (t : TrackState) (i : nat) : option Step := steps t !! i.

Definition schedulePattern (pattern : option Pattern) (time : num) (barIndex : Z)
    : M Engine unit :=
  match pattern with
  | None => throw TypeError
  | Some pattern =>
      let sq := sequencerState pattern in
      for_ (seq 0 16) (fun i =>
        tempo ← gets (fun e => transport_bpm (transport e));
        let stepTime := num_add time (num_mul (num_of_nat i) (toSeconds tempo N16n)) in
        when_ (truthy (step_at (seq_kick sq) i)) (emit (TriggerAttack Kick "C1" stepTime));;
        when_ (truthy (step_at (seq_snare sq) i)) (emit (TriggerAttack Snare "C1" stepTime));;
        when_ (truthy (step_at (seq_hihat sq) i)) (emit (TriggerAttack Hihat "C1" stepTime));;
        let bassNote := step_at (seq_bass sq) i in
        when_ (truthy bassNote)
          (emit (TriggerAttackRelease Bass (default StepNull bassNote) N16n stepTime));;
        let chord := step_at (seq_chords sq) i in
        when_ (truthy chord)
          (emit (TriggerAttackRelease Chords (default StepNull chord) N4n stepTime));;
        emit (DrawSchedule i barIndex stepTime))
  end.

(** [arrangement[barIndex]]: [None] is [undefined], [Some None] is [null]. *)
Definition pattern_at (layout : DawLayout) (patternIndex : option (option Z))
    : option Pattern :=
  p ← mjoin patternIndex; index (patterns layout) p.

(** The per-bar callback of the main loop; [progress] is
    [this.mainLoop.progress] as Tone reports it at the call. *)
Definition tick (time progress : num) : M Engine unit :=
  held ← gets currentLayout;
  match held with
  | None => mret tt
  | Some layout =>
      let currentBar :=
        num_mul progress (num_of_nat (List.length (arrangement layout))) in
      let barIndex := num_floor currentBar in
      match index (arrangement layout) barIndex with
      | Some None => emit (TriggerRelease Bass time)
      | patternIndex =>
          cur ← gets currentPatternIndex;
          when_ (bool_decide (patternIndex ≠ Some cur))
            (loadPattern (pattern_at layout patternIndex);;
             modify (with_currentPatternIndex (mjoin patternIndex)));;
          schedulePattern (pattern_at layout patternIndex) time barIndex
      end
  end.

Definition updateMasterSettings (s : MasterSettings) : M Engine unit :=
  modify (with_graph (with_master (fun m =>
    mkMaster (master_volume s) (bus_compressor m) (bus_limiter m))));;
  modify (with_graph (with_master (fun m =>
    mkMaster (bus_volume m)
      (Tone_set (bus_compressor m)
         [("threshold", VNum (threshold (compressor s)));
          ("ratio", VNum (ratio (compressor s)));
          ("attack", VNum (comp_attack (compressor s)));
          ("release", VNum (comp_release (compressor s)))])
      (bus_limiter m))));;
  modify (with_graph (with_master (fun m =>
    mkMaster (bus_volume m) (bus_compressor m) (limiter_threshold s)))).

Definition initialize (w : World) : M Engine unit :=
  ready ← gets isInitialized;
  when_ (negb ready)
    (Tone_start w;;
     Tone_loaded w pending (with_pending (fun _ => []));;
     modify (with_isInitialized true);;
     console_log "Audio engine initialized.").

Definition set_iterations (n : option nat) (t : Transport) : Transport :=
  mkTransport (transport_bpm t) (transport_started t) (mainLoop_started t) n
    (uiLoop_started t).
Definition set_transport_started (b : bool) (t : Transport) : Transport :=
  mkTransport (transport_bpm t) b (mainLoop_started t) (mainLoop_iterations t)
    (uiLoop_started t).
Definition set_mainLoop_started (b : bool) (t : Transport) : Transport :=
  mkTransport (transport_bpm t) (transport_started t) b (mainLoop_iterations t)
    (uiLoop_started t).
Definition set_uiLoop_started (b : bool) (t : Transport) : Transport :=
  mkTransport (transport_bpm t) (transport_started t) (mainLoop_started t)
    (mainLoop_iterations t) b.
Definition set_transport_bpm (v : num) (t : Transport) : Transport :=
  mkTransport v (transport_started t) (mainLoop_started t)
    (mainLoop_iterations t) (uiLoop_started t).

Definition start (w : World) : M Engine unit :=
  initialize w;;
  held ← gets currentLayout;
  match held with
  | None => mret tt
  | Some layout =>
      modify (with_transport
                (set_iterations (Some (List.length (arrangement layout)))));;
      modify (with_transport (set_transport_started true));;
      modify (with_transport (set_mainLoop_started true));;
      modify (with_transport (set_uiLoop_started true))
  end.

(** The listener the constructor registers for the transport's stop. *)
Definition on_transport_stop : M Engine unit :=
  emit (StepChange (-1) (-1));;
  modify (with_currentPatternIndex None);;
  emit MetersSilenced.

Definition stop : M Engine unit :=
  modify (with_transport (set_transport_started false));;
  on_transport_stop;;
  modify (with_transport (set_mainLoop_started false));;
  modify (with_transport (set_uiLoop_started false)).

Definition setBpm (v : num) : M Engine unit :=
  modify (with_transport (set_transport_bpm v)).

(** [loadSample(track, url)] *)
Definition loadSample (w : World) (track : Drum) (url : string) : M Engine unit :=
  initialize w;;
  (* the old sampler is disposed of, then replaced *)
  s ← createSampler url;
  modify (with_graph (with_instruments (fun i => set_sampler i track s)));;
  Tone_loaded w pending (with_pending (fun _ => [])).

Definition console_error (s : string) : M Engine unit := console_log s.

(** [updateAll(layout)]. The sample loads it starts are not awaited; here
    each one runs to its end before the next statement. *)
Definition updateAll (w : World) (layout : DawLayout) : M Engine unit :=
  oldLayout ← gets currentLayout;
  modify (with_currentLayout (Some layout));;
  setBpm (bpm layout);;
  updateMasterSettings (masterSettings layout);;
  for_ [DKick; DSnare; DHihat] (fun track =>
    let changed :=
      match oldLayout with
      | None => true
      | Some old =>
          bool_decide (sample_of (sampleSettings old) track
                       ≠ sample_of (sampleSettings layout) track)
      end in
    when_ changed
      (try_catch (loadSample w track (sample_of (sampleSettings layout) track))
         (fun _ => console_error "Failed to automatically load sample"))).

(** ** The offline renderer ([renderSong]) *)

(** The state of one [Tone.Offline] callback: its own transport tempo,
    graph and voices, and what it schedules. *)
Record Offline : Type := mkOffline {
  o_bpm : num;
  o_graph : Graph;
  o_pending : list string;
  o_trace : list Command;
  o_started : bool
}.

Definition with_o_bpm (v : num) (o : Offline) : Offline :=
  mkOffline v (o_graph o) (o_pending o) (o_trace o) (o_started o).
Definition with_o_graph (f : Graph -> Graph) (o : Offline) : Offline :=
  mkOffline (o_bpm o) (f (o_graph o)) (o_pending o) (o_trace o) (o_started o).
Definition with_o_pending (f : list string -> list string) (o : Offline) : Offline :=
  mkOffline (o_bpm o) (o_graph o) (f (o_pending o)) (o_trace o) (o_started o).
Definition with_o_trace (f : list Command -> list Command) (o : Offline) : Offline :=
  mkOffline (o_bpm o) (o_graph o) (o_pending o) (f (o_trace o)) (o_started o).
Definition with_o_started (b : bool) (o : Offline) : Offline :=
  mkOffline (o_bpm o) (o_graph o) (o_pending o) (o_trace o) b.

Definition o_log (cs : list Command) (o : Offline) : Offline :=
  with_o_trace (fun t => t ++ cs) o.

Definition o_emit (c : Command) : M Offline unit := modify (o_log [c]).

(** The sandboxed graph: master bus from the layout, five channels, the
    bass chain and the five voices, all built without further options. *)
Definition offline_graph (layout : DawLayout) : Graph :=
  let m := masterSettings layout in
  mkGraph
    (mkChannels default_channel default_channel default_channel
                default_channel default_channel)
    (mkBassEffects (mkEffect [] default_wet [])
                   (mkEffect [] default_wet [])
                   (mkEffect [] default_wet []))
    (mkInstruments (new_sampler (ss_kick (sampleSettings layout)))
                   (new_sampler (ss_snare (sampleSettings layout)))
                   (new_sampler (ss_hihat (sampleSettings layout)))
                   (mkBassVoice no_options None)
                   no_options)
    (mkMaster (master_volume m)
              [("threshold", VNum (threshold (compressor m)));
               ("ratio", VNum (ratio (compressor m)));
               ("attack", VNum (comp_attack (compressor m)));
               ("release", VNum (comp_release (compressor m)))]
              (limiter_threshold m)).

(** A fresh offline context (120 bpm) with the graph of the callback. *)
Definition offline_context (layout : DawLayout) : Offline :=
  let g := offline_graph layout in
  mkOffline (lit 120) g
    (map (fun d => full_url (sampler_of (instruments g) d)) [DKick; DSnare; DHihat])
    [] false.

(** The four blocks of one turn of the bar loop, named after their
    comments in the source. *)
Definition offline_apply_mixer (pattern : Pattern) : M Offline unit :=
  o_emit (ApplyTrackSettings (trackSettings pattern));;
  let soloedTracks :=
    List.filter (fun k => solo (setting_of (trackSettings pattern) k)) all_tracks in
  for_ all_tracks (fun key =>
    let s := setting_of (trackSettings pattern) key in
    modify (with_o_graph (on_channel key (set_volume (volume s))));;
    modify (with_o_graph (on_channel key (set_pan (pan s))));;
    if (0 <? List.length soloedTracks)%nat
    then modify (with_o_graph (on_channel key (set_mute (negb (solo s)))))
    else modify (with_o_graph (on_channel key (set_mute (mute s))))).

Definition offline_apply_effects (pattern : Pattern) : M Offline unit :=
  o_emit (ApplyBassEffects (effectsState pattern));;
  let fx f := modify (with_o_graph (with_bassEffects f)) in
  fx (on_distortion (set_wet (wet (distortion (effectsState pattern)))));;
  fx (on_distortion (set_params (settings (distortion (effectsState pattern)))));;
  fx (on_delay (set_wet (wet (delay (effectsState pattern)))));;
  fx (on_delay (set_params (settings (delay (effectsState pattern)))));;
  fx (on_reverb (set_wet (wet (reverb (effectsState pattern)))));;
  fx (on_reverb (set_params (settings (reverb (effectsState pattern))))).

Definition offline_apply_synth (pattern : Pattern) : M Offline unit :=
  match synthState pattern with
  | Some s =>
      o_emit (ApplyBassSynth s);;
      modify (with_o_graph (with_instruments (bass_apply s)))
  | None => mret tt
  end.

Definition offline_schedule_notes (pattern : Pattern) (time : num) : M Offline unit :=
  let sq := sequencerState pattern in
  for_ (seq 0 16) (fun i =>
    tempo ← gets o_bpm;
    let stepTime :=
      num_add time (num_mul (num_of_nat i) (toSeconds tempo N16n)) in
    when_ (truthy (step_at (seq_kick sq) i))
      (o_emit (TriggerAttack Kick "C1" stepTime));;
    when_ (truthy (step_at (seq_snare sq) i))
      (o_emit (TriggerAttack Snare "C1" stepTime));;
    when_ (truthy (step_at (seq_hihat sq) i))
      (o_emit (TriggerAttack Hihat "C1" stepTime));;
    let bassNote := step_at (seq_bass sq) i in
    when_ (truthy bassNote)
      (o_emit (TriggerAttackRelease Bass (default StepNull bassNote) N16n stepTime));;
    let chord := step_at (seq_chords sq) i in
    when_ (truthy chord)
      (o_emit (TriggerAttackRelease Chords (default StepNull chord) N4n stepTime))).

(** One turn of the [for (barIndex ...)] loop. *)
Definition offline_bar (layout : DawLayout) (barDuration : num) (barIndex : nat)
    : M Offline unit :=
  match arrangement layout !! barIndex with
  | Some None => mret tt
  | patternIndex =>
      match pattern_at layout patternIndex with
      | None => throw TypeError
      | Some pattern =>
          let time := num_mul (num_of_nat barIndex) barDuration in
          offline_apply_mixer pattern;;
          offline_apply_effects pattern;;
          offline_apply_synth pattern;;
          offline_schedule_notes pattern time
      end
  end.

(** The callback handed to [Tone.Offline]. *)
Definition offline_callback (w : World) (layout : DawLayout) (barDuration : num)
    : M Offline unit :=
  modify (with_o_bpm (bpm layout));;
  Tone_loaded w o_pending (with_o_pending (fun _ => []));;
  for_ (seq 0 (List.length (arrangement layout))) (offline_bar layout barDuration);;
  modify (with_o_started true).

Record Render : Type := mkRender {
  totalDuration : num;
  offline : Offline
}.

(** [renderSong(layout)] up to the synthesis of the buffer, which is
    Tone's. [barDuration] is read before [Tone.Offline] installs its
    context, against the tempo [ambient] of the live transport. *)
Definition renderSong (w : World) (ambient : num) (layout : DawLayout)
    : Outcome Render :=
  let barDuration := toSeconds ambient N1m in
  let totalDuration :=
    num_mul barDuration (num_of_nat (List.length (arrangement layout))) in
  match offline_callback w layout barDuration (offline_context layout) with
  | (Ok _, o) => Ok (mkRender totalDuration o)
  | (Throw e, _) => Throw e
  end.

(** ** The main component: sample selection and chord generation *)

(** The reply of the generative model to a chord request, as
    [generateChordsFromPrompt] meets it: the call or the parse throws, the
    reply has no text, or it parses to an array of strings. *)
Inductive AiReply : Type :=
  | AiThrows
  | AiNoText
  | AiArray (chords : list string).

(** [generateChordsFromPrompt], after the reply came back. *)
Definition generateChordsFromPrompt (reply : AiReply) : option (list Step) :=
  match reply with
  | AiThrows => None
  | AiNoText => None
  | AiArray chordsArray =>
      Some (map (fun chord => if decide (chord = "") then StepNull else StepNote chord)
                chordsArray)
  end.

Record App : Type := mkApp {
  layout : DawLayout;
  activePatternIndex : Z;
  chordPromptText : string;
  isAiThinking : bool;
  isLibraryOpen : bool;
  has_toast : bool;
  toasts : list string;
  app_console : list string;
  engine : Engine
}.

Definition with_layout (f : DawLayout -> DawLayout) (a : App) : App :=
  mkApp (f (layout a)) (activePatternIndex a) (chordPromptText a) (isAiThinking a)
    (isLibraryOpen a) (has_toast a) (toasts a) (app_console a) (engine a).
Definition with_isAiThinking (b : bool) (a : App) : App :=
  mkApp (layout a) (activePatternIndex a) (chordPromptText a) b
    (isLibraryOpen a) (has_toast a) (toasts a) (app_console a) (engine a).
Definition with_isLibraryOpen (b : bool) (a : App) : App :=
  mkApp (layout a) (activePatternIndex a) (chordPromptText a) (isAiThinking a)
    b (has_toast a) (toasts a) (app_console a) (engine a).
Definition with_toasts (f : list string -> list string) (a : App) : App :=
  mkApp (layout a) (activePatternIndex a) (chordPromptText a) (isAiThinking a)
    (isLibraryOpen a) (has_toast a) (f (toasts a)) (app_console a) (engine a).
Definition with_app_console (f : list string -> list string) (a : App) : App :=
  mkApp (layout a) (activePatternIndex a) (chordPromptText a) (isAiThinking a)
    (isLibraryOpen a) (has_toast a) (toasts a) (f (app_console a)) (engine a).
Definition with_engine (e : Engine) (a : App) : App :=
  mkApp (layout a) (activePatternIndex a) (chordPromptText a) (isAiThinking a)
    (isLibraryOpen a) (has_toast a) (toasts a) (app_console a) e.

(** A call into [this.audioEngine]. *)
Definition on_engine {A} (m : M Engine A) : M App A :=
  fun a => let '(r, e) := m (engine a) in (r, with_engine e a).

(** An in-place mutation of [this.layout]. The engine holds the same
    object once [updateAll] has passed it, so it sees the mutation too. *)
Definition mutate_layout (f : DawLayout -> DawLayout) : M App unit :=
  modify (fun a =>
    with_engine (with_currentLayout (f <$> currentLayout (engine a)) (engine a))
                (with_layout f a)).

Definition showNotification (message : string) : M App unit :=
  shown ← gets has_toast;
  if (shown : bool) then modify (with_toasts (fun t => t ++ [message]))
  else modify (with_app_console (fun t => t ++ ["Notification: " +:+ message])).

Definition drum_name (d : Drum) : string :=
  match d with DKick => "kick" | DSnare => "snare" | DHihat => "hihat" end.

(** [track.charAt(0).toUpperCase() + track.slice(1)] *)
Definition drum_title (d : Drum) : string :=
  match d with DKick => "Kick" | DSnare => "Snare" | DHihat => "Hihat" end.

Definition with_sampleSettings (f : SampleSettings -> SampleSettings)
    (l : DawLayout) : DawLayout :=
  mkDawLayout (patterns l) (arrangement l) (bpm l) (f (sampleSettings l))
    (masterSettings l).

Definition handleSampleSelected (w : World) (track : Drum) (url : string)
    : M App unit :=
  modify (with_isLibraryOpen false);;
  showNotification ("Loading " +:+ drum_name track +:+ " sample...");;
  try_catch
    (on_engine (loadSample w track url);;
     mutate_layout (with_sampleSettings (fun s => set_sample s track url));;
     showNotification (drum_title track +:+ " sample loaded!"))
    (fun err =>
       modify (with_app_console (fun t =>
         t ++ ["Failed to load sample for " +:+ drum_name track +:+ ": " +:+ err]));;
       showNotification ("Error: Could not load " +:+ drum_name track +:+ " sample.")).

(** A JS string is held as the bytes of its UTF-8 encoding, which is how a
    string literal of this file is read. [is_space] is the set of code
    points [trim] removes, ECMAScript's WhiteSpace and LineTerminator:
    U+0009..U+000D, U+0020, U+00A0, U+1680, U+2000..U+200A, U+2028,
    U+2029, U+202F, U+205F, U+3000 and U+FEFF. *)
Definition is_space (code : N) : bool :=
  (((9 <=? code) && (code <=? 13))
   || (code =? 32) || (code =? 160) || (code =? 5760)
   || ((8192 <=? code) && (code <=? 8202))
   || (code =? 8232) || (code =? 8233) || (code =? 8239) || (code =? 8287)
   || (code =? 12288) || (code =? 65279))%N.

(** The payload of a UTF-8 continuation byte. *)
Definition continuation (c : Ascii.ascii) : option N :=
  let b := Ascii.N_of_ascii c in
  if ((128 <=? b) && (b <? 192))%N then Some (b - 128)%N else None.

(** [!s.trim()]: every code point of [s] is white space. Code points
    are decoded from one, two or three bytes; those of four bytes hold no
    white space. A byte below 192 starts no longer sequence and is read as
    the code point of its value, which also covers a string given one
    byte per Latin-1 character. *)
Fixpoint blank (s : string) : bool :=
  match s with
  | EmptyString => true
  | String c0 rest =>
      let b0 := Ascii.N_of_ascii c0 in
      if (b0 <? 192)%N then is_space b0 && blank rest
      else if (b0 <? 224)%N then
        match rest with
        | String c1 rest1 =>
            match continuation c1 with
            | Some x1 =>
                let code := ((b0 - 192) * 64 + x1)%N in
                (128 <=? code)%N && is_space code && blank rest1
            | None => false
            end
        | EmptyString => false
        end
      else if (b0 <? 240)%N then
        match rest with
        | String c1 (String c2 rest2) =>
            match continuation c1, continuation c2 with
            | Some x1, Some x2 =>
                let code := ((b0 - 224) * 4096 + x1 * 64 + x2)%N in
                (2048 <=? code)%N && is_space code && blank rest2
            | _, _ => false
            end
        | _ => false
        end
      else false
  end.

(** The index [get activePattern] reads: [None] when the layout has no
    pattern and the getter hands out a throw-away object. *)
Definition active_index (a : App) : option nat :=
  match patterns (layout a) with
  | [] => None
  | _ =>
      match index (patterns (layout a)) (activePatternIndex a) with
      | Some _ => Some (Z.to_nat (activePatternIndex a))
      | None => Some 0%nat
      end
  end.

Definition dummy_pattern : Pattern :=
  let off := mkTrackSetting (lit 0) (lit 0) false false in
  let none := mkTrackState [] in
  let dry := mkEffectState (lit 0) [] in
  mkPattern
    (mkSequencerState none none none none none)
    (mkTrackSettings off off off off off)
    (mkEffectsState dry dry dry)
    (Some (mkSynthState
       (mkOscillator "sine" None None)
       (mkEnvelope (lit 0) (lit 0) (lit 0) (lit 0))
       (mkFilter "lowpass" (lit (-12)) (lit 1))
       (mkFilterEnvelope (lit 0) (lit 0) (lit 0) (lit 0) (lit 200) (lit 0)))).

Definition activePattern (a : App) : Pattern :=
  match active_index a with
  | Some i => default dummy_pattern (patterns (layout a) !! i)
  | None => dummy_pattern
  end.

Definition set_chord_steps (new : list Step) (p : Pattern) : Pattern :=
  let sq := sequencerState p in
  mkPattern
    (mkSequencerState (seq_kick sq) (seq_snare sq) (seq_hihat sq) (seq_bass sq)
       (mkTrackState new))
    (trackSettings p) (effectsState p) (synthState p).

Definition with_patterns (f : list Pattern -> list Pattern) (l : DawLayout)
    : DawLayout :=
  mkDawLayout (f (patterns l)) (arrangement l) (bpm l) (sampleSettings l)
    (masterSettings l).

(** [this.activePattern.sequencerState.chords.steps = newChords] *)
Definition assign_active_chords (newChords : list Step) : M App unit :=
  a ← get;
  match active_index a with
  | Some i => mutate_layout (with_patterns (alter (set_chord_steps newChords) i))
  | None => mret tt
  end.

(** [handleGenerateChords]; [ai] answers for the generative service. *)
Definition handleGenerateChords (w : World) (ai : string -> list Step -> AiReply)
    : M App unit :=
  text ← gets chordPromptText;
  if blank (text : string)
  then showNotification "Please enter a chord progression prompt."
  else
    modify (with_isAiThinking true);;
    try_catch
      (a ← get;
       let bassline := steps (seq_bass (sequencerState (activePattern a))) in
       let newChords := generateChordsFromPrompt (ai text bassline) in
       match newChords with
       | Some chords =>
           if decide (List.length chords = 16%nat)
           then
             assign_active_chords chords;;
             (a' ← get; on_engine (updateAll w (layout a')));;
             showNotification "AI chord progression generated!"
           else showNotification "AI failed to generate a valid chord progression."
       | None => showNotification "AI failed to generate a valid chord progression."
       end)
      (fun err =>
         modify (with_app_console (fun t =>
           t ++ ["Failed to generate AI chords: " +:+ err]));;
         showNotification "Error generating AI chords.");;
    modify (with_isAiThinking false).

(** ** The factory layout ([buildDefaultLayout]) *)

Definition createDefaultSynthState : SynthState :=
  mkSynthState
    (mkOscillator "sawtooth" None None)
    (mkEnvelope (lit 0.01) (lit 0.2) (lit 0.2) (lit 0.1))
    (mkFilter "lowpass" (lit (-12)) (lit 1))
    (mkFilterEnvelope (lit 0.01) (lit 0.1) (lit 0.1) (lit 0.2) (lit 200) (lit 4)).

Definition createDefaultEffectsState : EffectsState :=
  mkEffectsState
    (mkEffectState (lit 0) [("distortion", VNum (lit 0.4))])
    (mkEffectState (lit 0) [("delayTime", VStr "8n"); ("feedback", VNum (lit 0.5))])
    (mkEffectState (lit 0) [("decay", VNum (lit 1.5)); ("preDelay", VNum (lit 0.01))]).

Definition hits (l : list bool) : TrackState := mkTrackState (map StepBool l).

Definition notes (l : list string) : TrackState :=
  mkTrackState (map (fun s => if decide (s = "") then StepNull else StepNote s) l).

Definition track (v p : Q) : TrackSetting := mkTrackSetting (lit v) (lit p) false false.

Definition default_pattern_1 : Pattern :=
  mkPattern
    (mkSequencerState
       (hits [true; false; false; false; true; false; false; false;
              true; false; false; false; true; false; false; false])
       (hits [false; false; false; false; true; false; false; false;
              false; false; false; false; true; false; false; false])
       (hits (replicate 16 true))
       (notes ["C3"; ""; "D#3"; "F3"; ""; "D#3"; ""; "";
               "G3"; ""; "A#3"; "C4"; ""; "A#3"; "G3"; ""])
       (notes ["Cm7"; ""; ""; ""; "Fm7"; ""; ""; "";
               "G#maj7"; ""; ""; ""; "G7"; ""; ""; ""]))
    (mkTrackSettings (track (-3) 0) (track (-3) 0) (track (-10) 0)
                     (track (-3) 0) (track (-9) 0))
    createDefaultEffectsState
    (Some createDefaultSynthState).

Definition default_pattern_2 : Pattern :=
  mkPattern
    (mkSequencerState
       (hits [true; false; true; false; true; false; true; false;
              true; false; true; false; true; false; true; false])
       (hits [false; false; false; false; true; false; false; true;
              false; false; false; false; true; false; false; true])
       (hits [false; true; false; true; false; true; false; true;
              false; true; false; true; false; true; false; true])
       (notes ["C3"; "C3"; "D#3"; ""; "F3"; "F3"; ""; "";
               "G3"; ""; "C4"; ""; "A#3"; ""; "G3"; ""])
       (notes ["Cm7"; ""; "Cm7"; ""; "Fm7"; ""; "Fm7"; "";
               "G#maj7"; ""; "G#maj7"; ""; "G7"; ""; "G7"; ""]))
    (mkTrackSettings (track 0 0) (track 0 0.1) (track (-8) (-0.2))
                     (track (-2) 0) (track (-8) 0))
    (mkEffectsState
       (mkEffectState (lit 0.3) [("distortion", VNum (lit 0.8))])
       (delay createDefaultEffectsState)
       (reverb createDefaultEffectsState))
    (Some createDefaultSynthState).

Definition buildDefaultLayout : DawLayout :=
  mkDawLayout
    ([default_pattern_1; default_pattern_2] ++ replicate 6 default_pattern_1)
    (map Some [0; 0; 0; 0; 1; 1; 1; 1; 0; 0; 0; 0; 1; 1; 1; 1])
    (lit 120)
    (mkSampleSettings "kick.wav" "snare.wav" "hihat.wav")
    (mkMasterSettings (lit 0)
       (mkCompressorSettings (lit (-18)) (lit 4) (lit 0.01) (lit 0.1))
       (lit (-3))).

(** A world where audio may start and every sample loads, and one where
    the named sample does not load. *)
Definition fair_world : World := mkWorld true (fun _ => true).
Definition world_without (url : string) : World :=
  mkWorld true (fun u => bool_decide (u ≠ url)).

(** The engine once the component has handed it [layout]. *)
Definition engine_with (w : World) (layout : DawLayout) : Engine :=
  (updateAll w layout new_engine).2.

(** ** Vocabulary of the statements *)

(** The bar a tick resolves, and the arrangement entry it finds there. *)
Definition bar_of (layout : DawLayout) (progress : num) : Z :=
  num_floor (num_mul progress (num_of_nat (List.length (arrangement layout)))).

Definition resolved (layout : DawLayout) (progress : num) : option (option Z) :=
  index (arrangement layout) (bar_of layout progress).

(** An entry the scheduler can play: silence, or the index of a pattern
    the layout has (the layout invariant of the data model). *)
Definition playable (layout : DawLayout) (entry : option (option Z)) : Prop :=
  match entry with
  | Some None => True
  | Some (Some p) => is_Some (index (patterns layout) p)
  | None => False
  end.

Definition well_formed (layout : DawLayout) : Prop :=
  Forall (fun entry => playable layout (Some entry)) (arrangement layout).

(** The settings re-sync of a pattern: what [loadPattern] asks for. *)
Definition resync (pattern : Pattern) : list Command :=
  [ApplyTrackSettings (trackSettings pattern);
   ApplyBassEffects (effectsState pattern)]
  ++ match synthState pattern with
     | Some s => [ApplyBassSynth s]
     | None => []
     end.

Definition is_settings (c : Command) : bool :=
  match c with
  | ApplyTrackSettings _ | ApplyBassEffects _ | ApplyBassSynth _ => true
  | _ => false
  end.

(** The instrument triggers among the commands. *)
Definition is_trigger (c : Command) : bool :=
  match c with
  | TriggerAttack _ _ _ | TriggerAttackRelease _ _ _ _ | TriggerRelease _ _ => true
  | _ => false
  end.

Definition command_time (c : Command) : option num :=
  match c with
  | TriggerAttack _ _ t | TriggerAttackRelease _ _ _ t | TriggerRelease _ t
  | DrawSchedule _ _ t => Some t
  | _ => None
  end.

(** The triggers of step [i] of a bar, all at [stepTime]. *)
Definition step_triggers (sq : SequencerState) (i : nat) (stepTime : num)
    : list Command :=
  (if truthy (step_at (seq_kick sq) i) then [TriggerAttack Kick "C1" stepTime] else [])
  ++ (if truthy (step_at (seq_snare sq) i) then [TriggerAttack Snare "C1" stepTime] else [])
  ++ (if truthy (step_at (seq_hihat sq) i) then [TriggerAttack Hihat "C1" stepTime] else [])
  ++ (if truthy (step_at (seq_bass sq) i)
      then [TriggerAttackRelease Bass (default StepNull (step_at (seq_bass sq) i)) N16n stepTime]
      else [])
  ++ (if truthy (step_at (seq_chords sq) i)
      then [TriggerAttackRelease Chords (default StepNull (step_at (seq_chords sq) i)) N4n stepTime]
      else []).

(** Sixteen steps, step [i] placed [i] sixteenth notes after [base]. *)
Definition step_time (base sixteenth : num) (i : nat) : num :=
  num_add base (num_mul (num_of_nat i) sixteenth).

Definition bar_triggers (pattern : Pattern) (base sixteenth : num) : list Command :=
  flat_map (fun i => step_triggers (sequencerState pattern) i (step_time base sixteenth i))
           (seq 0 16).

(** What the live scheduler adds per step: the triggers and the UI draw. *)
Definition live_bar (pattern : Pattern) (base sixteenth : num) (barIndex : Z)
    : list Command :=
  flat_map (fun i =>
              step_triggers (sequencerState pattern) i (step_time base sixteenth i)
              ++ [DrawSchedule i barIndex (step_time base sixteenth i)])
           (seq 0 16).

(** What one bar of the arrangement contributes to an offline render
    whose transport runs at [tempo]. *)
Definition bar_plan (layout : DawLayout) (tempo barDuration : num) (barIndex : nat)
    : list Command :=
  match arrangement layout !! barIndex with
  | Some (Some p) =>
      match index (patterns layout) p with
      | Some pattern =>
          resync pattern
          ++ bar_triggers pattern (num_mul (num_of_nat barIndex) barDuration)
               (toSeconds tempo N16n)
      | None => []
      end
  | _ => []
  end.

(** The re-syncs a run of ticks is expected to make: one per switch of the
    resolved pattern index, none for an empty bar or a sustained index. *)
Fixpoint expected_resyncs (layout : DawLayout) (cur : option Z)
    (bars : list (option (option Z))) : list Command :=
  match bars with
  | [] => []
  | Some (Some p) :: rest =>
      (if decide (cur = Some p) then []
       else from_option resync [] (index (patterns layout) p))
      ++ expected_resyncs layout (Some p) rest
  | _ :: rest => expected_resyncs layout cur rest
  end.

(** Ticks as the main loop delivers them: [(time, progress)] each. *)
Definition run_ticks (ticks : list (num * num)) : M Engine unit :=
  for_ ticks (fun tk => tick tk.1 tk.2).

(** Tone calls a loop's callback only while the transport and the loop
    are both started. *)
Definition mainLoop_fire (tk : num * num) : M Engine unit :=
  t ← gets transport;
  when_ (transport_started (t : Transport) && mainLoop_started t) (tick tk.1 tk.2).

(** Mute/solo resolution of [settings] as found on a set of channels. *)
Definition mute_solo_resolved (settings : TrackSettings) (c : Channels) : Prop :=
  ((exists t, solo (setting_of settings t) = true) ->
   forall t, ch_mute (channel_of c t) = negb (solo (setting_of settings t)))
  /\ ((forall t, solo (setting_of settings t) = false) ->
      forall t, ch_mute (channel_of c t) = mute (setting_of settings t)).

(** How a notification reaches the user: the toast, or the console when
    the toast element is not there yet. *)
Definition notified (before after : App) (message : string) : Prop :=
  if has_toast before
  then toasts after = toasts before ++ [message]
  else app_console after = app_console before ++ ["Notification: " +:+ message].

(** ** Small inputs for the examples *)

Definition quiet : TrackState := mkTrackState (replicate 16 StepNull).

Definition demo_pattern (chord : string) (soloed : bool) : Pattern :=
  mkPattern
    (mkSequencerState (hits (true :: replicate 15 false)) quiet quiet
       (notes ("C3" :: replicate 15 "")) (notes (chord :: replicate 15 "")))
    (mkTrackSettings (track (-3) 0) (track (-3) 0) (track (-10) 0)
       (mkTrackSetting (lit (-3)) (lit 0) true soloed) (track (-9) 0))
    createDefaultEffectsState
    (Some createDefaultSynthState).

(** Four bars: a pattern, a gap, the pattern again, another pattern. *)
Definition demo_layout : DawLayout :=
  mkDawLayout
    [demo_pattern "Cm7" false; demo_pattern "G7" true]
    [Some 0; None; Some 0; Some 1]
    (lit 120)
    (mkSampleSettings "kick.wav" "snare.wav" "hihat.wav")
    (mkMasterSettings (lit 0)
       (mkCompressorSettings (lit (-18)) (lit 4) (lit 0.01) (lit 0.1))
       (lit (-3))).

Definition new_app (l : DawLayout) (e : Engine) : App :=
  mkApp l 0 "Sad lofi progression" false false true [] [] e.

(** The strip of track [t] once [settings] is applied. *)
Definition any_solo (settings : TrackSettings) : bool :=
  existsb (fun k => solo (setting_of settings k)) all_tracks.

Definition mixed (settings : TrackSettings) (t : Track) : Channel :=
  let s := setting_of settings t in
  mkChannel (volume s) (pan s)
    (if any_solo settings then negb (solo s) else mute s).

Definition mixed_channels (settings : TrackSettings) : Channels :=
  mkChannels (mixed settings Kick) (mixed settings Snare) (mixed settings Hihat)
             (mixed settings Bass) (mixed settings Chords).

Definition effect_applied (s : EffectState) (fx : Effect) : Effect :=
  mkEffect (fx_args fx) (wet s) (Tone_set (fx_params fx) (settings s)).

Definition effects_applied (s : EffectsState) (b : BassEffects) : BassEffects :=
  mkBassEffects (effect_applied (distortion s) (fx_distortion b))
                (effect_applied (delay s) (fx_delay b))
                (effect_applied (reverb s) (fx_reverb b)).

(** The graph after a pattern's settings are applied to it. *)
Definition pattern_applied (pattern : Pattern) (g : Graph) : Graph :=
  mkGraph (mixed_channels (trackSettings pattern))
          (effects_applied (effectsState pattern) (bassEffects g))
          (match synthState pattern with
           | Some s => bass_apply s (instruments g)
           | None => instruments g
           end)
          (master g).

(** The graph a run of ticks is expected to leave: the settings of the
    pattern switched to applied at every switch of the resolved index, and
    nothing done to it for an empty bar or while an index is sustained. *)
Fixpoint resynced_graph (layout : DawLayout) (cur : option Z)
    (bars : list (option (option Z))) (g : Graph) : Graph :=
  match bars with
  | [] => g
  | Some (Some p) :: rest =>
      resynced_graph layout (Some p) rest
        (if decide (cur = Some p) then g
         else from_option (fun pattern => pattern_applied pattern g) g
                (index (patterns layout) p))
  | _ :: rest => resynced_graph layout cur rest g
  end.

Definition demo_engine : Engine := engine_with fair_world demo_layout.

Definition demo_app : App := new_app demo_layout demo_engine.

(** Four ticks, one per bar of [demo_layout]: [(time, progress)]. *)
Definition demo_ticks : list (num * num) :=
  [(lit 0, lit 0); (lit 2, lit 0.25); (lit 4, lit 0.5); (lit 6, lit 0.75)].

(** The chord steps of the active pattern once [chords] are assigned. *)
Definition chords_assigned (chords : list Step) (a : App) : App :=
  match active_index a with
  | Some i => with_layout (with_patterns (alter (set_chord_steps chords) i)) a
  | None => a
  end.

(** Replies of the generative service: fifteen chords, sixteen chords. *)
Definition short_reply (_ : string) (_ : list Step) : AiReply :=
  AiArray (replicate 15 "Am").
Definition full_reply (_ : string) (_ : list Step) : AiReply :=
  AiArray (replicate 16 "Am").

(** ** Vocabulary for the hand-over of a layout *)

(** What neither [initialize] nor a sample load changes. *)
Definition same_session (e e' : Engine) : Prop :=
  channels (graph e') = channels (graph e)
  /\ bassEffects (graph e') = bassEffects (graph e)
  /\ master (graph e') = master (graph e)
  /\ i_bass (instruments (graph e')) = i_bass (instruments (graph e))
  /\ i_chords (instruments (graph e')) = i_chords (instruments (graph e))
  /\ currentLayout e' = currentLayout e
  /\ currentPatternIndex e' = currentPatternIndex e
  /\ transport e' = transport e
  /\ trace e' = trace e.

(** [!oldLayout || oldLayout.sampleSettings[track] !== layout.sampleSettings[track]] *)
Definition sample_changed (old : option DawLayout) (layout : DawLayout) (d : Drum)
    : bool :=
  match old with
  | None => true
  | Some old =>
      bool_decide (sample_of (sampleSettings old) d ≠ sample_of (sampleSettings layout) d)
  end.

(** ** The other handlers of the component *)

Definition with_bpm (v : num) (l : DawLayout) : DawLayout :=
  mkDawLayout (patterns l) (arrangement l) v (sampleSettings l) (masterSettings l).
Definition with_arrangement (f : list (option Z) -> list (option Z)) (l : DawLayout)
    : DawLayout :=
  mkDawLayout (patterns l) (f (arrangement l)) (bpm l) (sampleSettings l)
    (masterSettings l).
Definition with_masterSettings (f : MasterSettings -> MasterSettings) (l : DawLayout)
    : DawLayout :=
  mkDawLayout (patterns l) (arrangement l) (bpm l) (sampleSettings l)
    (f (masterSettings l)).

Definition with_sequencerState (s : SequencerState) (p : Pattern) : Pattern :=
  mkPattern s (trackSettings p) (effectsState p) (synthState p).
Definition with_trackSettings (f : TrackSettings -> TrackSettings) (p : Pattern)
    : Pattern :=
  mkPattern (sequencerState p) (f (trackSettings p)) (effectsState p) (synthState p).
Definition with_effectsState (f : EffectsState -> EffectsState) (p : Pattern)
    : Pattern :=
  mkPattern (sequencerState p) (trackSettings p) (f (effectsState p)) (synthState p).

Definition with_activePatternIndex (i : Z) (a : App) : App :=
  mkApp (layout a) i (chordPromptText a) (isAiThinking a)
    (isLibraryOpen a) (has_toast a) (toasts a) (app_console a) (engine a).

(** An in-place mutation of [this.activePattern]; with no pattern in the
    layout the getter hands out a fresh object and the mutation is lost. *)
Definition mutate_active (f : Pattern -> Pattern) : M App unit :=
  a ← get;
  match active_index a with
  | Some i => mutate_layout (with_patterns (alter f i))
  | None => mret tt
  end.

(** [this.audioEngine.updateAll(this.layout)] *)
Definition engine_updateAll (w : World) : M App unit :=
  a ← get; on_engine (updateAll w (layout a)).

Definition handleBpmChange (value : num) : M App unit :=
  mutate_layout (with_bpm value);;
  a ← get; on_engine (setBpm (bpm (layout a))).

Definition handleSequenceChange (w : World) (detail : SequencerState) : M App unit :=
  mutate_active (with_sequencerState detail);;
  engine_updateAll w.

(** The property of a track setting a mixer event names, with its value. *)
Inductive MixerChange : Type :=
  | SetVolume (v : num)
  | SetPan (v : num)
  | SetMute (b : bool)
  | SetSolo (b : bool).

Definition set_setting (c : MixerChange) (s : TrackSetting) : TrackSetting :=
  match c with
  | SetVolume v => mkTrackSetting v (pan s) (mute s) (solo s)
  | SetPan v => mkTrackSetting (volume s) v (mute s) (solo s)
  | SetMute b => mkTrackSetting (volume s) (pan s) b (solo s)
  | SetSolo b => mkTrackSetting (volume s) (pan s) (mute s) b
  end.

Definition on_setting (t : Track) (f : TrackSetting -> TrackSetting)
    (s : TrackSettings) : TrackSettings :=
  match t with
  | Kick => mkTrackSettings (f (ts_kick s)) (ts_snare s) (ts_hihat s) (ts_bass s) (ts_chords s)
  | Snare => mkTrackSettings (ts_kick s) (f (ts_snare s)) (ts_hihat s) (ts_bass s) (ts_chords s)
  | Hihat => mkTrackSettings (ts_kick s) (ts_snare s) (f (ts_hihat s)) (ts_bass s) (ts_chords s)
  | Bass => mkTrackSettings (ts_kick s) (ts_snare s) (ts_hihat s) (f (ts_bass s)) (ts_chords s)
  | Chords => mkTrackSettings (ts_kick s) (ts_snare s) (ts_hihat s) (ts_bass s) (f (ts_chords s))
  end.

Definition handleMixerChange (w : World) (track : Track) (change : MixerChange)
    : M App unit :=
  mutate_active (with_trackSettings (on_setting track (set_setting change)));;
  engine_updateAll w.

(** The property of the master settings an event names, with its value. *)
Inductive MasterChange : Type :=
  | MasterVolume (v : num)
  | MasterCompressor (c : CompressorSettings)
  | MasterLimiter (threshold : num).

Definition set_master (c : MasterChange) (m : MasterSettings) : MasterSettings :=
  match c with
  | MasterVolume v => mkMasterSettings v (compressor m) (limiter_threshold m)
  | MasterCompressor k => mkMasterSettings (master_volume m) k (limiter_threshold m)
  | MasterLimiter t => mkMasterSettings (master_volume m) (compressor m) t
  end.

Definition handleMasterChange (change : MasterChange) : M App unit :=
  mutate_layout (with_masterSettings (set_master change));;
  a ← get; on_engine (updateMasterSettings (masterSettings (layout a))).

Inductive CompressorChange : Type :=
  | CompThreshold (v : num)
  | CompRatio (v : num)
  | CompAttack (v : num)
  | CompRelease (v : num).

Definition set_compressor (c : CompressorChange) (k : CompressorSettings)
    : CompressorSettings :=
  match c with
  | CompThreshold v => mkCompressorSettings v (ratio k) (comp_attack k) (comp_release k)
  | CompRatio v => mkCompressorSettings (threshold k) v (comp_attack k) (comp_release k)
  | CompAttack v => mkCompressorSettings (threshold k) (ratio k) v (comp_release k)
  | CompRelease v => mkCompressorSettings (threshold k) (ratio k) (comp_attack k) v
  end.

Definition handleMasterCompressorChange (change : CompressorChange) : M App unit :=
  mutate_layout (with_masterSettings (fun m =>
    mkMasterSettings (master_volume m) (set_compressor change (compressor m))
      (limiter_threshold m)));;
  a ← get; on_engine (updateMasterSettings (masterSettings (layout a))).

(** [arrangement[barIndex] = entry] for a bar the timeline shows; it
    renders one cell per entry of the arrangement, so [barIndex] is an
    index the array has. *)
Definition clearArrangementBar (w : World) (barIndex : nat) : M App unit :=
  mutate_layout (with_arrangement (<[barIndex := None]>));;
  engine_updateAll w.

Definition assignPatternToBar (w : World) (barIndex : nat) (patternIndex : Z)
    : M App unit :=
  mutate_layout (with_arrangement (<[barIndex := Some patternIndex]>));;
  engine_updateAll w.

(** [handleBarDrop]: [dropped] is [parseInt] of the dragged text, [None]
    for [NaN]. *)
Definition handleBarDrop (w : World) (barIndex : nat) (dropped : option Z)
    : M App unit :=
  match dropped with
  | Some patternIndex => assignPatternToBar w barIndex patternIndex
  | None => mret tt
  end.

Inductive EffectName : Type := FxDistortion | FxDelay | FxReverb.

Definition effect_of (s : EffectsState) (fx : EffectName) : EffectState :=
  match fx with
  | FxDistortion => distortion s | FxDelay => delay s | FxReverb => reverb s
  end.

Definition on_effect (fx : EffectName) (f : EffectState -> EffectState)
    (s : EffectsState) : EffectsState :=
  match fx with
  | FxDistortion => mkEffectsState (f (distortion s)) (delay s) (reverb s)
  | FxDelay => mkEffectsState (distortion s) (f (delay s)) (reverb s)
  | FxReverb => mkEffectsState (distortion s) (delay s) (f (reverb s))
  end.

Definition handleEffectWetChange (effect : EffectName) (value : num) : M App unit :=
  mutate_active (with_effectsState
                   (on_effect effect (fun s => mkEffectState value (settings s))));;
  a ← get; on_engine (updateBassEffects (effectsState (activePattern a))).

(** What the user can do to the component, one event per handler. *)
Inductive Event : Type :=
  | SelectPattern (i : Z)
  | BpmChange (value : num)
  | SequenceChange (detail : SequencerState)
  | MixerChanged (track : Track) (change : MixerChange)
  | MasterChanged (change : MasterChange)
  | CompressorChanged (change : CompressorChange)
  | ClearBar (barIndex : nat)
  | AssignBar (barIndex : nat)
  | BarDrop (barIndex : nat) (dropped : option Z)
  | EffectWetChange (effect : EffectName) (value : num)
  | SampleSelected (track : Drum) (url : string)
  | GenerateChords (ai : string -> list Step -> AiReply).

Definition handle (w : World) (ev : Event) : M App unit :=
  match ev with
  | SelectPattern i => modify (with_activePatternIndex i)
  | BpmChange value => handleBpmChange value
  | SequenceChange detail => handleSequenceChange w detail
  | MixerChanged track change => handleMixerChange w track change
  | MasterChanged change => handleMasterChange change
  | CompressorChanged change => handleMasterCompressorChange change
  | ClearBar barIndex => clearArrangementBar w barIndex
  | AssignBar barIndex =>
      a ← get; assignPatternToBar w barIndex (activePatternIndex a)
  | BarDrop barIndex dropped => handleBarDrop w barIndex dropped
  | EffectWetChange effect value => handleEffectWetChange effect value
  | SampleSelected track url => handleSampleSelected w track url
  | GenerateChords ai => handleGenerateChords w ai
  end.

(** The engine holds the component's layout and runs at its settings. *)
Definition in_step (a : App) : Prop :=
  currentLayout (engine a) = Some (layout a)
  /\ transport_bpm (transport (engine a)) = bpm (layout a)
  /\ bus_volume (master (graph (engine a))) = master_volume (masterSettings (layout a))
  /\ bus_limiter (master (graph (engine a)))
     = limiter_threshold (masterSettings (layout a)).

(** The engine once [updateAll] has taken over layout, tempo and master
    bus, before it looks at the samples. *)
Definition taken_over (layout : DawLayout) (e : Engine) : Engine :=
  let s := masterSettings layout in
  with_graph (with_master (fun m =>
    mkMaster (master_volume s)
      (Tone_set (bus_compressor m)
         [("threshold", VNum (threshold (compressor s)));
          ("ratio", VNum (ratio (compressor s)));
          ("attack", VNum (comp_attack (compressor s)));
          ("release", VNum (comp_release (compressor s)))])
      (limiter_threshold s)))
    (with_transport (set_transport_bpm (bpm layout))
       (with_currentLayout (Some layout) e)).

(** ** The MIDI dispatcher ([class MidiDispatcher]) *)

(** The custom events [onMIDIMessage] dispatches; a field the message is
    too short for is [undefined], here [None]. *)
Inductive MidiEvent : Type :=
  | MidiNoteOn (note velocity : Z)
  | MidiNoteOff (note velocity : option Z)
  | MidiControlChange (controller value : option Z).

(** [onMIDIMessage]; [data] is the [Uint8Array] of the message. *)
Definition onMIDIMessage (data : list Z) : list MidiEvent :=
  let note := data !! 1%nat in
  let velocity := data !! 2%nat in
  match data !! 0%nat with
  | None => []
  | Some command =>
      let status := Z.land command 0xF0 in
      if status =? 0x90 then
        match note, velocity with
        | Some n, Some v =>
            if 0 <? v then [MidiNoteOn n v] else [MidiNoteOff note velocity]
        | _, _ => [MidiNoteOff note velocity]
        end
      else if status =? 0x80 then [MidiNoteOff note velocity]
      else if status =? 0xB0 then [MidiControlChange note velocity]
      else []
  end.

(** ** The prompts of a pattern ([Prompt], and their handlers) *)

Record Prompt : Type := mkPrompt {
  promptId : string;
  text : string;
  weight : num;
  color : string;
  isFiltered : bool;
  cc : option Z
}.

Definition with_weight (v : num) (p : Prompt) : Prompt :=
  mkPrompt (promptId p) (text p) v (color p) (isFiltered p) (cc p).
Definition with_cc (k : option Z) (p : Prompt) : Prompt :=
  mkPrompt (promptId p) (text p) (weight p) (color p) (isFiltered p) k.

Definition palette : list string :=
  ["#9900ff"; "#5200ff"; "#ff25f6"; "#2af6de"; "#ffdd28"; "#3dffab"; "#d8ff3e"; "#d9b2ff"].

(** [usedColors.filter(uc => uc === c).length] *)
Definition color_count (usedColors : list string) (c : string) : nat :=
  List.length (List.filter (fun uc => bool_decide (uc = c)) usedColors).

(** [colorCounts.sort((a, b) => a.count - b.count)]: the sort is stable,
    so entries of equal count keep their order. *)
Fixpoint insert_by_count (x : string * nat) (l : list (string * nat))
    : list (string * nat) :=
  match l with
  | [] => [x]
  | y :: l' => if (x.2 <=? y.2)%nat then x :: y :: l' else y :: insert_by_count x l'
  end.

Definition sort_by_count (l : list (string * nat)) : list (string * nat) :=
  foldr insert_by_count [] l.

(** [getNewPromptColor], on [this.activePattern.prompts]. *)
Definition getNewPromptColor (prompts : list (option Prompt)) : string :=
  let usedColors := omap (fmap color) prompts in
  let colorCounts := map (fun c => (c, color_count usedColors c)) palette in
  match sort_by_count colorCounts with
  | first :: _ => first.1
  | [] => ""
  end.

(** The loop of [handleRandomizePrompts] from slot [length before] on:
    [before] holds the slots already visited, [after] those to come, and
    [texts] the generated texts not used yet. [newId i] is the id minted
    for slot [i]. Returns the array and the number of prompts added. *)
Fixpoint randomize_from (newId : nat -> string) (before after : list (option Prompt))
    (texts : list string) : list (option Prompt) * nat :=
  match after, texts with
  | [], _ => (before, 0%nat)
  | _, [] => (before ++ after, 0%nat)
  | None :: rest, t :: texts' =>
      let newPrompt :=
        mkPrompt (newId (List.length before)) t (lit 0)
          (getNewPromptColor (before ++ after)) false None in
      let '(prompts, added) :=
        randomize_from newId (before ++ [Some newPrompt]) rest texts' in
      (prompts, S added)
  | Some p :: rest, _ => randomize_from newId (before ++ [Some p]) rest texts
  end.

(** [prompts.find(p => p?.promptId === promptId)], as a position. *)
Fixpoint find_prompt (test : Prompt -> bool) (prompts : list (option Prompt))
    : option nat :=
  match prompts with
  | [] => None
  | Some p :: rest =>
      if test p then Some 0%nat else S <$> find_prompt test rest
  | None :: rest => S <$> find_prompt test rest
  end.

Definition has_id (promptId' : string) (p : Prompt) : bool :=
  bool_decide (promptId p = promptId').
Definition has_cc (controller : Z) (p : Prompt) : bool :=
  bool_decide (cc p = Some controller).

(** [handlePromptWeightChange], as far as the prompts go; the flag says
    whether a new timbre was asked for. *)
Definition handlePromptWeightChange (promptId' : string) (newWeight : num)
    (prompts : list (option Prompt)) : list (option Prompt) * bool :=
  match find_prompt (has_id promptId') prompts with
  | Some i => (alter (fmap (with_weight newWeight)) i prompts, true)
  | None => (prompts, false)
  end.

(** What a control change does to the prompts and to the learning state. *)
Record MidiState : Type := mkMidiState {
  isMidiLearning : option string;
  prompts : list (option Prompt);
  timbreRequested : bool
}.

(** [handleMidiControlChange] for a message that carries a controller and
    a value; [value / 127] is the double nearest to that rational. *)
Definition handleMidiControlChange (controller value : Z) (s : MidiState) : MidiState :=
  match isMidiLearning s with
  | Some learning =>
      let prompts' :=
        match find_prompt (has_id learning) (prompts s) with
        | Some i => alter (fmap (with_cc (Some controller))) i (prompts s)
        | None => prompts s
        end in
      mkMidiState None prompts' (timbreRequested s)
  | None =>
      match find_prompt (has_cc controller) (prompts s) with
      | Some i =>
          match prompts s !! i with
          | Some (Some targetPrompt) =>
              let newWeight := num_of_Q (value # 127) in
              let '(prompts', asked) :=
                handlePromptWeightChange (promptId targetPrompt) newWeight (prompts s) in
              mkMidiState None prompts' (timbreRequested s || asked)
          | _ => s
          end
      | None => s
      end
  end.

(** [toggleMidiLearn] *)
Definition toggleMidiLearn (promptId' : string) (s : MidiState) : MidiState :=
  if decide (isMidiLearning s = Some promptId')
  then mkMidiState None (prompts s) (timbreRequested s)
  else mkMidiState (Some promptId') (prompts s) (timbreRequested s).

(** ** The rest of the component: transport button, export, AI effects *)

(** The component with the state the handlers above do not read; [core]
    is the part they do, [downloads] what was offered for download. *)
Record Component : Type := mkComponent {
  core : App;
  isPlaying : bool;
  activeStep : Z;
  activeBar : Z;
  isRendering : bool;
  fxPromptText : string;
  downloads : list Render
}.

Definition with_core (f : App -> App) (c : Component) : Component :=
  mkComponent (f (core c)) (isPlaying c) (activeStep c) (activeBar c)
    (isRendering c) (fxPromptText c) (downloads c).
Definition with_isPlaying (b : bool) (c : Component) : Component :=
  mkComponent (core c) b (activeStep c) (activeBar c)
    (isRendering c) (fxPromptText c) (downloads c).
Definition with_activeStep (v : Z) (c : Component) : Component :=
  mkComponent (core c) (isPlaying c) v (activeBar c)
    (isRendering c) (fxPromptText c) (downloads c).
Definition with_activeBar (v : Z) (c : Component) : Component :=
  mkComponent (core c) (isPlaying c) (activeStep c) v
    (isRendering c) (fxPromptText c) (downloads c).
Definition with_isRendering (b : bool) (c : Component) : Component :=
  mkComponent (core c) (isPlaying c) (activeStep c) (activeBar c)
    b (fxPromptText c) (downloads c).
Definition with_downloads (f : list Render -> list Render) (c : Component)
    : Component :=
  mkComponent (core c) (isPlaying c) (activeStep c) (activeBar c)
    (isRendering c) (fxPromptText c) (f (downloads c)).

(** A handler of the part [core]. *)
Definition on_core {A} (m : M App A) : M Component A :=
  fun c => let '(r, a) := m (core c) in (r, with_core (fun _ => a) c).

(** The listener [connectedCallback] installs as [onStepChange]. *)
Definition onStepChange (c : Command) (s : Component) : Component :=
  match c with
  | StepChange step bar => with_activeBar bar (with_activeStep step s)
  | _ => s
  end.

(** A call into the engine from the component; the step changes the
    engine reports during the call reach the listener. *)
Definition engine_call {A} (m : M Engine A) : M Component A :=
  fun s =>
    let before := List.length (trace (engine (core s))) in
    let '(r, s') := on_core (on_engine m) s in
    (r, fold_left (fun s c => onStepChange c s)
          (drop before (trace (engine (core s')))) s').

Definition togglePlay (w : World) : M Component unit :=
  playing ← gets isPlaying;
  if (playing : bool)
  then
    engine_call stop;;
    modify (with_isPlaying false);;
    modify (with_activeStep (-1));;
    modify (with_activeBar (-1))
  else
    engine_call (start w);;
    modify (with_isPlaying true).

(** [handleExport]. The bar duration of the render is read against the
    live transport. *)
Definition handleExport (w : World) : M Component unit :=
  modify (with_isRendering true);;
  on_core (showNotification "Rendering song...");;
  try_catch
    (s ← get;
     match renderSong w (transport_bpm (transport (engine (core s)))) (layout (core s)) with
     | Ok wav =>
         modify (with_downloads (fun d => d ++ [wav]));;
         on_core (showNotification "Export complete!")
     | Throw e => throw e
     end)
    (fun e =>
       on_core (modify (with_app_console (fun t => t ++ ["Export failed " +:+ e])));;
       on_core (showNotification "Export failed. See console for details."));;
  modify (with_isRendering false).

(** The reply of the generative model to an effects request, as
    [generateEffectsFromPrompt] and its caller meet it: the call or the
    parse throws, the reply has no text, it parses to a falsy value, or it
    parses to an object whose groups are settings objects or missing. *)
Inductive AiEffects : Type :=
  | FxThrows
  | FxNoText
  | FxFalsy
  | FxObject (distortion delay reverb : option Bag).

(** The three groups of a reply the handler goes on with. *)
Definition generateEffectsFromPrompt (reply : AiEffects)
    : option (option Bag * option Bag * option Bag) :=
  match reply with
  | FxObject d dl r => Some (d, dl, r)
  | _ => None
  end.

(** [state.settings = group || state.settings] *)
Definition settings_or_kept (group : option Bag) (s : EffectState) : EffectState :=
  mkEffectState (wet s) (default (settings s) group).

Definition handleApplyAiEffects (ai : string -> AiEffects) : M Component unit :=
  prompt ← gets fxPromptText;
  if blank (prompt : string)
  then on_core (showNotification "Please enter an effects prompt.")
  else
    on_core (modify (with_isAiThinking true));;
    try_catch
      (match generateEffectsFromPrompt (ai prompt) with
       | Some (d, dl, r) =>
           on_core (mutate_active (with_effectsState (on_effect FxDistortion (settings_or_kept d))));;
           on_core (mutate_active (with_effectsState (on_effect FxDelay (settings_or_kept dl))));;
           on_core (mutate_active (with_effectsState (on_effect FxReverb (settings_or_kept r))));;
           on_core (a ← get; on_engine (updateBassEffects (effectsState (activePattern a))));;
           on_core (showNotification "AI effects applied!")
       | None => on_core (showNotification "AI failed to generate effects.")
       end)
      (fun e =>
         on_core (modify (with_app_console (fun t =>
           t ++ ["Failed to apply AI effects " +:+ e])));;
         on_core (showNotification "Error applying AI effects."));;
    on_core (modify (with_isAiThinking false)).

(** ** Vocabulary for the prompts *)

Definition is_null {A} (x : option A) : bool :=
  match x with None => true | Some _ => false end.

(** [prompts.filter(p => p === null).length] *)
Definition emptySlots (prompts : list (option Prompt)) : nat :=
  List.length (List.filter is_null prompts).

(** The texts of the prompts that fill, in [new], a slot empty in [old]. *)
Fixpoint fresh_texts (old new : list (option Prompt)) : list string :=
  match old, new with
  | None :: old', Some p :: new' => text p :: fresh_texts old' new'
  | _ :: old', _ :: new' => fresh_texts old' new'
  | _, _ => []
  end.

(** The component once [message] has been notified. *)
Definition notice (message : string) (a : App) : App :=
  if has_toast a then with_toasts (fun t => t ++ [message]) a
  else with_app_console (fun t => t ++ ["Notification: " +:+ message]) a.

(** ** More small inputs for the examples *)

(** A browser that keeps the audio context suspended. *)
Definition silent_world : World := mkWorld false (fun _ => true).

Definition demo_component : Component :=
  mkComponent demo_app false (-1) (-1) false "Spacious ambient cave" [].

(** Four prompt slots, two of them taken. *)
Definition demo_prompts : list (option Prompt) :=
  [Some (mkPrompt "prompt-0" "Deep Sub Bass" (lit 1) "#9900ff" false None);
   None;
   Some (mkPrompt "prompt-2" "Acid Squawk" (lit 0) "#ff25f6" false None);
   None].

(** The third slot is learning. *)
Definition demo_midi : MidiState := mkMidiState (Some "prompt-2") demo_prompts false.

(** A reply with a distortion group only. *)
Definition distortion_reply (_ : string) : AiEffects :=
  FxObject (Some [("distortion", VNum (lit 0.9))]) None None.

(** What a user might do in a row. *)
Definition demo_events : list Event :=
  [BpmChange (lit 90);
   MixerChanged Bass (SetMute false);
   ClearBar 0;
   SampleSelected DKick "missing.wav";
   EffectWetChange FxReverb (lit 0.5);
   BarDrop 1 (Some 7);
   MasterChanged (MasterVolume (lit (-6)))].

(** The pattern of the last bar of [bars] that is not empty. *)
Definition last_pattern (layout : DawLayout) (bars : list nat) : option Pattern :=
  last (omap (fun b => pattern_at layout (arrangement layout !! b)) bars).

(** The component while its engine plays the first bar. *)
Definition playing_app : App := new_app demo_layout (tick (lit 0) (lit 0) demo_engine).2.

(** A component whose engine was never handed the layout. *)
Definition detached_component : Component :=
  mkComponent (new_app demo_layout new_engine) false (-1) (-1) false "" [].

(** The ids the randomiser mints in the examples. *)
Definition demo_id (i : nat) : string := "prompt-new".

(** Prompts that hold white space only: a no-break space (U+00A0), and an
    ideographic space (U+3000) followed by a byte order mark (U+FEFF),
    each as its UTF-8 bytes. *)
Definition utf8 (bytes : list N) : string :=
  fold_right (fun b s => String (Ascii.ascii_of_N b) s) EmptyString bytes.

Definition nbsp_prompt : string := utf8 [194; 160]%N.
Definition wide_blank_prompt : string := utf8 [227; 128; 128; 239; 187; 191]%N.

Definition with_chordPromptText (t : string) (a : App) : App :=
  mkApp (layout a) (activePatternIndex a) t (isAiThinking a)
    (isLibraryOpen a) (has_toast a) (toasts a) (app_console a) (engine a).
Definition with_fxPromptText (t : string) (c : Component) : Component :=
  mkComponent (core c) (isPlaying c) (activeStep c) (activeBar c)
    (isRendering c) t (downloads c).


(** * Facts *)

(** ** The monad and the trace *)

Ltac msimpl :=
  repeat (progress (unfold mbind, M_bind, mret, M_ret, modify, gets, get, throw,
                    when_, emit, o_emit, console_log; lazy beta iota zeta)).

Ltac unfold_state :=
  unfold log, o_log, with_trace, with_graph, with_currentPatternIndex,
    with_isInitialized, with_currentLayout, with_transport, with_pending,
    with_console, with_o_trace, with_o_graph, with_o_bpm, with_o_pending,
    with_o_started, on_channel, with_channels, with_bassEffects,
    with_instruments, with_master.

Lemma for_logs {S A} (record : list Command -> S -> S) (P : S -> Prop)
    (xs : list A) (body : A -> M S unit) (f : A -> list Command) :
  (forall s, record [] s = s) ->
  (forall a b s, record b (record a s) = record (a ++ b) s) ->
  (forall c s, P s -> P (record c s)) ->
  (forall x s, P s -> body x s = (Ok tt, record (f x) s)) ->
  forall s, P s -> for_ xs body s = (Ok tt, record (flat_map f xs) s).
Proof.
  intros Hnil Happ Hkeep Hbody.
  induction xs as [|x xs IH]; intros s Hs; cbn [for_ flat_map].
  - msimpl. now rewrite Hnil.
  - msimpl. rewrite (Hbody x s Hs). lazy beta iota.
    rewrite (IH _ (Hkeep _ _ Hs)). now rewrite Happ.
Qed.

Lemma for_ok {S A} (xs : list A) (body : A -> M S unit) :
  (forall x s, (body x s).1 = Ok tt) -> forall s, (for_ xs body s).1 = Ok tt.
Proof.
  intros Hbody. induction xs as [|x xs IH]; intros s; [reflexivity|].
  cbn [for_]. msimpl. specialize (Hbody x s).
  destruct (body x s) as [[[]|err] s']; cbn [fst] in *; [apply IH|discriminate].
Qed.

Lemma log_nil e : log [] e = e.
Proof. destruct e; unfold_state; cbn. now rewrite app_nil_r. Qed.

Lemma log_log a b e : log b (log a e) = log (a ++ b) e.
Proof. destruct e; unfold_state; cbn. now rewrite app_assoc. Qed.

Lemma o_log_nil o : o_log [] o = o.
Proof. destruct o; unfold_state; cbn. now rewrite app_nil_r. Qed.

Lemma o_log_log a b o : o_log b (o_log a o) = o_log (a ++ b) o.
Proof. destruct o; unfold_state; cbn. now rewrite app_assoc. Qed.

Lemma with_graph_log f cs e : with_graph f (log cs e) = log cs (with_graph f e).
Proof. now destruct e. Qed.

Lemma with_o_graph_log f cs o : with_o_graph f (o_log cs o) = o_log cs (with_o_graph f o).
Proof. now destruct o. Qed.

Lemma trace_log cs e : trace (log cs e) = trace e ++ cs.
Proof. now destruct e. Qed.

Lemma index_log cs e : currentPatternIndex (log cs e) = currentPatternIndex e.
Proof. now destruct e. Qed.

(** ** The live scheduler *)

Ltac split_step sq i :=
  destruct (truthy (step_at (seq_kick sq) i)),
           (truthy (step_at (seq_snare sq) i)),
           (truthy (step_at (seq_hihat sq) i)),
           (truthy (step_at (seq_bass sq) i)),
           (truthy (step_at (seq_chords sq) i)).

Lemma schedulePattern_logs pattern time barIndex e :
  schedulePattern (Some pattern) time barIndex e
  = (Ok tt, log (live_bar pattern time
                   (toSeconds (transport_bpm (transport e)) N16n) barIndex) e).
Proof.
  unfold schedulePattern, live_bar.
  apply (for_logs log (fun s => transport_bpm (transport s) = transport_bpm (transport e))).
  - apply log_nil.
  - apply log_log.
  - intros c s Hs. destruct s; exact Hs.
  - intros i s Hs. msimpl. rewrite Hs. unfold step_triggers, step_time.
    split_step (sequencerState pattern) i; lazy beta iota;
      rewrite ?log_log; reflexivity.
  - reflexivity.
Qed.

Lemma updateMixerSettings_spec settings e :
  updateMixerSettings settings e
  = (Ok tt, log [ApplyTrackSettings settings]
              (with_graph (with_channels (fun _ => mixed_channels settings)) e)).
Proof.
  destruct e as [[c fx ins ms] ? ? ? ? ? ? ?].
  destruct settings as [[? ? ? sk] [? ? ? ss] [? ? ? sh] [? ? ? sb] [? ? ? sc]].
  unfold updateMixerSettings, mixed_channels, mixed, any_solo.
  destruct sk, ss, sh, sb, sc; reflexivity.
Qed.

Lemma updateBassEffects_spec fx e :
  updateBassEffects fx e
  = (Ok tt, log [ApplyBassEffects fx]
              (with_graph (with_bassEffects (effects_applied fx)) e)).
Proof.
  destruct e as [[c b ins ms] ? ? ? ? ? ? ?]. destruct b as [[] [] []].
  reflexivity.
Qed.

Lemma setBassSynth_spec s e :
  setBassSynth s e
  = (Ok tt, log [ApplyBassSynth s]
              (with_graph (with_instruments (bass_apply s)) e)).
Proof. destruct e as [[c b ins ms] ? ? ? ? ? ? ?]. reflexivity. Qed.

Lemma loadPattern_spec pattern e :
  loadPattern (Some pattern) e
  = (Ok tt, log (resync pattern) (with_graph (pattern_applied pattern) e)).
Proof.
  unfold loadPattern. msimpl.
  rewrite updateMixerSettings_spec. lazy beta iota.
  rewrite updateBassEffects_spec. lazy beta iota.
  unfold resync, pattern_applied.
  destruct (synthState pattern) as [s|].
  - rewrite setBassSynth_spec.
    rewrite !with_graph_log, !log_log.
    destruct e as [[c b ins ms] ? ? ? ? ? ? ?]. reflexivity.
  - msimpl. rewrite !with_graph_log, !log_log.
    destruct e as [[c b ins ms] ? ? ? ? ? ? ?]. reflexivity.
Qed.

Lemma tick_no_layout time progress e :
  currentLayout e = None -> tick time progress e = (Ok tt, e).
Proof. intros H. unfold tick. msimpl. now rewrite H. Qed.

Lemma tick_empty time progress e layout :
  currentLayout e = Some layout ->
  resolved layout progress = Some None ->
  tick time progress e = (Ok tt, log [TriggerRelease Bass time] e).
Proof.
  intros Hl Hr. unfold tick. msimpl. rewrite Hl.
  unfold resolved, bar_of in Hr. now rewrite Hr.
Qed.

Lemma tick_pattern time progress e layout p pattern :
  currentLayout e = Some layout ->
  resolved layout progress = Some (Some p) ->
  index (patterns layout) p = Some pattern ->
  tick time progress e
  = (Ok tt,
     log (live_bar pattern time (toSeconds (transport_bpm (transport e)) N16n)
            (bar_of layout progress))
       (if decide (currentPatternIndex e = Some p) then e
        else with_currentPatternIndex (Some p)
               (log (resync pattern) (with_graph (pattern_applied pattern) e)))).
Proof.
  intros Hl Hr Hp. unfold tick. msimpl. rewrite Hl.
  unfold resolved in Hr. fold (bar_of layout progress). rewrite Hr.
  assert (Hat : pattern_at layout (Some (Some p)) = Some pattern) by exact Hp.
  rewrite Hat.
  destruct (decide (currentPatternIndex e = Some p)) as [Heq|Hne].
  - rewrite bool_decide_eq_false_2 by (rewrite Heq; intros H; now apply H).
    apply schedulePattern_logs.
  - rewrite bool_decide_eq_true_2 by congruence.
    rewrite loadPattern_spec. msimpl.
    rewrite schedulePattern_logs. reflexivity.
Qed.

Lemma live_bar_no_settings pattern base sixteenth barIndex :
  List.filter is_settings (live_bar pattern base sixteenth barIndex) = [].
Proof.
  unfold live_bar. generalize (seq 0 16). intros l.
  induction l as [|i l IH]; cbn [flat_map]; [reflexivity|].
  rewrite List.filter_app, IH, app_nil_r. unfold step_triggers.
  destruct (truthy (step_at (seq_kick (sequencerState pattern)) i)),
           (truthy (step_at (seq_snare (sequencerState pattern)) i)),
           (truthy (step_at (seq_hihat (sequencerState pattern)) i)),
           (truthy (step_at (seq_bass (sequencerState pattern)) i)),
           (truthy (step_at (seq_chords (sequencerState pattern)) i));
    reflexivity.
Qed.

Lemma resync_all_settings pattern :
  List.filter is_settings (resync pattern) = resync pattern.
Proof. unfold resync. destruct (synthState pattern); reflexivity. Qed.

Lemma tick_keeps_layout time progress e layout :
  currentLayout e = Some layout ->
  playable layout (resolved layout progress) ->
  currentLayout (tick time progress e).2 = Some layout.
Proof.
  intros Hl Hp. unfold playable in Hp.
  destruct (resolved layout progress) as [[p|]|] eqn:Hr; [|..|easy].
  - destruct Hp as [pattern Hpat].
    rewrite (tick_pattern _ _ _ _ _ _ Hl Hr Hpat).
    destruct (decide (currentPatternIndex e = Some p)); destruct e; exact Hl.
  - rewrite (tick_empty _ _ _ _ Hl Hr). destruct e; exact Hl.
Qed.

(** One tick: the settings commands it issues, what it does to the graph,
    and the index it leaves. *)
Lemma tick_resync time progress e layout :
  currentLayout e = Some layout ->
  playable layout (resolved layout progress) ->
  let r := tick time progress e in
  r.1 = Ok tt
  /\ List.filter is_settings (trace r.2)
     = List.filter is_settings (trace e)
       ++ expected_resyncs layout (currentPatternIndex e) [resolved layout progress]
  /\ currentPatternIndex r.2
     = match resolved layout progress with
       | Some (Some p) => Some p
       | _ => currentPatternIndex e
       end
  /\ graph r.2
     = resynced_graph layout (currentPatternIndex e) [resolved layout progress] (graph e).
Proof.
  intros Hl Hp. unfold playable in Hp. cbn zeta.
  destruct (resolved layout progress) as [[p|]|] eqn:Hr; [|..|easy].
  - destruct Hp as [pattern Hpat].
    rewrite (tick_pattern _ _ _ _ _ _ Hl Hr Hpat).
    cbn [fst snd expected_resyncs resynced_graph].
    rewrite Hpat. cbn [from_option].
    destruct (decide (currentPatternIndex e = Some p)) as [Heq|Hne].
    + rewrite trace_log, index_log, List.filter_app, live_bar_no_settings, !app_nil_r.
      repeat split; auto; now destruct e.
    + rewrite trace_log, index_log. destruct e; unfold_state; cbn [trace currentPatternIndex graph].
      rewrite !List.filter_app, live_bar_no_settings, resync_all_settings, !app_nil_r.
      auto.
  - rewrite (tick_empty _ _ _ _ Hl Hr). cbn [fst snd expected_resyncs resynced_graph].
    rewrite trace_log, index_log, List.filter_app. cbn. rewrite !app_nil_r.
    repeat split; now destruct e.
Qed.

Lemma expected_resyncs_cons layout cur entry rest :
  expected_resyncs layout cur (entry :: rest)
  = expected_resyncs layout cur [entry]
    ++ expected_resyncs layout
         (match entry with Some (Some p) => Some p | _ => cur end) rest.
Proof.
  destruct entry as [[p|]|]; cbn [expected_resyncs]; rewrite ?app_nil_r; reflexivity.
Qed.

Lemma resynced_graph_cons layout cur entry rest g :
  resynced_graph layout cur (entry :: rest) g
  = resynced_graph layout
      (match entry with Some (Some p) => Some p | _ => cur end) rest
      (resynced_graph layout cur [entry] g).
Proof. destruct entry as [[p|]|]; reflexivity. Qed.

(** C4. On a held layout, a run of per-bar ticks re-syncs the settings
    (track settings, bass effects and, when the pattern stores one, synth
    state) exactly once for each tick whose resolved pattern index differs
    from the previously active one, with the values of the pattern switched
    to, and never for an empty bar or while the same index is sustained.
    This holds of the requests the engine makes and of the graph they
    leave: at a switch the channel strips carry the pattern's volume, pan
    and resolved mute, the bass effects its wet amounts and settings, and
    the bass synth its stored state; on a sustained index and on an empty
    bar the graph is what it was. *)
Theorem resync_once_per_switch layout ticks e :
  currentLayout e = Some layout ->
  Forall (fun tk => playable layout (resolved layout tk.2)) ticks ->
  (run_ticks ticks e).1 = Ok tt
  /\ List.filter is_settings (trace (run_ticks ticks e).2)
     = List.filter is_settings (trace e)
       ++ expected_resyncs layout (currentPatternIndex e)
            (map (fun tk => resolved layout tk.2) ticks)
  /\ graph (run_ticks ticks e).2
     = resynced_graph layout (currentPatternIndex e)
         (map (fun tk => resolved layout tk.2) ticks) (graph e)
  /\ (forall time progress p pattern e',
        currentLayout e' = Some layout ->
        resolved layout progress = Some (Some p) ->
        index (patterns layout) p = Some pattern ->
        currentPatternIndex (tick time progress e').2 = Some p
        /\ (currentPatternIndex e' <> Some p ->
            channels (graph (tick time progress e').2)
            = mixed_channels (trackSettings pattern)
            /\ bassEffects (graph (tick time progress e').2)
               = effects_applied (effectsState pattern) (bassEffects (graph e'))
            /\ (forall s, synthState pattern = Some s ->
                  bass_set (i_bass (instruments (graph (tick time progress e').2)))
                  = Some s))
        /\ (currentPatternIndex e' = Some p ->
            graph (tick time progress e').2 = graph e'))
  /\ (forall time progress e',
        currentLayout e' = Some layout ->
        resolved layout progress = Some None ->
        graph (tick time progress e').2 = graph e'
        /\ currentPatternIndex (tick time progress e').2 = currentPatternIndex e').
Proof.
  intros Hl Hall.
  assert (Hrun : (run_ticks ticks e).1 = Ok tt
                 /\ List.filter is_settings (trace (run_ticks ticks e).2)
                    = List.filter is_settings (trace e)
                      ++ expected_resyncs layout (currentPatternIndex e)
                           (map (fun tk => resolved layout tk.2) ticks)
                 /\ graph (run_ticks ticks e).2
                    = resynced_graph layout (currentPatternIndex e)
                        (map (fun tk => resolved layout tk.2) ticks) (graph e)).
  { revert e Hl.
    induction Hall as [|tk ticks Hp Hall IH]; intros e Hl.
    - cbn. now rewrite app_nil_r.
    - unfold run_ticks in *. cbn [for_ map]. msimpl.
      destruct (tick_resync tk.1 tk.2 e layout Hl Hp) as (Hok & Htr & Hcur & Hg).
      pose proof (tick_keeps_layout tk.1 tk.2 e layout Hl Hp) as Hl'.
      destruct (tick tk.1 tk.2 e) as [o e'] eqn:Ht. cbn [fst snd] in *. subst o.
      destruct (IH e' Hl') as (Hok' & Htr' & Hg').
      split; [exact Hok'|]. split.
      + rewrite Htr', Htr, Hcur, <- app_assoc.
        now rewrite (expected_resyncs_cons layout (currentPatternIndex e) _ (map _ ticks)).
      + rewrite Hg', Hg, Hcur.
        now rewrite (resynced_graph_cons layout (currentPatternIndex e) _ (map _ ticks)). }
  destruct Hrun as (Hok & Htr & Hg).
  split; [exact Hok|]. split; [exact Htr|]. split; [exact Hg|]. split.
  - intros time progress p pattern e' Hl' Hr Hp.
    rewrite (tick_pattern _ _ _ _ _ _ Hl' Hr Hp). cbn [snd].
    rewrite index_log.
    destruct (decide (currentPatternIndex e' = Some p)) as [Heq|Hne].
    + split; [exact Heq|]. split; [contradiction|]. intros _. now destruct e'.
    + split; [now destruct e'|]. split; [|contradiction]. intros _.
      destruct e' as [[c fx ins ms] ? ? ? ? ? ? ?]. unfold pattern_applied. cbn.
      split; [reflexivity|]. split; [reflexivity|].
      intros s Hs. rewrite Hs. reflexivity.
  - intros time progress e' Hl' Hr.
    rewrite (tick_empty _ _ _ _ Hl' Hr). cbn [snd]. now destruct e'.
Qed.

(** C5. A tick whose arrangement entry is empty releases the bass voice
    and does nothing else: the release is the only command added, no
    settings are applied, and the graph and the remembered pattern index
    stay as they were. *)
Theorem tick_on_empty_bar time progress e layout :
  currentLayout e = Some layout ->
  resolved layout progress = Some None ->
  tick time progress e = (Ok tt, log [TriggerRelease Bass time] e)
  /\ trace (tick time progress e).2 = trace e ++ [TriggerRelease Bass time]
  /\ currentPatternIndex (tick time progress e).2 = currentPatternIndex e
  /\ graph (tick time progress e).2 = graph e
  /\ transport (tick time progress e).2 = transport e.
Proof.
  intros Hl Hr. rewrite (tick_empty _ _ _ _ Hl Hr).
  destruct e; repeat split.
Qed.

(** ** Starting the transport *)

Lemma initialize_frame w e :
  transport (initialize w e).2 = transport e
  /\ trace (initialize w e).2 = trace e
  /\ currentLayout (initialize w e).2 = currentLayout e
  /\ currentPatternIndex (initialize w e).2 = currentPatternIndex e
  /\ graph (initialize w e).2 = graph e.
Proof.
  unfold initialize, Tone_start, Tone_loaded. msimpl.
  destruct e as [g ini l c t p tr co]; cbn.
  destruct ini, (audio_allowed w); cbn; auto.
  destruct (forallb (fetch_ok w) p); cbn; auto.
Qed.

Lemma initialize_ok w e :
  audio_allowed w = true ->
  forallb (fetch_ok w) (pending e) = true ->
  (initialize w e).1 = Ok tt /\ isInitialized (initialize w e).2 = true.
Proof.
  intros Ha Hf. unfold initialize, Tone_start, Tone_loaded. msimpl.
  destruct e as [g ini l c t p tr co]; cbn in *.
  destruct ini; cbn; auto. rewrite Ha. cbn. rewrite Hf. cbn. auto.
Qed.

Lemma fire_no_layout ticks e :
  currentLayout e = None -> for_ ticks mainLoop_fire e = (Ok tt, e).
Proof.
  intros Hl. induction ticks as [|tk ticks IH]; [reflexivity|].
  cbn [for_]. msimpl. unfold mainLoop_fire. msimpl.
  destruct (transport_started (transport e) && mainLoop_started (transport e)).
  - now rewrite (tick_no_layout _ _ _ Hl).
  - exact IH.
Qed.

(** C10. Started before any layout was handed over, [start] does what
    [initialize] does and nothing more: the transport, the main loop and
    the UI loop stay as they were, nothing is scheduled, and no tick the
    loop might deliver afterwards has any effect; a tick with no layout
    held leaves the engine untouched. *)
Theorem start_without_layout w e :
  currentLayout e = None ->
  start w e = initialize w e
  /\ transport (start w e).2 = transport e
  /\ trace (start w e).2 = trace e
  /\ currentLayout (start w e).2 = None
  /\ (audio_allowed w = true -> forallb (fetch_ok w) (pending e) = true ->
      (start w e).1 = Ok tt /\ isInitialized (start w e).2 = true)
  /\ (forall ticks, for_ ticks mainLoop_fire (start w e).2 = (Ok tt, (start w e).2))
  /\ (forall time progress, tick time progress e = (Ok tt, e)).
Proof.
  intros Hl.
  destruct (initialize_frame w e) as (Ht & Htr & Hcl & _ & _).
  assert (Hs : start w e = initialize w e).
  { unfold start. msimpl.
    destruct (initialize w e) as [[[]|err] e'] eqn:Hi; cbn [fst snd] in *; [|reflexivity].
    rewrite Hcl, Hl. reflexivity. }
  rewrite Hs, Ht, Htr, Hcl.
  repeat split; auto.
  - now apply initialize_ok.
  - now apply initialize_ok.
  - intros ticks. apply fire_no_layout. congruence.
  - intros. now apply tick_no_layout.
Qed.

(** ** Mute and solo *)

Lemma mixed_channels_resolved settings :
  mute_solo_resolved settings (mixed_channels settings).
Proof.
  unfold mute_solo_resolved, mixed_channels, mixed, any_solo. split.
  - intros [t Ht] t'.
    assert (H : existsb (fun k => solo (setting_of settings k)) all_tracks = true).
    { apply existsb_exists. exists t. split; [|exact Ht].
      destruct t; cbn; auto 10. }
    rewrite H. now destruct t'.
  - intros Hno t'.
    assert (H : existsb (fun k => solo (setting_of settings k)) all_tracks = false).
    { unfold all_tracks. cbn [existsb]. now rewrite !Hno. }
    rewrite H. now destruct t'.
Qed.


(** ** The offline renderer *)

Lemma soloed_nonempty (f : Track -> bool) (l : list Track) :
  (0 <? List.length (List.filter f l))%nat = existsb f l.
Proof.
  induction l as [|t l IH]; [reflexivity|].
  cbn [List.filter existsb]. destruct (f t); [reflexivity|exact IH].
Qed.

Lemma offline_apply_mixer_spec pattern o :
  offline_apply_mixer pattern o
  = (Ok tt, o_log [ApplyTrackSettings (trackSettings pattern)]
              (with_o_graph (with_channels (fun _ => mixed_channels (trackSettings pattern))) o)).
Proof.
  destruct o as [tempo [c fx ins ms] pend tr st].
  unfold offline_apply_mixer.
  destruct (trackSettings pattern)
    as [[? ? ? sk] [? ? ? ss] [? ? ? sh] [? ? ? sb] [? ? ? sc]].
  unfold mixed_channels, mixed, any_solo.
  destruct sk, ss, sh, sb, sc; reflexivity.
Qed.

Lemma offline_apply_effects_spec pattern o :
  offline_apply_effects pattern o
  = (Ok tt, o_log [ApplyBassEffects (effectsState pattern)]
              (with_o_graph (with_bassEffects (effects_applied (effectsState pattern))) o)).
Proof.
  destruct o as [tempo [c fx ins ms] pend tr st]. destruct fx as [[] [] []].
  reflexivity.
Qed.

Lemma offline_schedule_notes_spec pattern time o :
  offline_schedule_notes pattern time o
  = (Ok tt, o_log (bar_triggers pattern time (toSeconds (o_bpm o) N16n)) o).
Proof.
  unfold offline_schedule_notes, bar_triggers.
  apply (for_logs o_log (fun s => o_bpm s = o_bpm o)).
  - apply o_log_nil.
  - apply o_log_log.
  - intros c s Hs. destruct s; exact Hs.
  - intros i s Hs. msimpl. rewrite Hs. unfold step_triggers, step_time.
    split_step (sequencerState pattern) i; lazy beta iota;
      rewrite ?o_log_log, ?o_log_nil; reflexivity.
  - reflexivity.
Qed.

Lemma offline_bar_pattern layout barDuration barIndex p pattern o :
  arrangement layout !! barIndex = Some (Some p) ->
  index (patterns layout) p = Some pattern ->
  offline_bar layout barDuration barIndex o
  = (Ok tt,
     o_log (resync pattern
            ++ bar_triggers pattern (num_mul (num_of_nat barIndex) barDuration)
                 (toSeconds (o_bpm o) N16n))
       (with_o_graph (pattern_applied pattern) o)).
Proof.
  intros He Hp. unfold offline_bar. rewrite He.
  assert (Hat : pattern_at layout (Some (Some p)) = Some pattern) by exact Hp.
  rewrite Hat. msimpl.
  rewrite offline_apply_mixer_spec. lazy beta iota.
  rewrite offline_apply_effects_spec. lazy beta iota.
  unfold offline_apply_synth, resync, pattern_applied.
  destruct (synthState pattern) as [s|]; msimpl;
    rewrite offline_schedule_notes_spec;
    rewrite !with_o_graph_log, !o_log_log;
    destruct o as [tempo [c fx ins ms] pend tr st]; reflexivity.
Qed.

Lemma offline_bar_empty layout barDuration barIndex o :
  arrangement layout !! barIndex = Some None ->
  offline_bar layout barDuration barIndex o = (Ok tt, o).
Proof. intros He. unfold offline_bar. now rewrite He. Qed.

(** The graph one bar leaves behind. *)
Lemma offline_bar_plan layout barDuration barIndex o :
  well_formed layout ->
  (barIndex < List.length (arrangement layout))%nat ->
  (offline_bar layout barDuration barIndex o).1 = Ok tt
  /\ o_bpm (offline_bar layout barDuration barIndex o).2 = o_bpm o
  /\ o_trace (offline_bar layout barDuration barIndex o).2
     = o_trace o ++ bar_plan layout (o_bpm o) barDuration barIndex.
Proof.
  intros Hwf Hlt. unfold bar_plan.
  destruct (lookup_lt_is_Some_2 _ _ Hlt) as [entry He].
  pose proof (proj1 (Forall_lookup _ _) Hwf _ _ He) as Hplay. cbn in Hplay.
  rewrite He. destruct entry as [p|].
  - destruct Hplay as [pattern Hp]. rewrite Hp.
    rewrite (offline_bar_pattern _ _ _ _ _ _ He Hp).
    destruct o; repeat split.
  - rewrite (offline_bar_empty _ _ _ _ He). cbn. now rewrite app_nil_r.
Qed.

Lemma offline_bars layout barDuration bars o :
  well_formed layout ->
  Forall (fun b => (b < List.length (arrangement layout))%nat) bars ->
  (for_ bars (offline_bar layout barDuration) o).1 = Ok tt
  /\ o_bpm (for_ bars (offline_bar layout barDuration) o).2 = o_bpm o
  /\ o_trace (for_ bars (offline_bar layout barDuration) o).2
     = o_trace o ++ flat_map (bar_plan layout (o_bpm o) barDuration) bars.
Proof.
  intros Hwf Hall. revert o.
  induction Hall as [|b bars Hb Hall IH]; intros o.
  - cbn. now rewrite app_nil_r.
  - cbn [for_ flat_map]. msimpl.
    destruct (offline_bar_plan layout barDuration b o Hwf Hb) as (Hok & Hbpm & Htr).
    destruct (offline_bar layout barDuration b o) as [r o'] eqn:Hbar.
    cbn [fst snd] in *. subst r.
    destruct (IH o') as (Hok' & Hbpm' & Htr').
    rewrite Hok', Hbpm', Htr', Htr, Hbpm, <- app_assoc. auto.
Qed.

Lemma step_triggers_time sq i t c :
  In c (step_triggers sq i t) -> command_time c = Some t.
Proof.
  unfold step_triggers.
  destruct (truthy (step_at (seq_kick sq) i)),
           (truthy (step_at (seq_snare sq) i)),
           (truthy (step_at (seq_hihat sq) i)),
           (truthy (step_at (seq_bass sq) i)),
           (truthy (step_at (seq_chords sq) i));
    cbn; intros H; repeat (destruct H as [<-|H]; [reflexivity|]); destruct H.
Qed.

Lemma step_triggers_all sq i t :
  List.filter is_trigger (step_triggers sq i t) = step_triggers sq i t.
Proof.
  unfold step_triggers.
  destruct (truthy (step_at (seq_kick sq) i)),
           (truthy (step_at (seq_snare sq) i)),
           (truthy (step_at (seq_hihat sq) i)),
           (truthy (step_at (seq_bass sq) i)),
           (truthy (step_at (seq_chords sq) i)); reflexivity.
Qed.

Lemma bar_triggers_all pattern base sixteenth :
  List.filter is_trigger (bar_triggers pattern base sixteenth)
  = bar_triggers pattern base sixteenth.
Proof.
  unfold bar_triggers. generalize (seq 0 16). intros l.
  induction l as [|i l IH]; [reflexivity|].
  cbn [flat_map]. now rewrite List.filter_app, IH, step_triggers_all.
Qed.

Lemma resync_no_trigger pattern : List.filter is_trigger (resync pattern) = [].
Proof. unfold resync. destruct (synthState pattern); reflexivity. Qed.

(** C7. For a layout whose entries all name patterns and whose samples
    load, [renderSong] returns; its render lasts the bar duration times the
    number of bars; what it schedules is, bar after bar, the plan of each
    bar; an empty bar contributes nothing; and the triggers of a non-empty
    bar are those of its sixteen steps, step [i] placed exactly
    [i * sixteenth] after the bar's base time [barIndex * barDuration]. *)
Theorem renderSong_schedule w ambient layout :
  well_formed layout ->
  forallb (fetch_ok w) (o_pending (offline_context layout)) = true ->
  let barDuration := toSeconds ambient N1m in
  let sixteenth := toSeconds (bpm layout) N16n in
  let bars := List.length (arrangement layout) in
  exists r,
    renderSong w ambient layout = Ok r
    /\ totalDuration r = num_mul barDuration (num_of_nat bars)
    /\ o_trace (offline r)
       = flat_map (bar_plan layout (bpm layout) barDuration) (seq 0 bars)
    /\ (forall b, arrangement layout !! b = Some None ->
          bar_plan layout (bpm layout) barDuration b = [])
    /\ (forall b p pattern,
          arrangement layout !! b = Some (Some p) ->
          index (patterns layout) p = Some pattern ->
          List.filter is_trigger (bar_plan layout (bpm layout) barDuration b)
          = flat_map (fun i =>
                        step_triggers (sequencerState pattern) i
                          (num_add (num_mul (num_of_nat b) barDuration)
                                   (num_mul (num_of_nat i) sixteenth)))
                     (seq 0 16))
    /\ (forall sq i t c, In c (step_triggers sq i t) -> command_time c = Some t).
Proof.
  intros Hwf Hload barDuration sixteenth bars.
  assert (Hbars : Forall (fun b => (b < bars)%nat) (seq 0 bars)).
  { apply List.Forall_forall. intros b Hb. apply in_seq in Hb. lia. }
  unfold renderSong, offline_callback, Tone_loaded. msimpl.
  fold barDuration bars.
  set (o1 := with_o_pending (fun _ => []) (with_o_bpm (bpm layout) (offline_context layout))).
  assert (Hpend : o_pending (with_o_bpm (bpm layout) (offline_context layout))
                  = o_pending (offline_context layout)) by reflexivity.
  rewrite Hpend, Hload.
  destruct (offline_bars layout barDuration (seq 0 bars) o1 Hwf Hbars)
    as (Hok & Hbpm & Htr).
  destruct (for_ (seq 0 bars) (offline_bar layout barDuration) o1) as [res o2] eqn:Hrun.
  cbn [fst snd] in *. subst res.
  eexists. split; [reflexivity|]. cbn [totalDuration offline].
  split; [reflexivity|]. split.
  { destruct o2; unfold_state; cbn in *. exact Htr. }
  split.
  { intros b He. unfold bar_plan. now rewrite He. }
  split.
  { intros b p pattern He Hp. unfold bar_plan. rewrite He, Hp.
    now rewrite List.filter_app, resync_no_trigger, bar_triggers_all. }
  apply step_triggers_time.
Qed.

(** C3. Applying track settings resolves mute and solo the same way on the
    live channels ([updateMixerSettings]) and on the channels of an offline
    render (the per-bar application of [renderSong]): when some track is
    soloed every channel is muted unless its own track is soloed, whatever
    its mute flag; when none is, every channel takes its track's mute flag. *)
Theorem mute_solo_resolution settings :
  (forall e,
      mute_solo_resolved settings
        (channels (graph (updateMixerSettings settings e).2)))
  /\ (forall layout barDuration barIndex p pattern o,
        arrangement layout !! barIndex = Some (Some p) ->
        index (patterns layout) p = Some pattern ->
        trackSettings pattern = settings ->
        mute_solo_resolved settings
          (channels (o_graph (offline_bar layout barDuration barIndex o).2))).
Proof.
  split.
  - intros e. rewrite updateMixerSettings_spec.
    destruct e as [[] ? ? ? ? ? ? ?]. apply mixed_channels_resolved.
  - intros layout barDuration barIndex p pattern o He Hp <-.
    rewrite (offline_bar_pattern _ _ _ _ _ _ He Hp).
    destruct o as [? [] ? ? ?]. apply mixed_channels_resolved.
Qed.

(** ** The handlers of the component *)

Lemma updateAll_returns w l e : (updateAll w l e).1 = Ok tt.
Proof.
  unfold updateAll, setBpm, updateMasterSettings. msimpl.
  apply for_ok. intros track s. msimpl.
  match goal with |- context [if ?c then _ else _] => destruct c end; [|reflexivity].
  unfold try_catch, console_error. msimpl.
  now destruct (loadSample w track _ s) as [[[]|err] s'].
Qed.

Lemma active_index_lookup a i :
  active_index a = Some i -> is_Some (patterns (layout a) !! i).
Proof.
  unfold active_index, index.
  destruct (patterns (layout a)) as [|p0 ps] eqn:Hps; [discriminate|].
  destruct (activePatternIndex a <? 0).
  - intros [= <-]. now exists p0.
  - destruct ((p0 :: ps) !! Z.to_nat (activePatternIndex a)) as [p|] eqn:Hl.
    + intros [= <-]. now exists p.
    + intros [= <-]. now exists p0.
Qed.

Lemma active_index_alter a f i :
  active_index (with_layout (with_patterns (alter f i)) a) = active_index a.
Proof.
  unfold active_index, index.
  destruct a as [l api ? ? ? ? ? ? ?]. destruct l as [ps ? ? ? ?].
  cbn [layout with_layout patterns with_patterns activePatternIndex].
  destruct (api <? 0).
  - destruct ps as [|p0 ps]; [reflexivity|]. now destruct i.
  - rewrite list_lookup_alter.
    destruct ps as [|p0 ps]; [reflexivity|].
    destruct (decide (i = Z.to_nat api)) as [->|Hne].
    + destruct ((p0 :: ps) !! Z.to_nat api); destruct (Z.to_nat api); reflexivity.
    + destruct ((p0 :: ps) !! Z.to_nat api); destruct i; reflexivity.
Qed.

Lemma showNotification_spec message a :
  showNotification message a
  = (Ok tt, if has_toast a then with_toasts (fun t => t ++ [message]) a
            else with_app_console (fun t => t ++ ["Notification: " +:+ message]) a).
Proof. unfold showNotification. msimpl. now destruct (has_toast a). Qed.

Lemma notified_after message a b :
  has_toast b = has_toast a -> toasts b = toasts a -> app_console b = app_console a ->
  notified a (with_isAiThinking false (showNotification message b).2) message.
Proof.
  intros Hh Ht Hc. rewrite showNotification_spec. unfold notified. cbn [snd].
  rewrite Hh. destruct (has_toast a), b; cbn in *; congruence.
Qed.

(** A prompt that trims to nothing is refused before the AI is asked. *)
Lemma handleGenerateChords_blank w ai a :
  blank (chordPromptText a) = true ->
  handleGenerateChords w ai a
  = showNotification "Please enter a chord progression prompt." a.
Proof. intros Hb. unfold handleGenerateChords. msimpl. now rewrite Hb. Qed.

Lemma handleGenerateChords_rejects w ai a :
  blank (chordPromptText a) = false ->
  (forall chords,
      generateChordsFromPrompt
        (ai (chordPromptText a) (steps (seq_bass (sequencerState (activePattern a)))))
      = Some chords -> List.length chords <> 16%nat) ->
  handleGenerateChords w ai a
  = (Ok tt,
     with_isAiThinking false
       (showNotification "AI failed to generate a valid chord progression."
          (with_isAiThinking true a)).2).
Proof.
  intros Hb Hrej. unfold handleGenerateChords. msimpl. rewrite Hb.
  unfold try_catch. msimpl.
  assert (Hact : activePattern (with_isAiThinking true a) = activePattern a)
    by now destruct a.
  rewrite Hact.
  destruct (generateChordsFromPrompt _) as [chords|] eqn:Hreply.
  - destruct (decide (List.length chords = 16%nat)) as [Hlen|Hlen].
    + now destruct (Hrej chords eq_refl).
    + now rewrite showNotification_spec.
  - now rewrite showNotification_spec.
Qed.

Lemma handleGenerateChords_accepts w ai a chords :
  blank (chordPromptText a) = false ->
  generateChordsFromPrompt
    (ai (chordPromptText a) (steps (seq_bass (sequencerState (activePattern a)))))
  = Some chords ->
  List.length chords = 16%nat ->
  exists e',
    handleGenerateChords w ai a
    = (Ok tt,
       with_isAiThinking false
         (showNotification "AI chord progression generated!"
            (with_engine e' (chords_assigned chords (with_isAiThinking true a)))).2).
Proof.
  intros Hb Hreply Hlen. unfold handleGenerateChords. msimpl. rewrite Hb.
  unfold try_catch. msimpl.
  assert (Hact : activePattern (with_isAiThinking true a) = activePattern a)
    by now destruct a.
  rewrite Hact, Hreply.
  destruct (decide (List.length chords = 16%nat)) as [_|Hne]; [|contradiction].
  unfold assign_active_chords, chords_assigned. msimpl.
  destruct (active_index (with_isAiThinking true a)) as [i|];
    unfold mutate_layout; msimpl; unfold on_engine;
    match goal with
    | |- context [updateAll w ?l ?e] =>
        pose proof (updateAll_returns w l e) as Hok;
        destruct (updateAll w l e) as [[[]|err] e3]; [|discriminate Hok]
    end;
    exists e3; rewrite !showNotification_spec; cbn [snd]; now destruct a.
Qed.

Lemma activePattern_ext a b :
  layout b = layout a -> activePatternIndex b = activePatternIndex a ->
  activePattern b = activePattern a.
Proof. intros Hl Hi. unfold activePattern, active_index. now rewrite Hl, Hi. Qed.

Lemma activePattern_alter a f i pat :
  active_index a = Some i ->
  patterns (layout a) !! i = Some pat ->
  activePattern (with_layout (with_patterns (alter f i)) a) = f pat.
Proof.
  intros Hi Hpat. unfold activePattern. rewrite active_index_alter, Hi.
  destruct a as [l ? ? ? ? ? ? ? ?]. destruct l as [ps ? ? ? ?].
  cbn [layout with_layout patterns with_patterns] in *.
  now rewrite list_lookup_alter_eq, Hpat.
Qed.

(** C9. With a prompt entered, [handleGenerateChords] returns; when the
    helper's answer is null or a list whose length is not 16 the layout,
    the pattern's chord steps with it, and the engine are left as they
    were and the failure is notified; an answer of exactly 16 entries is
    the only one that replaces the chord steps of the active pattern. *)
Theorem chords_need_sixteen w ai a :
  blank (chordPromptText a) = false ->
  let bassline := steps (seq_bass (sequencerState (activePattern a))) in
  let reply := generateChordsFromPrompt (ai (chordPromptText a) bassline) in
  let a' := (handleGenerateChords w ai a).2 in
  (handleGenerateChords w ai a).1 = Ok tt
  /\ ((forall chords, reply = Some chords -> List.length chords <> 16%nat) ->
      layout a' = layout a /\ engine a' = engine a
      /\ notified a a' "AI failed to generate a valid chord progression.")
  /\ (forall chords i, reply = Some chords -> List.length chords = 16%nat ->
      active_index a = Some i ->
      layout a' = with_patterns (alter (set_chord_steps chords) i) (layout a)
      /\ steps (seq_chords (sequencerState (activePattern a'))) = chords
      /\ notified a a' "AI chord progression generated!").
Proof.
  intros Hb bassline reply a'. subst a'. split; [|split].
  - destruct reply as [chords|] eqn:Hreply.
    + destruct (decide (List.length chords = 16%nat)) as [Hlen|Hlen].
      * destruct (handleGenerateChords_accepts w ai a chords Hb Hreply Hlen)
          as [e' ->]. reflexivity.
      * rewrite handleGenerateChords_rejects; [reflexivity|exact Hb|].
        intros c Hc. fold bassline in Hc. fold reply in Hc. congruence.
    + rewrite handleGenerateChords_rejects; [reflexivity|exact Hb|].
      intros c Hc. fold bassline in Hc. fold reply in Hc. congruence.
  - intros Hrej. rewrite (handleGenerateChords_rejects w ai a Hb Hrej).
    cbn [snd]. repeat split.
    + rewrite showNotification_spec. now destruct a as [? ? ? ? ? []].
    + rewrite showNotification_spec. now destruct a as [? ? ? ? ? []].
    + apply notified_after; now destruct a.
  - intros chords i Hreply Hlen Hi.
    destruct (handleGenerateChords_accepts w ai a chords Hb Hreply Hlen)
      as [e' ->]. cbn [snd].
    destruct (active_index_lookup a i Hi) as [pat Hpat].
    assert (Hi' : active_index (with_isAiThinking true a) = Some i) by now destruct a.
    unfold chords_assigned. rewrite Hi'.
    set (f := with_patterns (alter (set_chord_steps chords) i)).
    repeat split.
    + rewrite showNotification_spec. now destruct a as [? ? ? ? ? []].
    + rewrite (activePattern_ext (with_layout f a)).
      * subst f. now rewrite (activePattern_alter a _ i pat Hi Hpat).
      * rewrite showNotification_spec. now destruct a as [? ? ? ? ? []].
      * rewrite showNotification_spec. now destruct a as [? ? ? ? ? []].
    + apply notified_after; now destruct a.
Qed.

(** On an initialised engine [loadSample] puts the new sampler in the
    track's slot before it waits for the download, so the sampler is
    replaced whether or not the sample loads. *)
Lemma loadSample_swaps_first w e track url :
  isInitialized e = true ->
  sampler_of (instruments (graph (loadSample w track url e).2)) track
  = new_sampler url.
Proof.
  intros Hi. unfold loadSample, initialize, createSampler, Tone_loaded. msimpl.
  rewrite Hi. lazy beta iota.
  destruct e as [[c fx ins ms] ? ? ? ? pend ? ?]. cbn.
  destruct (forallb (fetch_ok w) (pend ++ [full_url (new_sampler url)]));
    destruct track; reflexivity.
Qed.

(** ** Live playback and offline render, bar by bar *)

Lemma live_bar_triggers pattern base sixteenth barIndex :
  List.filter is_trigger (live_bar pattern base sixteenth barIndex)
  = bar_triggers pattern base sixteenth.
Proof.
  unfold live_bar, bar_triggers. generalize (seq 0 16). intros l.
  induction l as [|i l IH]; [reflexivity|].
  cbn [flat_map]. rewrite !List.filter_app, IH, step_triggers_all.
  cbn. now rewrite app_nil_r.
Qed.

(** For a bar that holds pattern [p], played live at the base time the
    renderer gives the bar and at the same tempo: both paths add the same
    triggers, step for step and time for time, and whenever the live tick
    applies settings they are the ones the renderer applies, with the same
    effect on the graph. *)
Theorem live_and_offline_bar layout e o time progress barIndex barDuration p pattern :
  currentLayout e = Some layout ->
  resolved layout progress = Some (Some p) ->
  arrangement layout !! barIndex = Some (Some p) ->
  index (patterns layout) p = Some pattern ->
  transport_bpm (transport e) = o_bpm o ->
  time = num_mul (num_of_nat barIndex) barDuration ->
  exists live rendered,
    trace (tick time progress e).2 = trace e ++ live
    /\ o_trace (offline_bar layout barDuration barIndex o).2 = o_trace o ++ rendered
    /\ List.filter is_trigger live = List.filter is_trigger rendered
    /\ List.filter is_settings rendered = resync pattern
    /\ List.filter is_settings live
       = (if decide (currentPatternIndex e = Some p) then [] else resync pattern)
    /\ o_graph (offline_bar layout barDuration barIndex o).2
       = pattern_applied pattern (o_graph o)
    /\ graph (tick time progress e).2
       = (if decide (currentPatternIndex e = Some p) then graph e
          else pattern_applied pattern (graph e)).
Proof.
  intros Hl Hr He Hp Hbpm ->.
  rewrite (tick_pattern _ _ _ _ _ _ Hl Hr Hp).
  rewrite (offline_bar_pattern _ _ _ _ _ _ He Hp). cbn [snd]. rewrite Hbpm.
  set (base := num_mul (num_of_nat barIndex) barDuration).
  set (s := toSeconds (o_bpm o) N16n).
  exists ((if decide (currentPatternIndex e = Some p) then [] else resync pattern)
          ++ live_bar pattern base s (bar_of layout progress)),
         (resync pattern ++ bar_triggers pattern base s).
  assert (Hnone : List.filter is_settings (bar_triggers pattern base s) = []).
  { rewrite <- (live_bar_triggers pattern base s 0).
    induction (live_bar pattern base s 0) as [|c l IH]; [reflexivity|].
    destruct c; cbn; auto. }
  destruct (decide (currentPatternIndex e = Some p));
    rewrite !List.filter_app, ?live_bar_triggers, ?live_bar_no_settings,
      ?bar_triggers_all, ?resync_no_trigger, ?resync_all_settings, ?Hnone,
      ?app_nil_r;
    destruct e, o; cbn; rewrite <- ?app_assoc; repeat split.
Qed.

(** ** Entries the scheduler cannot play *)

Lemma loadPattern_undefined e : loadPattern None e = (Throw TypeError, e).
Proof. reflexivity. Qed.

Lemma schedulePattern_undefined time barIndex e :
  schedulePattern None time barIndex e = (Throw TypeError, e).
Proof. reflexivity. Qed.

(** A tick that resolves an entry the layout cannot play, a bar past the
    end of the arrangement or the index of a pattern the layout does not
    have, throws a [TypeError] before it touches the engine: nothing is
    applied, nothing is scheduled and the current pattern index stays. *)
Theorem tick_unplayable_throws time progress e layout :
  currentLayout e = Some layout ->
  ~ playable layout (resolved layout progress) ->
  tick time progress e = (Throw TypeError, e).
Proof.
  intros Hl Hn. unfold tick. msimpl. rewrite Hl.
  unfold resolved, bar_of in Hn.
  destruct (index (arrangement layout) _) as [[p|]|] eqn:He.
  - assert (Hp : pattern_at layout (Some (Some p)) = None).
    { unfold pattern_at. cbn. destruct (index (patterns layout) p) eqn:Hp; [|reflexivity].
      exfalso. apply Hn. cbn. rewrite Hp. eauto. }
    rewrite Hp.
    destruct (bool_decide (Some (Some p) ≠ Some (currentPatternIndex e))); reflexivity.
  - exfalso. apply Hn. exact I.
  - destruct (bool_decide (None ≠ Some (currentPatternIndex e))) eqn:Hd.
    + reflexivity.
    + apply bool_decide_eq_false in Hd. exfalso. apply Hd. discriminate.
Qed.

(** ** When a render fails *)

Lemma offline_bar_result layout barDuration barIndex o :
  ((offline_bar layout barDuration barIndex o).1 = Ok tt
   /\ playable layout (arrangement layout !! barIndex))
  \/ (offline_bar layout barDuration barIndex o = (Throw TypeError, o)
      /\ ~ playable layout (arrangement layout !! barIndex)).
Proof.
  destruct (arrangement layout !! barIndex) as [[p|]|] eqn:He.
  - destruct (index (patterns layout) p) as [pattern|] eqn:Hp.
    + left. rewrite (offline_bar_pattern _ _ _ _ _ _ He Hp). cbn. rewrite Hp. eauto.
    + right. unfold offline_bar. rewrite He.
      assert (Hat : pattern_at layout (Some (Some p)) = None) by exact Hp.
      rewrite Hat. split; [reflexivity|]. cbn. rewrite Hp. now intros [? ?].
  - left. rewrite (offline_bar_empty _ _ _ _ He). now split.
  - right. unfold offline_bar. rewrite He. split; [reflexivity|]. now intros [].
Qed.

Lemma offline_bars_result layout barDuration bars o :
  ((for_ bars (offline_bar layout barDuration) o).1 = Ok tt
   /\ Forall (fun b => playable layout (arrangement layout !! b)) bars)
  \/ ((for_ bars (offline_bar layout barDuration) o).1 = Throw TypeError
      /\ ~ Forall (fun b => playable layout (arrangement layout !! b)) bars).
Proof.
  revert o. induction bars as [|b bars IH]; intros o.
  - left. now split.
  - cbn [for_]. msimpl.
    destruct (offline_bar_result layout barDuration b o) as [[Hok Hp]|[Hthrow Hn]].
    + destruct (offline_bar layout barDuration b o) as [r o'].
      cbn [fst] in Hok. subst r.
      destruct (IH o') as [[Hok' Hall]|[Hthrow' Hnall]].
      * left. split; [exact Hok'|]. now constructor.
      * right. split; [exact Hthrow'|]. intros Hall. apply Hnall.
        now inversion Hall.
    + rewrite Hthrow. right. split; [reflexivity|]. intros Hall. apply Hn.
      now inversion Hall.
Qed.

Lemma well_formed_bars layout :
  well_formed layout
  <-> Forall (fun b => playable layout (arrangement layout !! b))
        (seq 0 (List.length (arrangement layout))).
Proof.
  unfold well_formed. rewrite Forall_lookup, Forall_seq. split.
  - intros H b [_ Hb]. destruct (lookup_lt_is_Some_2 _ _ Hb) as [entry He].
    rewrite He. exact (H _ _ He).
  - intros H b entry He. rewrite <- He. apply H.
    split; [lia|]. apply lookup_lt_is_Some. eauto.
Qed.

Lemma renderSong_cases w ambient layout :
  (forallb (fetch_ok w) (o_pending (offline_context layout)) = false
   /\ renderSong w ambient layout = Throw LoadError)
  \/ (forallb (fetch_ok w) (o_pending (offline_context layout)) = true
      /\ ~ well_formed layout
      /\ renderSong w ambient layout = Throw TypeError)
  \/ (forallb (fetch_ok w) (o_pending (offline_context layout)) = true
      /\ well_formed layout
      /\ exists r, renderSong w ambient layout = Ok r).
Proof.
  assert (Hpend : o_pending (with_o_bpm (bpm layout) (offline_context layout))
                  = o_pending (offline_context layout)) by reflexivity.
  pose proof (offline_bars_result layout (toSeconds ambient N1m)
                (seq 0 (List.length (arrangement layout)))
                (with_o_pending (fun _ => [])
                   (with_o_bpm (bpm layout) (offline_context layout)))) as Hbars.
  rewrite <- well_formed_bars in Hbars.
  unfold renderSong, offline_callback, Tone_loaded. msimpl. rewrite Hpend.
  destruct (forallb (fetch_ok w) (o_pending (offline_context layout))); [|now left].
  right. destruct Hbars as [[Hok Hwf]|[Hthrow Hn]].
  - right. split; [reflexivity|]. split; [exact Hwf|].
    destruct (for_ _ _ _) as [r o]. cbn [fst] in Hok. subst r. eauto.
  - left. split; [reflexivity|]. split; [exact Hn|].
    destruct (for_ _ _ _) as [r o]. cbn [fst] in Hthrow. now subst r.
Qed.

(** A render returns exactly when the three samples of the layout load
    and every entry of the arrangement is playable. Otherwise it rejects
    and no buffer is produced: with the load error when a sample fails,
    whatever the arrangement holds, and with a [TypeError] when the samples
    load but some bar names a pattern the layout does not have. *)
Theorem renderSong_outcome w ambient layout :
  (forallb (fetch_ok w) (o_pending (offline_context layout)) = false ->
   renderSong w ambient layout = Throw LoadError)
  /\ (forallb (fetch_ok w) (o_pending (offline_context layout)) = true ->
      ~ well_formed layout ->
      renderSong w ambient layout = Throw TypeError)
  /\ ((exists r, renderSong w ambient layout = Ok r)
      <-> forallb (fetch_ok w) (o_pending (offline_context layout)) = true
          /\ well_formed layout).
Proof.
  destruct (renderSong_cases w ambient layout)
    as [[Hl Hr]|[(Hl & Hn & Hr)|(Hl & Hwf & r & Hr)]]; rewrite Hl, Hr.
  - split; [reflexivity|]. split; [discriminate|].
    split; [intros [r [=]]|intros [[=] _]].
  - split; [discriminate|]. split; [reflexivity|].
    split; [intros [r [=]]|intros [_ Hwf]; contradiction].
  - split; [discriminate|]. split; [intros _ Hn; contradiction|].
    split; eauto.
Qed.

(** ** What [updateAll] touches *)

Lemma same_session_refl e : same_session e e.
Proof. unfold same_session. tauto. Qed.

Lemma same_session_trans e1 e2 e3 :
  same_session e1 e2 -> same_session e2 e3 -> same_session e1 e3.
Proof. unfold same_session. intuition congruence. Qed.

Lemma loadSample_frame w track url e : same_session e (loadSample w track url e).2.
Proof.
  unfold loadSample, initialize, createSampler, Tone_loaded, Tone_start. msimpl.
  destruct e as [[c fx ins ms] ini l cp t pend tr co]. cbn.
  destruct ini; cbn.
  - destruct (forallb _ _); destruct track; unfold same_session; cbn; tauto.
  - destruct (audio_allowed w); cbn; [|apply same_session_refl].
    destruct (forallb (fetch_ok w) pend); cbn; [|unfold same_session; cbn; tauto].
    match goal with |- context [if ?c then _ else _] => destruct c end;
      destruct track; unfold same_session; cbn; tauto.
Qed.

Lemma load_if_changed_frame w (changed : bool) track url msg e :
  (when_ changed (try_catch (loadSample w track url)
                    (fun _ => console_error msg)) e).1 = Ok tt
  /\ same_session e
       (when_ changed (try_catch (loadSample w track url)
                         (fun _ => console_error msg)) e).2.
Proof.
  destruct changed; cbn [when_]; [|split; [reflexivity|apply same_session_refl]].
  unfold try_catch, console_error. msimpl.
  pose proof (loadSample_frame w track url e) as Hf.
  destruct (loadSample w track url e) as [[[]|err] e']; cbn [fst snd] in *.
  - now split.
  - split; [reflexivity|]. eapply same_session_trans; [exact Hf|].
    destruct e'. unfold same_session; cbn; tauto.
Qed.

Lemma for_invariant {S A} (P : S -> Prop) (xs : list A) (body : A -> M S unit) :
  (forall x s, P s -> (body x s).1 = Ok tt /\ P (body x s).2) ->
  forall s, P s -> (for_ xs body s).1 = Ok tt /\ P (for_ xs body s).2.
Proof.
  intros Hbody. induction xs as [|x xs IH]; intros s Hs; [now split|].
  cbn [for_]. msimpl. destruct (Hbody x s Hs) as [Hok HP].
  destruct (body x s) as [r s']. cbn [fst snd] in *. subst r. now apply IH.
Qed.

Lemma updateAll_session w layout e :
  (updateAll w layout e).1 = Ok tt
  /\ same_session (taken_over layout e) (updateAll w layout e).2.
Proof.
  unfold updateAll, setBpm, updateMasterSettings. msimpl.
  match goal with |- context [for_ ?xs ?body ?s] =>
    destruct (for_invariant (same_session s) xs body
                ltac:(intros x s' Hs';
                      destruct (load_if_changed_frame w
                                  (match currentLayout e with
                                   | Some old =>
                                       bool_decide (sample_of (sampleSettings old) x
                                                    ≠ sample_of (sampleSettings layout) x)
                                   | None => true
                                   end) x (sample_of (sampleSettings layout) x)
                                  "Failed to automatically load sample" s') as [Hok Hss];
                      split; [exact Hok|];
                      eapply same_session_trans; [exact Hs'|exact Hss])
                s (same_session_refl s)) as [Hok Hss];
    destruct (for_ xs body s) as [r e']
  end.
  cbn [fst snd] in *. split; [exact Hok|].
  eapply same_session_trans; [|exact Hss].
  destruct e as [[c fx ins [v k l]] ini lay cp t pend tr co].
  unfold same_session, taken_over. cbn. tauto.
Qed.

(** [updateAll] takes over the layout, the tempo and the master bus, and
    never throws. It does not re-apply the settings of any pattern: the
    channel strips, the bass effects and the bass synth are as they were,
    the current pattern index stays, and nothing is scheduled or reported. *)
Theorem updateAll_frame w layout e :
  (updateAll w layout e).1 = Ok tt
  /\ currentLayout (updateAll w layout e).2 = Some layout
  /\ transport (updateAll w layout e).2 = set_transport_bpm (bpm layout) (transport e)
  /\ bus_volume (master (graph (updateAll w layout e).2))
     = master_volume (masterSettings layout)
  /\ bus_limiter (master (graph (updateAll w layout e).2))
     = limiter_threshold (masterSettings layout)
  /\ channels (graph (updateAll w layout e).2) = channels (graph e)
  /\ bassEffects (graph (updateAll w layout e).2) = bassEffects (graph e)
  /\ i_bass (instruments (graph (updateAll w layout e).2)) = i_bass (instruments (graph e))
  /\ i_chords (instruments (graph (updateAll w layout e).2))
     = i_chords (instruments (graph e))
  /\ currentPatternIndex (updateAll w layout e).2 = currentPatternIndex e
  /\ trace (updateAll w layout e).2 = trace e.
Proof.
  destruct (updateAll_session w layout e)
    as (Hok & Hc & Hfx & Hm & Hb & Hch & Hl & Hp & Ht & Htr).
  rewrite Hok, Hc, Hfx, Hm, Hb, Hch, Hl, Hp, Ht, Htr.
  destruct e as [[c fx ins ms] ini l cp t pend tr co]. cbn. tauto.
Qed.

Lemma loadSample_initialized w track url e :
  isInitialized e = true ->
  loadSample w track url e
  = (if forallb (fetch_ok w) (pending e ++ [full_url (new_sampler url)])
     then Ok tt else Throw LoadError,
     with_pending (fun _ => [])
       (with_graph (with_instruments (fun i => set_sampler i track (new_sampler url))) e)).
Proof.
  intros Hi. unfold loadSample, initialize, createSampler, Tone_loaded. msimpl.
  rewrite Hi. lazy beta iota.
  destruct e as [[c fx ins ms] ? ? ? ? pend ? ?]. cbn.
  now destruct (forallb (fetch_ok w) (pend ++ [full_url (new_sampler url)])).
Qed.

Lemma sampler_of_set_sampler i d d' s :
  sampler_of (set_sampler i d s) d' = if decide (d' = d) then s else sampler_of i d'.
Proof. destruct i, d, d'; reflexivity. Qed.

(** One [loadSampleIfChanged] on an initialised engine. *)
Lemma load_if_changed_initialized w (changed : bool) track msg layout e :
  isInitialized e = true ->
  let r := when_ changed
             (try_catch (loadSample w track (sample_of (sampleSettings layout) track))
                (fun _ => console_error msg)) e in
  r.1 = Ok tt
  /\ isInitialized r.2 = true
  /\ forall d, sampler_of (instruments (graph r.2)) d
               = if changed && bool_decide (d = track)
                 then new_sampler (sample_of (sampleSettings layout) d)
                 else sampler_of (instruments (graph e)) d.
Proof.
  intros Hi. destruct changed; cbn [when_ andb]; [|now repeat split].
  unfold try_catch, console_error. msimpl.
  rewrite (loadSample_initialized _ _ _ _ Hi).
  assert (Hs : forall d,
             sampler_of (set_sampler (instruments (graph e)) track
                           (new_sampler (sample_of (sampleSettings layout) track))) d
             = if bool_decide (d = track)
               then new_sampler (sample_of (sampleSettings layout) d)
               else sampler_of (instruments (graph e)) d).
  { intros d. rewrite sampler_of_set_sampler. case_bool_decide; subst.
    - now rewrite decide_True.
    - now rewrite decide_False. }
  destruct e as [[c fx ins ms] ? ? ? ? pend ? ?]. cbn in *.
  destruct (forallb _ _); cbn; auto.
Qed.

(** On an initialised engine [updateAll] replaces the sampler of exactly
    those drum tracks whose sample differs from the one in the layout held
    before, of all three when none was held, and leaves the others in
    place, whether or not the new samples load. *)
Theorem updateAll_samplers w layout e d :
  isInitialized e = true ->
  sampler_of (instruments (graph (updateAll w layout e).2)) d
  = if sample_changed (currentLayout e) layout d
    then new_sampler (sample_of (sampleSettings layout) d)
    else sampler_of (instruments (graph e)) d.
Proof.
  intros Hi. unfold updateAll, setBpm, updateMasterSettings.
  unfold mbind, M_bind, modify, gets. lazy beta iota zeta.
  fold (sample_changed (currentLayout e) layout).
  set (e0 := with_graph _ _).
  assert (Hi0 : isInitialized e0 = true) by (destruct e; exact Hi).
  assert (Hs0 : forall d, sampler_of (instruments (graph e0)) d
                          = sampler_of (instruments (graph e)) d).
  { intros d'. destruct e as [[c fx ins ms] ? ? ? ? pend ? ?]. reflexivity. }
  clearbody e0. cbn [for_].
  unfold mbind, M_bind, mret, M_ret. lazy beta iota zeta.
  set (msg := "Failed to automatically load sample").
  destruct (load_if_changed_initialized w (sample_changed (currentLayout e) layout DKick)
              DKick msg layout e0 Hi0) as (Hok1 & Hi1 & Hs1).
  fold (sample_changed (currentLayout e) layout DKick).
  destruct (when_ (sample_changed (currentLayout e) layout DKick) _ e0) as [r1 e1].
  cbn [fst snd] in *. subst r1.
  destruct (load_if_changed_initialized w (sample_changed (currentLayout e) layout DSnare)
              DSnare msg layout e1 Hi1) as (Hok2 & Hi2 & Hs2).
  fold (sample_changed (currentLayout e) layout DSnare).
  destruct (when_ (sample_changed (currentLayout e) layout DSnare) _ e1) as [r2 e2].
  cbn [fst snd] in *. subst r2.
  destruct (load_if_changed_initialized w (sample_changed (currentLayout e) layout DHihat)
              DHihat msg layout e2 Hi2) as (Hok3 & Hi3 & Hs3).
  fold (sample_changed (currentLayout e) layout DHihat).
  destruct (when_ (sample_changed (currentLayout e) layout DHihat) _ e2) as [r3 e3].
  cbn [fst snd] in *. subst r3.
  rewrite Hs3, Hs2, Hs1, Hs0.
  destruct d, (sample_changed (currentLayout e) layout DKick),
    (sample_changed (currentLayout e) layout DSnare),
    (sample_changed (currentLayout e) layout DHihat); reflexivity.
Qed.

(** ** Starting and stopping *)

(** While the browser keeps the audio context suspended, an engine that
    is not initialised yet rejects [start] and [loadSample] alike and stays
    exactly as it was: the transport and the loops are not started, and no
    sampler is replaced. *)
Theorem blocked_audio_changes_nothing w e :
  isInitialized e = false ->
  audio_allowed w = false ->
  initialize w e = (Throw NotAllowedError, e)
  /\ start w e = (Throw NotAllowedError, e)
  /\ forall track url, loadSample w track url e = (Throw NotAllowedError, e).
Proof.
  intros Hi Ha.
  assert (H : initialize w e = (Throw NotAllowedError, e)).
  { unfold initialize, Tone_start. msimpl. now rewrite Hi, Ha. }
  split; [exact H|]. split.
  - unfold start. msimpl. now rewrite H.
  - intros track url. unfold loadSample. msimpl. now rewrite H.
Qed.

Lemma initialize_idle w e : isInitialized e = true -> initialize w e = (Ok tt, e).
Proof. intros Hi. unfold initialize. msimpl. now rewrite Hi. Qed.

(** Once initialisation has gone through, [start] with a layout held sets
    the main loop to as many iterations as the arrangement has bars and
    starts the transport and both loops, so that the loop's callback now
    reaches [tick]; the tempo, the graph and the trace are not touched. *)
Theorem start_with_layout w e layout :
  currentLayout e = Some layout ->
  (initialize w e).1 = Ok tt ->
  (start w e).1 = Ok tt
  /\ transport (start w e).2
     = mkTransport (transport_bpm (transport e)) true true
         (Some (List.length (arrangement layout))) true
  /\ graph (start w e).2 = graph e
  /\ trace (start w e).2 = trace e
  /\ forall tk, mainLoop_fire tk (start w e).2 = tick tk.1 tk.2 (start w e).2.
Proof.
  intros Hl Hok.
  destruct (initialize_frame w e) as (Ht & Htr & Hcl & _ & Hg).
  assert (Hs : start w e
               = (Ok tt,
                  with_transport
                    (fun t => mkTransport (transport_bpm t) true true
                                (Some (List.length (arrangement layout))) true)
                    (initialize w e).2)).
  { unfold start. msimpl.
    destruct (initialize w e) as [[[]|err] e'] eqn:Hi; cbn [fst snd] in *;
      [|discriminate].
    rewrite Hcl, Hl. now destruct e' as [? ? ? ? [] ? ? ?]. }
  rewrite Hs. cbn [fst snd].
  destruct (initialize w e) as [r e']. cbn [fst snd] in *.
  destruct e' as [g' ini' l' cp' t' pend' tr' co']. cbn in *. subst.
  repeat split.
Qed.

Lemma stop_spec e :
  stop e
  = (Ok tt,
     with_transport (fun t => mkTransport (transport_bpm t) false false
                                (mainLoop_iterations t) false)
       (with_currentPatternIndex None (log [StepChange (-1) (-1); MetersSilenced] e))).
Proof.
  unfold stop, on_transport_stop. msimpl.
  destruct e as [? ? ? ? [] ? tr ?]. unfold_state. cbn. now rewrite <- app_assoc.
Qed.

(** The transport's stop makes the next bar re-apply its pattern: a tick
    after [stop] applies the settings of the pattern it resolves even when
    that pattern was the current one before the stop. *)
Theorem stop_forces_resync time progress e layout p pattern :
  currentLayout e = Some layout ->
  resolved layout progress = Some (Some p) ->
  index (patterns layout) p = Some pattern ->
  (tick time progress (stop e).2).1 = Ok tt
  /\ List.filter is_settings (trace (tick time progress (stop e).2).2)
     = List.filter is_settings (trace e) ++ resync pattern
  /\ graph (tick time progress (stop e).2).2 = pattern_applied pattern (graph e)
  /\ currentPatternIndex (tick time progress (stop e).2).2 = Some p.
Proof.
  intros Hl Hr Hp. rewrite stop_spec. cbn [snd].
  set (e1 := with_transport _ _).
  assert (Hl1 : currentLayout e1 = Some layout) by (destruct e; exact Hl).
  rewrite (tick_pattern _ _ _ _ _ _ Hl1 Hr Hp).
  assert (Hc1 : currentPatternIndex e1 = None) by (destruct e; reflexivity).
  rewrite Hc1. rewrite decide_False by discriminate.
  cbn [fst snd]. split; [reflexivity|].
  rewrite trace_log.
  assert (Ht : trace (with_currentPatternIndex (Some p)
                        (log (resync pattern) (with_graph (pattern_applied pattern) e1)))
               = trace e ++ [StepChange (-1) (-1); MetersSilenced] ++ resync pattern).
  { destruct e. unfold e1. unfold_state. cbn. now rewrite <- app_assoc. }
  rewrite Ht, !List.filter_app, live_bar_no_settings, resync_all_settings.
  cbn [List.filter is_settings]. rewrite app_nil_r.
  split; [reflexivity|]. split.
  - destruct e as [[] ? ? ? ? ? ? ?]. reflexivity.
  - destruct e. reflexivity.
Qed.

(** ** The component and its engine *)

Lemma in_step_ext a b :
  layout b = layout a -> engine b = engine a -> in_step a -> in_step b.
Proof. unfold in_step. intros -> ->. tauto. Qed.

Lemma engine_updateAll_spec w a :
  engine_updateAll w a = (Ok tt, with_engine (updateAll w (layout a) (engine a)).2 a).
Proof.
  unfold engine_updateAll, on_engine. msimpl.
  pose proof (updateAll_returns w (layout a) (engine a)) as Hok.
  destruct (updateAll w (layout a) (engine a)) as [r e']. cbn [fst snd] in *.
  now subst r.
Qed.

Lemma updateAll_in_step w a : in_step (with_engine (updateAll w (layout a) (engine a)).2 a).
Proof.
  destruct (updateAll_session w (layout a) (engine a))
    as (_ & _ & _ & Hm & _ & _ & Hl & _ & Ht & _).
  unfold in_step.
  assert (He : engine (with_engine (updateAll w (layout a) (engine a)).2 a)
               = (updateAll w (layout a) (engine a)).2) by now destruct a.
  assert (Hla : layout (with_engine (updateAll w (layout a) (engine a)).2 a) = layout a)
    by now destruct a.
  rewrite He, Hla, Hm, Hl, Ht.
  destruct (engine a) as [[c fx ins [v k l]] ini lay cp [] pend tr co].
  cbn. tauto.
Qed.

Lemma mutate_layout_spec f a :
  mutate_layout f a
  = (Ok tt,
     with_engine (with_currentLayout (f <$> currentLayout (engine a)) (engine a))
       (with_layout f a)).
Proof. reflexivity. Qed.

Lemma mutate_active_ok f a : (mutate_active f a).1 = Ok tt.
Proof. unfold mutate_active. msimpl. now destruct (active_index a). Qed.

(** A handler that ends by handing the layout to the engine. *)
Lemma then_updateAll_in_step w (m : M App unit) a :
  (m a).1 = Ok tt ->
  ((m;; engine_updateAll w) a).1 = Ok tt /\ in_step ((m;; engine_updateAll w) a).2.
Proof.
  intros Hok. msimpl. destruct (m a) as [r a1]. cbn [fst] in Hok. subst r.
  rewrite engine_updateAll_spec. split; [reflexivity|]. apply updateAll_in_step.
Qed.

Lemma showNotification_in_step message a :
  in_step a -> in_step (showNotification message a).2.
Proof.
  rewrite showNotification_spec. apply in_step_ext; now destruct a as [? ? ? ? ? []].
Qed.

Lemma mutate_layout_in_step f a :
  (forall l, bpm (f l) = bpm l) ->
  (forall l, masterSettings (f l) = masterSettings l) ->
  in_step a -> in_step (mutate_layout f a).2.
Proof.
  intros Hb Hm (Hl & Ht & Hv & Hlim). rewrite mutate_layout_spec. cbn [snd].
  destruct a as [l ? ? ? ? ? ? ? e]. cbn in *.
  unfold in_step. cbn. rewrite Hl, Hb, Hm. cbn.
  destruct e as [[] ? ? ? ? ? ? ?]. cbn in *. tauto.
Qed.

Lemma mutate_active_in_step f a :
  in_step a -> in_step (mutate_active f a).2.
Proof.
  intros H. unfold mutate_active. msimpl.
  destruct (active_index a); [|exact H].
  apply mutate_layout_in_step; [reflexivity|reflexivity|exact H].
Qed.

Lemma handleBpmChange_in_step value a :
  in_step a ->
  (handleBpmChange value a).1 = Ok tt /\ in_step (handleBpmChange value a).2.
Proof.
  intros (Hl & Ht & Hv & Hlim). unfold handleBpmChange, setBpm, on_engine. msimpl.
  rewrite mutate_layout_spec. cbn [fst snd]. split; [reflexivity|].
  destruct a as [l ? ? ? ? ? ? ? e]. cbn in *.
  destruct e as [[] ? ? ? [] ? ? ?]. cbn in *. subst. unfold in_step. cbn. tauto.
Qed.

Lemma master_change_in_step f a :
  in_step a ->
  ((mutate_layout (with_masterSettings f);;
    a' ← get; on_engine (updateMasterSettings (masterSettings (layout a')))) a).1 = Ok tt
  /\ in_step ((mutate_layout (with_masterSettings f);;
               a' ← get;
               on_engine (updateMasterSettings (masterSettings (layout a')))) a).2.
Proof.
  intros (Hl & Ht & Hv & Hlim). unfold updateMasterSettings, on_engine. msimpl.
  rewrite mutate_layout_spec. cbn [fst snd]. split; [reflexivity|].
  destruct a as [l ? ? ? ? ? ? ? e]. cbn in *.
  destruct e as [[? ? ? []] ? ? ? [] ? ? ?]. cbn in *. subst. unfold in_step. cbn. tauto.
Qed.

Lemma on_engine_in_step (m : M Engine unit) a :
  (forall e, currentLayout (m e).2 = currentLayout e
             /\ transport (m e).2 = transport e
             /\ master (graph (m e).2) = master (graph e)) ->
  in_step a -> in_step (on_engine m a).2.
Proof.
  intros Hm (Hl & Ht & Hv & Hlim). unfold on_engine.
  destruct (Hm (engine a)) as (Hl' & Ht' & Hm').
  destruct (m (engine a)) as [r e']. cbn [snd] in *.
  destruct a. cbn in *. unfold in_step. cbn. rewrite Hl', Ht', Hm'. tauto.
Qed.

Lemma handleEffectWetChange_in_step effect value a :
  in_step a ->
  (handleEffectWetChange effect value a).1 = Ok tt
  /\ in_step (handleEffectWetChange effect value a).2.
Proof.
  intros H. unfold handleEffectWetChange. msimpl.
  pose proof (mutate_active_ok (with_effectsState
                (on_effect effect (fun s => mkEffectState value (settings s)))) a) as Hok.
  pose proof (mutate_active_in_step (with_effectsState
                (on_effect effect (fun s => mkEffectState value (settings s)))) a H) as H1.
  destruct (mutate_active _ a) as [r a1]. cbn [fst snd] in *. subst r.
  split.
  - unfold on_engine. now rewrite updateBassEffects_spec.
  - apply on_engine_in_step; [|exact H1].
    intros e. rewrite updateBassEffects_spec. now destruct e as [[] ? ? ? ? ? ? ?].
Qed.

Lemma notice_in_step f g a :
  in_step a ->
  in_step (if has_toast a then with_toasts f a else with_app_console g a).
Proof. apply in_step_ext; now destruct a as [? ? ? ? ? []]. Qed.

Lemma handleSampleSelected_in_step w track url a :
  in_step a ->
  (handleSampleSelected w track url a).1 = Ok tt
  /\ in_step (handleSampleSelected w track url a).2.
Proof.
  intros H. unfold handleSampleSelected. msimpl. rewrite showNotification_spec.
  lazy beta iota. unfold try_catch. msimpl.
  set (a1 := if has_toast (with_isLibraryOpen false a) then _ else _).
  assert (H1 : in_step a1).
  { revert H. apply in_step_ext; subst a1; now destruct a as [? ? ? ? ? []]. }
  clearbody a1.
  assert (H2 : in_step (with_engine (loadSample w track url (engine a1)).2 a1)).
  { pose proof (loadSample_frame w track url (engine a1))
      as (_ & _ & Hm & _ & _ & Hl & _ & Ht & _).
    destruct H1 as (Hl1 & Ht1 & Hv1 & Hlim1). destruct a1. cbn in *.
    unfold in_step. cbn. rewrite Hm, Hl, Ht. tauto. }
  unfold on_engine.
  destruct (loadSample w track url (engine a1)) as [[[]|err] e'];
    cbn [fst snd] in *.
  - rewrite mutate_layout_spec. lazy beta iota.
    rewrite showNotification_spec. lazy beta iota. cbn [fst snd].
    split; [reflexivity|]. apply notice_in_step.
    apply (mutate_layout_in_step _ (with_engine e' a1)); [reflexivity|reflexivity|].
    exact H2.
  - rewrite showNotification_spec. cbn [fst snd].
    split; [reflexivity|]. apply notice_in_step.
    revert H2. apply in_step_ext; now destruct a1.
Qed.

Lemma handleGenerateChords_in_step w ai a :
  in_step a ->
  (handleGenerateChords w ai a).1 = Ok tt /\ in_step (handleGenerateChords w ai a).2.
Proof.
  intros H. unfold handleGenerateChords. msimpl.
  destruct (blank (chordPromptText a)).
  { rewrite showNotification_spec. split; [reflexivity|]. now apply notice_in_step. }
  unfold try_catch. msimpl.
  set (a1 := with_isAiThinking true a).
  assert (H1 : in_step a1) by (revert H; apply in_step_ext; now destruct a).
  clearbody a1.
  assert (Hdone : forall msg b,
             in_step b ->
             (let (o, s') := showNotification msg b in
              match o with
              | Ok _ => (Ok tt, with_isAiThinking false s')
              | Throw e => (Throw e, s')
              end).1 = Ok tt
             /\ in_step (let (o, s') := showNotification msg b in
                         match o with
                         | Ok _ => (Ok tt, with_isAiThinking false s')
                         | Throw e => (Throw e, s')
                         end).2).
  { intros msg b Hb. rewrite showNotification_spec. split; [reflexivity|].
    cbn [snd]. apply (in_step_ext b); [now destruct b as [? ? ? ? ? []]..|exact Hb]. }
  destruct (generateChordsFromPrompt _) as [chords|].
  - destruct (decide (List.length chords = 16%nat)) as [_|_].
    + change (assign_active_chords chords) with (mutate_active (set_chord_steps chords)).
      pose proof (mutate_active_ok (set_chord_steps chords) a1) as Hok.
      destruct (mutate_active (set_chord_steps chords) a1) as [r a2].
      cbn [fst] in Hok. subst r.
      assert (Hup : on_engine (updateAll w (layout a2)) a2
                    = (Ok tt, with_engine (updateAll w (layout a2) (engine a2)).2 a2))
        by exact (engine_updateAll_spec w a2).
      rewrite Hup. rewrite showNotification_spec. cbn [fst snd].
      split; [reflexivity|].
      apply (in_step_ext (with_engine (updateAll w (layout a2) (engine a2)).2 a2)).
      * now destruct a2 as [? ? ? ? ? []].
      * now destruct a2 as [? ? ? ? ? []].
      * apply updateAll_in_step.
    + rewrite showNotification_spec. cbn [fst snd]. split; [reflexivity|].
      revert H1. apply in_step_ext; now destruct a1 as [? ? ? ? ? []].
  - rewrite showNotification_spec. cbn [fst snd]. split; [reflexivity|].
    revert H1. apply in_step_ext; now destruct a1 as [? ? ? ? ? []].
Qed.

Lemma handle_in_step w ev a :
  in_step a -> (handle w ev a).1 = Ok tt /\ in_step (handle w ev a).2.
Proof.
  intros H. destruct ev; cbn [handle].
  - split; [reflexivity|]. revert H. apply in_step_ext; now destruct a.
  - now apply handleBpmChange_in_step.
  - apply then_updateAll_in_step, mutate_active_ok.
  - apply then_updateAll_in_step, mutate_active_ok.
  - now apply master_change_in_step.
  - now apply master_change_in_step.
  - now apply then_updateAll_in_step.
  - msimpl. now apply then_updateAll_in_step.
  - destruct dropped; [now apply then_updateAll_in_step|now split].
  - now apply handleEffectWetChange_in_step.
  - now apply handleSampleSelected_in_step.
  - now apply handleGenerateChords_in_step.
Qed.

(** Whatever the user does with the pattern buttons, the tempo field,
    the sequencer, the mixer, the master section, the timeline, the effect
    sliders, the sample library and the chord generator, in whatever order:
    no handler throws, and after each one the engine holds the component's
    layout and runs at the layout's tempo, master volume and limiter
    threshold. *)
Theorem handlers_keep_engine_in_step w events a :
  in_step a ->
  (for_ events (handle w) a).1 = Ok tt /\ in_step (for_ events (handle w) a).2.
Proof.
  intros H. apply for_invariant; [|exact H].
  intros ev s Hs. now apply handle_in_step.
Qed.

(** The component starts out in step: [connectedCallback] hands the
    layout to a new engine. *)
Lemma connected_in_step w l : in_step (new_app l (engine_with w l)).
Proof.
  exact (updateAll_in_step w (new_app l new_engine)).
Qed.

Lemma then_updateAll_spec w (m : M App unit) a :
  (m a).1 = Ok tt ->
  (m;; engine_updateAll w) a
  = (Ok tt, with_engine (updateAll w (layout (m a).2) (engine (m a).2)).2 (m a).2).
Proof.
  intros Hok. msimpl. destruct (m a) as [r a1]. cbn [fst snd] in *. subst r.
  apply engine_updateAll_spec.
Qed.

Lemma mutate_active_engine f a :
  graph (engine (mutate_active f a).2) = graph (engine a)
  /\ trace (engine (mutate_active f a).2) = trace (engine a)
  /\ currentPatternIndex (engine (mutate_active f a).2) = currentPatternIndex (engine a)
  /\ transport (engine (mutate_active f a).2) = transport (engine a).
Proof.
  unfold mutate_active. msimpl. destruct (active_index a); [|tauto].
  rewrite mutate_layout_spec. destruct a as [? ? ? ? ? ? ? ? []]. cbn. tauto.
Qed.

Lemma mutate_active_layout f a i :
  active_index a = Some i ->
  layout (mutate_active f a).2 = with_patterns (alter f i) (layout a).
Proof.
  intros Hi. unfold mutate_active. msimpl. rewrite Hi, mutate_layout_spec.
  now destruct a.
Qed.

(** A mixer edit changes the settings of the active pattern in the layout
    and hands the layout to the engine, which does not apply them: the
    channel strips are as before and nothing is reported, and they stay so
    through every later tick that sustains the pattern the engine is on. *)
Theorem mixer_edit_waits_for_switch w track change a :
  (handleMixerChange w track change a).1 = Ok tt
  /\ (forall i, active_index a = Some i ->
        patterns (layout (handleMixerChange w track change a).2)
        = alter (with_trackSettings (on_setting track (set_setting change))) i
            (patterns (layout a)))
  /\ channels (graph (engine (handleMixerChange w track change a).2))
     = channels (graph (engine a))
  /\ trace (engine (handleMixerChange w track change a).2) = trace (engine a)
  /\ (forall time progress p pattern,
        currentPatternIndex (engine a) = Some p ->
        resolved (layout (handleMixerChange w track change a).2) progress
        = Some (Some p) ->
        index (patterns (layout (handleMixerChange w track change a).2)) p
        = Some pattern ->
        channels (graph (tick time progress
                           (engine (handleMixerChange w track change a).2)).2)
        = channels (graph (engine a))).
Proof.
  unfold handleMixerChange.
  set (f := with_trackSettings (on_setting track (set_setting change))).
  rewrite (then_updateAll_spec w _ a (mutate_active_ok f a)).
  destruct (mutate_active_engine f a) as (Hg & Htr & Hcp & _).
  pose proof (mutate_active_layout f a) as Hlay.
  pose proof (updateAll_in_step w (mutate_active f a).2) as (Hstep & _).
  destruct (updateAll_session w (layout (mutate_active f a).2)
              (engine (mutate_active f a).2))
    as (_ & Hc & _ & _ & _ & _ & _ & Hp & _ & Ht).
  destruct (mutate_active f a) as [r a1]. cbn [fst snd] in *.
  set (e' := (updateAll w (layout a1) (engine a1)).2) in *.
  assert (He : engine (with_engine e' a1) = e') by now destruct a1.
  assert (Hl : layout (with_engine e' a1) = layout a1) by now destruct a1.
  rewrite He, Hl in *.
  assert (Hc' : channels (graph e') = channels (graph (engine a))).
  { rewrite Hc, <- Hg. now destruct (engine a1) as [[] ? ? ? ? ? ? ?]. }
  assert (Ht' : trace e' = trace (engine a)).
  { rewrite Ht, <- Htr. now destruct (engine a1) as [[] ? ? ? ? ? ? ?]. }
  assert (Hp' : currentPatternIndex e' = currentPatternIndex (engine a)).
  { rewrite Hp, <- Hcp. now destruct (engine a1) as [[] ? ? ? ? ? ? ?]. }
  split; [reflexivity|]. split; [|split; [exact Hc'|split; [exact Ht'|]]].
  - intros i Hi. now rewrite (Hlay i Hi).
  - intros time progress p pattern Hcur Hres Hpat.
    rewrite (tick_pattern _ _ _ _ _ _ Hstep Hres Hpat).
    rewrite decide_True by congruence. cbn [snd].
    rewrite <- Hc'. now destruct e' as [[] ? ? ? ? ? ? ?].
Qed.

(** An edit of an effect's wet amount is written to the active pattern
    and applied to the bass effects of the engine at once, whichever
    pattern the engine is on; the channel strips and the engine's current
    pattern index stay. With no pattern in the layout the edit is lost and
    the engine is given the effects of the getter's stand-in pattern. *)
Theorem effect_wet_edit_is_immediate effect value a :
  bassEffects (graph (engine (handleEffectWetChange effect value a).2))
  = effects_applied (effectsState (activePattern (handleEffectWetChange effect value a).2))
      (bassEffects (graph (engine a)))
  /\ (forall i, active_index a = Some i ->
        effect_of (effectsState (activePattern (handleEffectWetChange effect value a).2))
          effect
        = mkEffectState value (settings (effect_of (effectsState (activePattern a)) effect)))
  /\ (active_index a = None ->
        activePattern (handleEffectWetChange effect value a).2 = dummy_pattern)
  /\ channels (graph (engine (handleEffectWetChange effect value a).2))
     = channels (graph (engine a))
  /\ currentPatternIndex (engine (handleEffectWetChange effect value a).2)
     = currentPatternIndex (engine a).
Proof.
  unfold handleEffectWetChange.
  set (f := with_effectsState (on_effect effect (fun s => mkEffectState value (settings s)))).
  msimpl.
  pose proof (mutate_active_ok f a) as Hok.
  destruct (mutate_active_engine f a) as (Hg & _ & Hcp & _).
  pose proof (mutate_active_layout f a) as Hlay.
  assert (Hidx : activePatternIndex (mutate_active f a).2 = activePatternIndex a).
  { unfold mutate_active. msimpl. destruct (active_index a); [|reflexivity].
    rewrite mutate_layout_spec. now destruct a. }
  assert (Hnone : active_index a = None -> (mutate_active f a).2 = a).
  { intros Hn. unfold mutate_active. msimpl. now rewrite Hn. }
  destruct (mutate_active f a) as [r a1]. cbn [fst snd] in *. subst r.
  unfold on_engine. rewrite updateBassEffects_spec. cbn [snd].
  set (fx := effectsState (activePattern a1)).
  assert (Hact : activePattern
                   (with_engine
                      (log [ApplyBassEffects fx]
                         (with_graph (with_bassEffects (effects_applied fx)) (engine a1)))
                      a1)
                 = activePattern a1) by now apply activePattern_ext; destruct a1.
  rewrite Hact. fold fx.
  split; [|split; [|split; [|split]]].
  - rewrite <- Hg. destruct a1 as [? ? ? ? ? ? ? ? [[] ? ? ? ? ? ? ?]]. reflexivity.
  - intros i Hi. destruct (active_index_lookup a i Hi) as [pat Hpat].
    subst fx.
    rewrite (activePattern_ext (with_layout (with_patterns (alter f i)) a) a1).
    + rewrite (activePattern_alter a f i pat Hi Hpat).
      unfold activePattern. rewrite Hi, Hpat. cbn [default from_option].
      now destruct effect.
    + rewrite (Hlay i Hi). now destruct a.
    + rewrite Hidx. now destruct a.
  - intros Hn. rewrite (Hnone Hn). unfold activePattern. now rewrite Hn.
  - rewrite <- Hg. destruct a1 as [? ? ? ? ? ? ? ? [[] ? ? ? ? ? ? ?]]. reflexivity.
  - rewrite <- Hcp. destruct a1 as [? ? ? ? ? ? ? ? [[] ? ? ? ? ? ? ?]]. reflexivity.
Qed.

Lemma arrangement_edit_spec w f a :
  (mutate_layout (with_arrangement f);; engine_updateAll w) a
  = (Ok tt,
     with_engine
       (updateAll w (with_arrangement f (layout a))
          (with_currentLayout (with_arrangement f <$> currentLayout (engine a)) (engine a))).2
       (with_layout (with_arrangement f) a)).
Proof.
  rewrite (then_updateAll_spec w (mutate_layout (with_arrangement f)) a eq_refl).
  rewrite mutate_layout_spec. cbn [snd]. now destruct a.
Qed.

Lemma arrangement_edit_layout w f a :
  layout ((mutate_layout (with_arrangement f);; engine_updateAll w) a).2
  = with_arrangement f (layout a)
  /\ currentLayout (engine ((mutate_layout (with_arrangement f);; engine_updateAll w) a).2)
     = Some (with_arrangement f (layout a)).
Proof.
  rewrite arrangement_edit_spec. cbn [snd].
  destruct (updateAll_session w (with_arrangement f (layout a))
              (with_currentLayout (with_arrangement f <$> currentLayout (engine a))
                 (engine a)))
    as (_ & _ & _ & _ & _ & _ & Hl & _).
  split; [now destruct a|].
  destruct a as [? ? ? ? ? ? ? ? e]. cbn in *. rewrite Hl.
  now destruct e as [[] ? ? ? ? ? ? ?].
Qed.

(** Assigning a pattern index to a bar of the timeline keeps the layout
    playable exactly when the layout has a pattern at that index. The
    handler itself accepts any index, and a dropped text may parse to any
    integer. *)
Theorem assign_keeps_playable w barIndex patternIndex a :
  (barIndex < List.length (arrangement (layout a)))%nat ->
  well_formed (layout a) ->
  (assignPatternToBar w barIndex patternIndex a).1 = Ok tt
  /\ arrangement (layout (assignPatternToBar w barIndex patternIndex a).2)
     = <[barIndex := Some patternIndex]> (arrangement (layout a))
  /\ patterns (layout (assignPatternToBar w barIndex patternIndex a).2)
     = patterns (layout a)
  /\ (well_formed (layout (assignPatternToBar w barIndex patternIndex a).2)
      <-> is_Some (index (patterns (layout a)) patternIndex)).
Proof.
  intros Hlt Hwf. unfold assignPatternToBar.
  destruct (arrangement_edit_layout w (<[barIndex := Some patternIndex]>) a) as [Hl _].
  rewrite Hl. split; [now rewrite arrangement_edit_spec|].
  destruct a as [[ps arr ? ? ?] ? ? ? ? ? ? ? ?]. cbn in *.
  split; [reflexivity|]. split; [reflexivity|].
  unfold well_formed in *. cbn in *. split.
  - intros H. rewrite Forall_lookup in H.
    apply (H barIndex (Some patternIndex)).
    now apply list_lookup_insert_eq.
  - intros Hp. apply Forall_insert; assumption.
Qed.

(** Clearing a bar of the timeline keeps a playable layout playable; from
    then on a tick that lands on the bar only releases the bass, and the
    bar contributes nothing to a render. *)
Theorem clear_bar_silences w barIndex a :
  (barIndex < List.length (arrangement (layout a)))%nat ->
  (clearArrangementBar w barIndex a).1 = Ok tt
  /\ (well_formed (layout a) -> well_formed (layout (clearArrangementBar w barIndex a).2))
  /\ (forall time progress,
        bar_of (layout (clearArrangementBar w barIndex a).2) progress = Z.of_nat barIndex ->
        tick time progress (engine (clearArrangementBar w barIndex a).2)
        = (Ok tt, log [TriggerRelease Bass time]
                    (engine (clearArrangementBar w barIndex a).2)))
  /\ (forall tempo barDuration,
        bar_plan (layout (clearArrangementBar w barIndex a).2) tempo barDuration barIndex
        = []).
Proof.
  intros Hlt. unfold clearArrangementBar.
  destruct (arrangement_edit_layout w (<[barIndex := None]>) a) as [Hl He].
  split; [now rewrite arrangement_edit_spec|].
  assert (Hbar : arrangement (with_arrangement (<[barIndex := None]>) (layout a)) !! barIndex
                 = Some None).
  { destruct a as [[ps arr ? ? ?] ? ? ? ? ? ? ? ?]. cbn in *.
    now apply list_lookup_insert_eq. }
  split; [|split].
  - intros Hwf. rewrite Hl. unfold well_formed in *.
    destruct a as [[ps arr ? ? ?] ? ? ? ? ? ? ? ?]. cbn in *.
    apply Forall_insert; [exact Hwf|exact I].
  - intros time progress Hb. apply (tick_empty _ _ _ _ He).
    rewrite Hl in Hb. unfold resolved. rewrite Hb. unfold index.
    rewrite (proj2 (Z.ltb_ge _ _)) by lia. now rewrite Nat2Z.id.
  - intros tempo barDuration. rewrite Hl. unfold bar_plan. now rewrite Hbar.
Qed.

(** Selecting a sample on an initialised engine: the library closes, and
    the engine plays the new sampler from then on whether or not the
    sample loads; the layout takes the new sample only when it does, and
    otherwise keeps the old one while the engine no longer plays it. *)
Theorem sample_selection_outcome w track url a :
  isInitialized (engine a) = true ->
  (handleSampleSelected w track url a).1 = Ok tt
  /\ isLibraryOpen (handleSampleSelected w track url a).2 = false
  /\ sampler_of (instruments (graph (engine (handleSampleSelected w track url a).2))) track
     = new_sampler url
  /\ layout (handleSampleSelected w track url a).2
     = if forallb (fetch_ok w) (pending (engine a) ++ [full_url (new_sampler url)])
       then with_sampleSettings (fun s => set_sample s track url) (layout a)
       else layout a.
Proof.
  intros Hi. unfold handleSampleSelected. msimpl. rewrite showNotification_spec.
  lazy beta iota. unfold try_catch. msimpl.
  set (a1 := if has_toast (with_isLibraryOpen false a) then _ else _).
  assert (He1 : engine a1 = engine a) by (subst a1; now destruct a as [? ? ? ? ? []]).
  assert (Hl1 : layout a1 = layout a) by (subst a1; now destruct a as [? ? ? ? ? []]).
  assert (Ho1 : isLibraryOpen a1 = false) by (subst a1; now destruct a as [? ? ? ? ? []]).
  clearbody a1.
  unfold on_engine. rewrite He1, (loadSample_initialized _ _ _ _ Hi).
  set (e' := with_pending _ _).
  assert (Hs : sampler_of (instruments (graph e')) track = new_sampler url).
  { subst e'. destruct (engine a) as [[? ? ins ?] ? ? ? ? ? ? ?]. cbn.
    rewrite sampler_of_set_sampler. now rewrite decide_True. }
  clearbody e'.
  destruct (forallb _ _).
  - rewrite mutate_layout_spec. lazy beta iota. rewrite showNotification_spec.
    cbn [fst snd]. rewrite <- Hl1.
    destruct a1 as [? ? ? ? ? [] ? ? ?]; cbn in *; subst; destruct e' as [[] ? ? ? ? ? ? ?];
      cbn in *; auto.
  - rewrite showNotification_spec. cbn [fst snd]. rewrite <- Hl1.
    destruct a1 as [? ? ? ? ? [] ? ? ?]; cbn in *; subst; auto.
Qed.

(** ** MIDI messages *)

Lemma status_nibble command :
  0 <= command < 256 -> Z.land command 0xF0 = 16 * (command / 16).
Proof.
  intros H.
  assert (Hall : forallb (fun n => Z.land (Z.of_nat n) 0xF0 =? 16 * (Z.of_nat n / 16))
                   (seq 0 256) = true) by (vm_compute; reflexivity).
  rewrite forallb_forall in Hall.
  specialize (Hall (Z.to_nat command)).
  rewrite Z2Nat.id in Hall by lia.
  apply Z.eqb_eq, Hall, in_seq. lia.
Qed.

(** For a message of three bytes or more the dispatch depends on the
    high four bits of the status byte alone, so the MIDI channel in the
    low four bits is ignored: a note-on ([9]) with a positive velocity is
    a note-on, a note-on with velocity 0 is dispatched as the note-off
    ([8]) it stands for, a control change ([11]) is passed on, and every
    other status dispatches nothing. *)
Theorem midi_dispatch_by_status command note velocity rest :
  0 <= command < 256 ->
  onMIDIMessage (command :: note :: velocity :: rest)
  = if command / 16 =? 9
    then (if 0 <? velocity then [MidiNoteOn note velocity]
          else [MidiNoteOff (Some note) (Some velocity)])
    else if command / 16 =? 8 then [MidiNoteOff (Some note) (Some velocity)]
    else if command / 16 =? 11 then [MidiControlChange (Some note) (Some velocity)]
    else [].
Proof.
  intros H. unfold onMIDIMessage. cbn [lookup list_lookup].
  rewrite (status_nibble _ H).
  assert (Hq : 0 <= command / 16 < 16) by (split; [apply Z.div_pos|apply Z.div_lt_upper_bound]; lia).
  change 0x90 with (16 * 9). change 0x80 with (16 * 8). change 0xB0 with (16 * 11).
  destruct (Z.eqb_spec (command / 16) 9) as [->|H9]; [reflexivity|].
  rewrite (proj2 (Z.eqb_neq _ _)) by lia.
  destruct (Z.eqb_spec (command / 16) 8) as [->|H8]; [reflexivity|].
  rewrite (proj2 (Z.eqb_neq _ _)) by lia.
  destruct (Z.eqb_spec (command / 16) 11) as [->|H11]; [reflexivity|].
  now rewrite (proj2 (Z.eqb_neq _ _)) by lia.
Qed.

(** ** Prompt colours and prompt slots *)

Lemma sort_by_count_head (l : list (string * nat)) :
  match sort_by_count l with
  | [] => l = []
  | m :: _ =>
      exists i, l !! i = Some m
        /\ forall j z, l !! j = Some z ->
             (m.2 <= z.2)%nat /\ ((j < i)%nat -> (m.2 < z.2)%nat)
  end.
Proof.
  induction l as [|x l IH]; [reflexivity|].
  cbn [sort_by_count foldr]. fold (sort_by_count l).
  destruct (sort_by_count l) as [|y sorted].
  - subst l. cbn. exists 0%nat. split; [reflexivity|].
    intros [|j] z Hz; [|discriminate]. injection Hz as <-. lia.
  - destruct IH as (i & Hi & Hmin). cbn [insert_by_count].
    destruct (Nat.leb_spec x.2 y.2) as [Hle|Hgt].
    + exists 0%nat. split; [reflexivity|].
      intros [|j] z Hz.
      * injection Hz as <-. lia.
      * destruct (Hmin j z Hz) as [Hyz _]. lia.
    + exists (S i). split; [exact Hi|].
      intros [|j] z Hz.
      * injection Hz as <-. lia.
      * destruct (Hmin j z Hz) as [Hyz Hlt]. split; [exact Hyz|]. intros Hj.
        apply Hlt. lia.
Qed.

(** The colour of a new prompt is a colour of the palette that the
    prompts of the pattern use least, and among those the first of the
    palette: every colour before it is used strictly more often. *)
Theorem new_prompt_color_least_used (prompts : list (option Prompt)) :
  exists i,
    palette !! i = Some (getNewPromptColor prompts)
    /\ forall j c, palette !! j = Some c ->
         (color_count (omap (fmap color) prompts) (getNewPromptColor prompts)
          <= color_count (omap (fmap color) prompts) c)%nat
         /\ ((j < i)%nat ->
             (color_count (omap (fmap color) prompts) (getNewPromptColor prompts)
              < color_count (omap (fmap color) prompts) c)%nat).
Proof.
  unfold getNewPromptColor.
  set (used := omap (fmap color) prompts).
  pose proof (sort_by_count_head (map (fun c => (c, color_count used c)) palette)) as H.
  destruct (sort_by_count _) as [|m sorted]; [discriminate H|].
  destruct H as (i & Hi & Hmin). exists i.
  rewrite list_lookup_fmap in Hi.
  destruct (palette !! i) as [c|] eqn:Hc; [|discriminate].
  injection Hi as <-. cbn [fst snd] in *. split; [reflexivity|].
  intros j c' Hc'.
  apply (Hmin j (c', color_count used c')).
  now rewrite list_lookup_fmap, Hc'.
Qed.

Lemma fresh_texts_same l : fresh_texts l l = [].
Proof. induction l as [|[p|] l IH]; cbn; auto. Qed.

Lemma emptySlots_cons (slot : option Prompt) rest :
  emptySlots (slot :: rest)
  = ((if is_null slot then 1 else 0) + emptySlots rest)%nat.
Proof. unfold emptySlots. cbn. now destruct (is_null slot). Qed.

Lemma randomize_from_suffix newId before after texts :
  exists suffix,
    (randomize_from newId before after texts).1 = before ++ suffix
    /\ List.length suffix = List.length after
    /\ (randomize_from newId before after texts).2
       = Nat.min (emptySlots after) (List.length texts)
    /\ (forall i p, after !! i = Some (Some p) -> suffix !! i = Some (Some p))
    /\ emptySlots suffix
       = (emptySlots after - (randomize_from newId before after texts).2)%nat
    /\ fresh_texts after suffix
       = take (randomize_from newId before after texts).2 texts
    /\ (forall i, after !! i = Some None ->
          suffix !! i
          = match texts !! emptySlots (take i after) with
            | Some t =>
                Some (Some (mkPrompt (newId (List.length before + i)%nat) t (lit 0)
                              (getNewPromptColor (before ++ take i suffix ++ drop i after))
                              false None))
            | None => Some None
            end).
Proof.
  revert before texts. induction after as [|slot rest IH]; intros before texts.
  - exists []. cbn. rewrite app_nil_r. repeat split; try reflexivity.
    + intros i p Hi. discriminate.
    + intros i Hi. discriminate.
  - destruct texts as [|t texts'].
    + exists (slot :: rest).
      assert (Hr : randomize_from newId before (slot :: rest) [] = (before ++ slot :: rest, 0%nat))
        by now destruct slot.
      rewrite Hr. cbn [fst snd]. rewrite fresh_texts_same, Nat.min_0_r, Nat.sub_0_r.
      repeat split; auto.
    + destruct slot as [p|].
      * cbn [randomize_from].
        destruct (IH (before ++ [Some p]) (t :: texts'))
          as (suffix & Hpre & Hlen & Hn & Hkeep & Hempty & Hfresh & Hfill).
        exists (Some p :: suffix). rewrite Hpre, <- app_assoc. cbn [app].
        split; [reflexivity|]. split; [cbn; now rewrite Hlen|].
        split; [exact Hn|]. split.
        { intros [|i] q Hq; [exact Hq|]. now apply Hkeep. }
        split; [exact Hempty|]. split; [exact Hfresh|].
        intros [|i] Hi; [discriminate|].
        change (rest !! i = Some None) in Hi.
        change ((Some p :: suffix) !! S i) with (suffix !! i).
        rewrite (Hfill i Hi). cbn [take drop]. rewrite emptySlots_cons. cbn [is_null].
        rewrite Nat.add_0_l, length_app, <- app_assoc. cbn [List.length app].
        now replace (List.length before + 1 + i)%nat with (List.length before + S i)%nat
          by lia.
      * cbn [randomize_from].
        set (newPrompt := mkPrompt _ _ _ _ _ _).
        destruct (IH (before ++ [Some newPrompt]) texts')
          as (suffix & Hpre & Hlen & Hn & Hkeep & Hempty & Hfresh & Hfill).
        destruct (randomize_from newId (before ++ [Some newPrompt]) rest texts')
          as [prompts added].
        cbn [fst snd] in *.
        exists (Some newPrompt :: suffix). rewrite Hpre, <- app_assoc. cbn [app].
        split; [reflexivity|]. split; [cbn; now rewrite Hlen|].
        split; [unfold emptySlots in *; cbn; now rewrite Hn|]. split.
        { intros [|i] q Hq; [discriminate|]. now apply Hkeep. }
        split.
        { unfold emptySlots in *. cbn. rewrite Hempty. reflexivity. }
        split; [cbn; now rewrite Hfresh|].
        intros [|i] Hi.
        -- cbn. subst newPrompt. now rewrite Nat.add_0_r.
        -- change (rest !! i = Some None) in Hi.
           change ((Some newPrompt :: suffix) !! S i) with (suffix !! i).
           rewrite (Hfill i Hi). cbn [take drop]. rewrite emptySlots_cons. cbn [is_null].
           change ((t :: texts') !! (1 + emptySlots (take i rest))%nat)
             with (texts' !! emptySlots (take i rest)).
           rewrite length_app, <- app_assoc. cbn [List.length app].
           now replace (List.length before + 1 + i)%nat with (List.length before + S i)%nat
             by lia.
Qed.

(** Randomising fills the empty slots of the prompt array from the
    front, one generated text each and in the order the texts came, until
    slots or texts run out: the number added is the smaller of the two
    counts, the array keeps its length, and no prompt that was there is
    touched. Every slot is pinned: an empty slot with [k] empty slots
    before it receives text [k] when there is one, with weight 0, the id
    minted for the slot and the colour picked from the array as it stands
    when the loop reaches the slot, and stays empty otherwise. *)
Theorem randomize_fills_empty_slots newId (prompts : list (option Prompt)) texts :
  List.length (randomize_from newId [] prompts texts).1 = List.length prompts
  /\ (randomize_from newId [] prompts texts).2
     = Nat.min (emptySlots prompts) (List.length texts)
  /\ (forall i p, prompts !! i = Some (Some p) ->
        (randomize_from newId [] prompts texts).1 !! i = Some (Some p))
  /\ emptySlots (randomize_from newId [] prompts texts).1
     = (emptySlots prompts - (randomize_from newId [] prompts texts).2)%nat
  /\ fresh_texts prompts (randomize_from newId [] prompts texts).1
     = take (randomize_from newId [] prompts texts).2 texts
  /\ (forall i, prompts !! i = Some None ->
        (randomize_from newId [] prompts texts).1 !! i
        = match texts !! emptySlots (take i prompts) with
          | Some t =>
              Some (Some (mkPrompt (newId i) t (lit 0)
                            (getNewPromptColor
                               (take i (randomize_from newId [] prompts texts).1
                                ++ drop i prompts))
                            false None))
          | None => Some None
          end).
Proof.
  destruct (randomize_from_suffix newId [] prompts texts)
    as (suffix & Hpre & Hlen & Hn & Hkeep & Hempty & Hfresh & Hfill).
  rewrite Hpre. cbn [app]. repeat split; auto.
Qed.

(** ** MIDI learn *)

Lemma find_prompt_Some test (ps : list (option Prompt)) i :
  find_prompt test ps = Some i ->
  exists p, ps !! i = Some (Some p) /\ test p = true
            /\ find_prompt test (take i ps) = None.
Proof.
  revert i. induction ps as [|[p|] ps IH]; intros i; cbn [find_prompt].
  - discriminate.
  - destruct (test p) eqn:Ht.
    + intros [= <-]. exists p. auto.
    + destruct (find_prompt test ps) as [k|]; [|discriminate].
      intros [= <-]. destruct (IH k eq_refl) as (q & Hq & Htq & Hnone).
      exists q. cbn. now rewrite Ht, Hnone.
  - destruct (find_prompt test ps) as [k|]; [|discriminate].
    intros [= <-]. destruct (IH k eq_refl) as (q & Hq & Htq & Hnone).
    exists q. cbn. now rewrite Hnone.
Qed.

Lemma find_prompt_first test (ps : list (option Prompt)) i p :
  find_prompt test (take i ps) = None ->
  ps !! i = Some (Some p) -> test p = true ->
  find_prompt test ps = Some i.
Proof.
  revert i. induction ps as [|[q|] ps IH]; intros [|i]; cbn; try discriminate.
  - intros _ [= ->] ->. reflexivity.
  - destruct (test q); [discriminate|].
    destruct (find_prompt test (take i ps)) eqn:Hf; [discriminate|].
    intros _ Hp Ht. now rewrite (IH i Hf Hp Ht).
  - destruct (find_prompt test (take i ps)) eqn:Hf; [discriminate|].
    intros _ Hp Ht. now rewrite (IH i Hf Hp Ht).
Qed.

Lemma find_prompt_alter test f (ps : list (option Prompt)) i :
  (forall p, test (f p) = test p) ->
  find_prompt test (alter (fmap f) i ps) = find_prompt test ps.
Proof.
  intros Hf. revert i. induction ps as [|[q|] ps IH]; intros [|i]; cbn; auto.
  - now rewrite Hf.
  - now rewrite IH.
  - now rewrite IH.
Qed.

Lemma take_alter_same {A} (f : A -> A) i (l : list A) :
  take i (alter f i l) = take i l.
Proof. revert i. induction l as [|x l IH]; intros [|i]; cbn; auto. now rewrite IH. Qed.

(** A control change received while a prompt is learning binds the
    controller to that prompt, changes no weight and ends the learning.
    From then on a control change of that controller sets the weight of
    the prompt to the value over 127 and asks for a new timbre, provided
    no prompt before it in the array listens to the same controller. *)
Theorem midi_learn_binds_controller controller value (s : MidiState) learning i :
  isMidiLearning s = Some learning ->
  find_prompt (has_id learning) (prompts s) = Some i ->
  isMidiLearning (handleMidiControlChange controller value s) = None
  /\ prompts (handleMidiControlChange controller value s)
     = alter (fmap (with_cc (Some controller))) i (prompts s)
  /\ timbreRequested (handleMidiControlChange controller value s) = timbreRequested s
  /\ (find_prompt (has_cc controller) (take i (prompts s)) = None ->
      forall value',
        prompts (handleMidiControlChange controller value'
                   (handleMidiControlChange controller value s))
        = alter (fmap (with_weight (num_of_Q (value' # 127)))) i
            (alter (fmap (with_cc (Some controller))) i (prompts s))
        /\ timbreRequested (handleMidiControlChange controller value'
                              (handleMidiControlChange controller value s)) = true).
Proof.
  intros Hlearn Hfind.
  assert (Hs1 : handleMidiControlChange controller value s
                = mkMidiState None (alter (fmap (with_cc (Some controller))) i (prompts s))
                    (timbreRequested s)).
  { unfold handleMidiControlChange. now rewrite Hlearn, Hfind. }
  rewrite Hs1. cbn [isMidiLearning prompts timbreRequested].
  split; [reflexivity|]. split; [reflexivity|]. split; [reflexivity|].
  intros Hfree value'.
  destruct (find_prompt_Some _ _ _ Hfind) as (p & Hp & Hid & _).
  set (ps1 := alter (fmap (with_cc (Some controller))) i (prompts s)).
  assert (Hp1 : ps1 !! i = Some (Some (with_cc (Some controller) p))).
  { subst ps1. now rewrite list_lookup_alter_eq, Hp. }
  assert (Hcc : find_prompt (has_cc controller) ps1 = Some i).
  { apply (find_prompt_first _ _ _ (with_cc (Some controller) p)).
    - subst ps1. now rewrite take_alter_same.
    - exact Hp1.
    - unfold has_cc. cbn. now apply bool_decide_eq_true. }
  assert (Hid1 : find_prompt (has_id learning) ps1 = Some i).
  { subst ps1. rewrite find_prompt_alter; [exact Hfind|]. now intros []. }
  unfold handleMidiControlChange. cbn [isMidiLearning prompts timbreRequested].
  rewrite Hcc, Hp1. unfold handlePromptWeightChange.
  assert (Hpid : promptId (with_cc (Some controller) p) = learning).
  { unfold has_id in Hid. now apply bool_decide_eq_true in Hid. }
  rewrite Hpid, Hid1. cbn [prompts timbreRequested].
  split; [reflexivity|]. apply orb_true_r.
Qed.

(** ** Export *)

Lemma on_core_notice message c :
  on_core (showNotification message) c = (Ok tt, with_core (notice message) c).
Proof.
  unfold on_core. rewrite showNotification_spec. unfold notice. now destruct c.
Qed.

Lemma handleExport_run w c :
  handleExport w c
  = (Ok tt,
     with_isRendering false
       (match renderSong w (transport_bpm (transport (engine (core c)))) (layout (core c)) with
        | Ok wav =>
            with_core (notice "Export complete!")
              (with_downloads (fun d => d ++ [wav])
                 (with_core (notice "Rendering song...") (with_isRendering true c)))
        | Throw e =>
            with_core (notice "Export failed. See console for details.")
              (with_core (with_app_console (fun t => t ++ ["Export failed " +:+ e]))
                 (with_core (notice "Rendering song...") (with_isRendering true c)))
        end)).
Proof.
  unfold handleExport. msimpl. rewrite on_core_notice. lazy beta iota.
  unfold try_catch. msimpl.
  set (c1 := with_core (notice "Rendering song...") (with_isRendering true c)).
  assert (He : engine (core c1) = engine (core c)).
  { subst c1. unfold notice. now destruct c as [[? ? ? ? ? [] ? ? ?] ? ? ? ? ? ?]. }
  assert (Hl : layout (core c1) = layout (core c)).
  { subst c1. unfold notice. now destruct c as [[? ? ? ? ? [] ? ? ?] ? ? ? ? ? ?]. }
  rewrite He, Hl. clearbody c1.
  destruct (renderSong w _ (layout (core c))) as [wav|e].
  - msimpl. now rewrite on_core_notice.
  - msimpl. unfold on_core at 1. msimpl. cbn [fst snd].
    rewrite on_core_notice. now destruct c1.
Qed.

(** An export never throws and always ends with the rendering flag
    down; it leaves the layout and the engine alone. In a component whose
    engine is in step, a file is offered for download exactly when the
    samples of the layout load and every bar is playable, and it is the
    render at the layout's own tempo; otherwise nothing is offered and the
    failure is notified. *)
Theorem export_outcome w c :
  in_step (core c) ->
  (handleExport w c).1 = Ok tt
  /\ isRendering (handleExport w c).2 = false
  /\ layout (core (handleExport w c).2) = layout (core c)
  /\ engine (core (handleExport w c).2) = engine (core c)
  /\ (forallb (fetch_ok w) (o_pending (offline_context (layout (core c)))) = true ->
      well_formed (layout (core c)) ->
      exists wav,
        renderSong w (bpm (layout (core c))) (layout (core c)) = Ok wav
        /\ downloads (handleExport w c).2 = downloads c ++ [wav]
        /\ (has_toast (core c) = true ->
            toasts (core (handleExport w c).2)
            = toasts (core c) ++ ["Rendering song..."; "Export complete!"]))
  /\ (~ (forallb (fetch_ok w) (o_pending (offline_context (layout (core c)))) = true
         /\ well_formed (layout (core c))) ->
      downloads (handleExport w c).2 = downloads c
      /\ (has_toast (core c) = true ->
          toasts (core (handleExport w c).2)
          = toasts (core c)
            ++ ["Rendering song..."; "Export failed. See console for details."])).
Proof.
  intros (_ & Ht & _). rewrite handleExport_run, Ht. cbn [fst snd].
  split; [reflexivity|].
  destruct (renderSong_cases w (bpm (layout (core c))) (layout (core c)))
    as [[Hl Hr]|[(Hl & Hn & Hr)|(Hl & Hwf & r & Hr)]]; rewrite Hr, Hl.
  - unfold notice. destruct c as [[? ? ? ? ? [] tt ? ?] ? ? ? ? ? ?]; cbn;
      repeat split; try discriminate; try tauto;
      intros; now rewrite <- app_assoc.
  - unfold notice. destruct c as [[? ? ? ? ? [] tt ? ?] ? ? ? ? ? ?]; cbn;
      repeat split; try discriminate; try tauto;
      intros; now rewrite <- app_assoc.
  - unfold notice. destruct c as [[? ? ? ? ? [] tt ? ?] ? ? ? ? ? ?]; cbn;
      (split; [reflexivity|]); (split; [reflexivity|]); (split; [reflexivity|]);
      (split; [|tauto]); intros _ _; exists r; repeat split; try discriminate;
      intros; now rewrite <- app_assoc.
Qed.

(** ** AI effects *)

Lemma bind_run {S A B} (m : M S A) (k : A -> M S B) s :
  (m ≫= k) s
  = match m s with
    | (Ok a, s') => k a s'
    | (Throw e, s') => (Throw e, s')
    end.
Proof. reflexivity. Qed.

Lemma try_catch_ok {S A} (body : M S A) handler s x s' :
  body s = (Ok x, s') -> try_catch body handler s = (Ok x, s').
Proof. intros H. unfold try_catch. now rewrite H. Qed.

Lemma on_core_run (m : M App unit) c :
  (m (core c)).1 = Ok tt ->
  on_core m c = (Ok tt, with_core (fun a => (m a).2) c).
Proof.
  unfold on_core, with_core. destruct c as [a0 ? ? ? ? ? ?]. cbn [core].
  destruct (m a0) as [r a]. cbn [fst snd]. now intros ->.
Qed.

Lemma active_index_ext a b :
  layout b = layout a -> activePatternIndex b = activePatternIndex a ->
  active_index b = active_index a.
Proof. intros Hl Hi. unfold active_index. now rewrite Hl, Hi. Qed.

Lemma mutate_active_spec f a i :
  active_index a = Some i ->
  mutate_active f a
  = (Ok tt,
     with_engine (with_currentLayout (with_patterns (alter f i) <$> currentLayout (engine a))
                    (engine a))
       (with_layout (with_patterns (alter f i)) a)).
Proof. intros Hi. unfold mutate_active. msimpl. now rewrite Hi. Qed.

(** The active pattern after one in-place edit of it. *)
Lemma mutate_active_pattern f a i pat :
  active_index a = Some i ->
  patterns (layout a) !! i = Some pat ->
  active_index (mutate_active f a).2 = Some i
  /\ patterns (layout (mutate_active f a).2) !! i = Some (f pat)
  /\ graph (engine (mutate_active f a).2) = graph (engine a)
  /\ isAiThinking (mutate_active f a).2 = isAiThinking a.
Proof.
  intros Hi Hp. rewrite (mutate_active_spec f a i Hi). cbn [snd]. split; [|split; [|split]].
  - rewrite <- Hi, <- (active_index_alter a f i). apply active_index_ext; now destruct a.
  - destruct a as [[ps ? ? ? ?] ? ? ? ? ? ? ? ?]. cbn in *.
    now rewrite list_lookup_alter_eq, Hp.
  - now destruct a as [? ? ? ? ? ? ? ? [[] ? ? ? ? ? ? ?]].
  - now destruct a.
Qed.

Lemma apply_active_effects_run a :
  (a' ← get; on_engine (updateBassEffects (effectsState (activePattern a')))) a
  = (Ok tt,
     with_engine
       (log [ApplyBassEffects (effectsState (activePattern a))]
          (with_graph (with_bassEffects (effects_applied (effectsState (activePattern a))))
             (engine a)))
       a).
Proof. unfold on_engine. msimpl. now rewrite updateBassEffects_spec. Qed.

(** A prompt that trims to nothing is refused before the AI is asked. *)
Lemma handleApplyAiEffects_blank ai c :
  blank (fxPromptText c) = true ->
  handleApplyAiEffects ai c
  = (Ok tt, with_core (notice "Please enter an effects prompt.") c).
Proof.
  intros Hb. unfold handleApplyAiEffects.
  rewrite bind_run. unfold gets at 1. cbv beta iota. rewrite Hb.
  apply on_core_notice.
Qed.

Lemma handleApplyAiEffects_run ai c d dl r :
  blank (fxPromptText c) = false ->
  ai (fxPromptText c) = FxObject d dl r ->
  handleApplyAiEffects ai c
  = (Ok tt,
     with_core (with_isAiThinking false)
       (with_core (notice "AI effects applied!")
          (with_core
             (fun a =>
                with_engine
                  (log [ApplyBassEffects (effectsState (activePattern a))]
                     (with_graph
                        (with_bassEffects
                           (effects_applied (effectsState (activePattern a))))
                        (engine a)))
                  a)
             (with_core
                (fun a => (mutate_active
                             (with_effectsState (on_effect FxReverb (settings_or_kept r)))
                             a).2)
                (with_core
                   (fun a => (mutate_active
                                (with_effectsState (on_effect FxDelay (settings_or_kept dl)))
                                a).2)
                   (with_core
                      (fun a => (mutate_active
                                   (with_effectsState
                                      (on_effect FxDistortion (settings_or_kept d)))
                                   a).2)
                      (with_core (with_isAiThinking true) c))))))).
Proof.
  intros Hb Hai. unfold handleApplyAiEffects.
  rewrite bind_run. unfold gets at 1. cbv beta iota. rewrite Hb, Hai.
  cbn [generateEffectsFromPrompt].
  rewrite bind_run, on_core_run by reflexivity. cbv beta iota.
  rewrite bind_run.
  erewrite try_catch_ok; [reflexivity|].
  rewrite bind_run, on_core_run by apply mutate_active_ok. cbv beta iota.
  rewrite bind_run, on_core_run by apply mutate_active_ok. cbv beta iota.
  rewrite bind_run, on_core_run by apply mutate_active_ok. cbv beta iota.
  rewrite bind_run, on_core_run by now rewrite apply_active_effects_run. cbv beta iota.
  rewrite on_core_notice.
  destruct c as [a0 ? ? ? ? ? ?]. unfold with_core.
  cbn [core isPlaying activeStep activeBar isRendering fxPromptText downloads].
  now rewrite apply_active_effects_run.
Qed.

(** Applying AI effects replaces, in the active pattern, the settings of
    each effect the reply has a group for and keeps the others; no wet
    amount changes. The engine's bass effects are set from the result at
    once, and the thinking flag is down at the end. *)
Theorem ai_effects_keep_wet ai c i pat d dl r :
  blank (fxPromptText c) = false ->
  active_index (core c) = Some i ->
  patterns (layout (core c)) !! i = Some pat ->
  ai (fxPromptText c) = FxObject d dl r ->
  (handleApplyAiEffects ai c).1 = Ok tt
  /\ effectsState (activePattern (core (handleApplyAiEffects ai c).2))
     = mkEffectsState
         (mkEffectState (wet (distortion (effectsState pat)))
            (default (settings (distortion (effectsState pat))) d))
         (mkEffectState (wet (delay (effectsState pat)))
            (default (settings (delay (effectsState pat))) dl))
         (mkEffectState (wet (reverb (effectsState pat)))
            (default (settings (reverb (effectsState pat))) r))
  /\ bassEffects (graph (engine (core (handleApplyAiEffects ai c).2)))
     = effects_applied
         (effectsState (activePattern (core (handleApplyAiEffects ai c).2)))
         (bassEffects (graph (engine (core c))))
  /\ isAiThinking (core (handleApplyAiEffects ai c).2) = false.
Proof.
  intros Hb Hi Hp Hai. rewrite (handleApplyAiEffects_run ai c d dl r Hb Hai).
  cbn [fst snd]. split; [reflexivity|].
  set (f1 := with_effectsState (on_effect FxDistortion (settings_or_kept d))).
  set (f2 := with_effectsState (on_effect FxDelay (settings_or_kept dl))).
  set (f3 := with_effectsState (on_effect FxReverb (settings_or_kept r))).
  set (a0 := with_isAiThinking true (core c)).
  assert (Hi0 : active_index a0 = Some i) by (subst a0; now destruct (core c)).
  assert (Hp0 : patterns (layout a0) !! i = Some pat) by (subst a0; now destruct (core c)).
  assert (Hg0 : graph (engine a0) = graph (engine (core c)))
    by (subst a0; now destruct (core c)).
  destruct (mutate_active_pattern f1 a0 i pat Hi0 Hp0) as (Hi1 & Hp1 & Hg1 & _).
  set (a1 := (mutate_active f1 a0).2) in *.
  destruct (mutate_active_pattern f2 a1 i (f1 pat) Hi1 Hp1) as (Hi2 & Hp2 & Hg2 & _).
  set (a2 := (mutate_active f2 a1).2) in *.
  destruct (mutate_active_pattern f3 a2 i (f2 (f1 pat)) Hi2 Hp2) as (Hi3 & Hp3 & Hg3 & _).
  set (a3 := (mutate_active f3 a2).2) in *.
  assert (Hact : activePattern a3 = f3 (f2 (f1 pat))).
  { unfold activePattern. now rewrite Hi3, Hp3. }
  assert (Hcore : core
                    (with_core (with_isAiThinking false)
                       (with_core (notice "AI effects applied!")
                          (with_core (fun a => with_engine (log [ApplyBassEffects (effectsState (activePattern a))] (with_graph (with_bassEffects (effects_applied (effectsState (activePattern a)))) (engine a))) a)
                             (with_core (fun a => (mutate_active f3 a).2)
                                (with_core (fun a => (mutate_active f2 a).2)
                                   (with_core (fun a => (mutate_active f1 a).2)
                                      (with_core (with_isAiThinking true) c)))))))
                  = with_isAiThinking false
                      (notice "AI effects applied!"
                         (with_engine
                            (log [ApplyBassEffects (effectsState (activePattern a3))]
                               (with_graph
                                  (with_bassEffects
                                     (effects_applied (effectsState (activePattern a3))))
                                  (engine a3)))
                            a3))) by now destruct c.
  rewrite Hcore. clear Hcore.
  set (final := with_isAiThinking false _).
  assert (Hl : layout final = layout a3)
    by (subst final; unfold notice; now destruct a3 as [? ? ? ? ? [] ? ? ?]).
  assert (Hx : activePatternIndex final = activePatternIndex a3)
    by (subst final; unfold notice; now destruct a3 as [? ? ? ? ? [] ? ? ?]).
  assert (Hth : isAiThinking final = false)
    by (subst final; unfold notice; now destruct a3 as [? ? ? ? ? [] ? ? ?]).
  assert (He : bassEffects (graph (engine final))
               = effects_applied (effectsState (activePattern a3))
                   (bassEffects (graph (engine a3)))).
  { subst final. unfold notice.
    now destruct a3 as [? ? ? ? ? [] ? ? [[] ? ? ? ? ? ? ?]]. }
  rewrite (activePattern_ext a3 final Hl Hx), He, Hact, Hth, Hg3, Hg2, Hg1, Hg0.
  split; [|split; reflexivity].
  subst f1 f2 f3. now destruct pat as [? ? [[] [] []] ?].
Qed.

(** ** The transport button *)

Lemma start_run w e :
  start w e
  = match initialize w e with
    | (Ok _, e') =>
        (Ok tt,
         match currentLayout e with
         | Some layout =>
             with_transport
               (fun t => mkTransport (transport_bpm t) true true
                           (Some (List.length (arrangement layout))) true) e'
         | None => e'
         end)
    | (Throw err, e') => (Throw err, e')
    end.
Proof.
  destruct (initialize_frame w e) as (_ & _ & Hcl & _ & _).
  unfold start. msimpl.
  destruct (initialize w e) as [[[]|err] e']; cbn [fst snd] in *; [|reflexivity].
  rewrite Hcl. destruct (currentLayout e); [|reflexivity].
  now destruct e' as [? ? ? ? [] ? ? ?].
Qed.

Lemma engine_call_quiet {A} (m : M Engine A) c :
  trace (m (engine (core c))).2 = trace (engine (core c)) ->
  engine_call m c
  = ((m (engine (core c))).1,
     with_core (with_engine (m (engine (core c))).2) c).
Proof.
  intros Ht. unfold engine_call, on_core, on_engine.
  destruct c as [a ? ? ? ? ? ?]. cbn [core] in *.
  destruct (m (engine a)) as [r e']. cbn [fst snd] in *.
  assert (He : engine (core (with_core (fun _ => with_engine e' a)
                               (mkComponent a isPlaying0 activeStep0 activeBar0
                                  isRendering0 fxPromptText0 downloads0))) = e')
    by now destruct a.
  rewrite He, Ht, drop_all. now destruct a.
Qed.

Lemma togglePlay_stop w c :
  isPlaying c = true ->
  togglePlay w c
  = (Ok tt,
     with_activeBar (-1)
       (with_activeStep (-1)
          (with_isPlaying false
             (with_activeBar (-1)
                (with_activeStep (-1)
                   (with_core (with_engine (stop (engine (core c))).2) c)))))).
Proof.
  intros Hp. unfold togglePlay. rewrite bind_run. unfold gets at 1. cbv beta iota.
  rewrite Hp. rewrite bind_run.
  assert (Hcall : engine_call stop c
                  = (Ok tt,
                     with_activeBar (-1)
                       (with_activeStep (-1)
                          (with_core (with_engine (stop (engine (core c))).2) c)))).
  { unfold engine_call, on_core, on_engine. rewrite stop_spec.
    destruct c as [a ? ? ? ? ? ?]. cbn [core fst snd].
    assert (Ht : trace (engine (core (with_core
                   (fun _ => with_engine
                      (with_transport
                         (fun t => mkTransport (transport_bpm t) false false
                                     (mainLoop_iterations t) false)
                         (with_currentPatternIndex None
                            (log [StepChange (-1) (-1); MetersSilenced] (engine a)))) a)
                   (mkComponent a isPlaying0 activeStep0 activeBar0 isRendering0
                      fxPromptText0 downloads0))))
                 = trace (engine a) ++ [StepChange (-1) (-1); MetersSilenced]).
    { destruct a as [? ? ? ? ? ? ? ? []]. reflexivity. }
    rewrite Ht, drop_app_length. cbn [fold_left onStepChange].
    now destruct a. }
  rewrite Hcall. reflexivity.
Qed.

Lemma togglePlay_start w c :
  isPlaying c = false ->
  togglePlay w c
  = match start w (engine (core c)) with
    | (Ok _, e') => (Ok tt, with_isPlaying true (with_core (with_engine e') c))
    | (Throw err, e') => (Throw err, with_core (with_engine e') c)
    end.
Proof.
  intros Hp. unfold togglePlay. rewrite bind_run. unfold gets at 1. cbv beta iota.
  rewrite Hp. rewrite bind_run.
  destruct (initialize_frame w (engine (core c))) as (_ & Htr & _ & _ & _).
  rewrite engine_call_quiet.
  - now destruct (start w (engine (core c))) as [[[]|err] e'].
  - rewrite start_run.
    destruct (initialize w (engine (core c))) as [[[]|err] e'];
      cbn [fst snd] in *; [|exact Htr].
    destruct (currentLayout (engine (core c))); [|exact Htr].
    rewrite <- Htr. now destruct e'.
Qed.

(** The transport button. While playing it stops the engine: the
    transport is stopped, the current pattern index forgotten, and the
    playhead off. While stopped it starts the engine and then shows
    playing, also when the engine holds no layout and has started nothing;
    when the engine cannot be initialised the rejection escapes and the
    button keeps showing stopped. *)
Theorem toggle_play w c :
  (isPlaying c = true ->
   (togglePlay w c).1 = Ok tt
   /\ isPlaying (togglePlay w c).2 = false
   /\ activeStep (togglePlay w c).2 = -1
   /\ activeBar (togglePlay w c).2 = -1
   /\ transport_started (transport (engine (core (togglePlay w c).2))) = false
   /\ currentPatternIndex (engine (core (togglePlay w c).2)) = None)
  /\ (isPlaying c = false ->
      (initialize w (engine (core c))).1 = Ok tt ->
      (togglePlay w c).1 = Ok tt
      /\ isPlaying (togglePlay w c).2 = true
      /\ transport_started (transport (engine (core (togglePlay w c).2)))
         = match currentLayout (engine (core c)) with
           | Some _ => true
           | None => transport_started (transport (engine (core c)))
           end)
  /\ (isPlaying c = false ->
      forall err, (initialize w (engine (core c))).1 = Throw err ->
      (togglePlay w c).1 = Throw err
      /\ isPlaying (togglePlay w c).2 = false
      /\ transport (engine (core (togglePlay w c).2)) = transport (engine (core c))).
Proof.
  split; [|split].
  - intros Hp. rewrite (togglePlay_stop w c Hp), stop_spec. cbn [fst snd].
    destruct c as [[? ? ? ? ? ? ? ? [? ? ? ? [] ? ? ?]] ? ? ? ? ? ?]. cbn. tauto.
  - intros Hp Hok. rewrite (togglePlay_start w c Hp), start_run.
    destruct (initialize_frame w (engine (core c))) as (Ht & _).
    destruct (initialize w (engine (core c))) as [[[]|err] e'];
      cbn [fst snd] in *; [|discriminate].
    destruct (currentLayout (engine (core c))).
    + destruct c as [[] ? ? ? ? ? ?]. destruct e' as [? ? ? ? [] ? ? ?]. cbn. tauto.
    + destruct c as [[] ? ? ? ? ? ?]. cbn in *. rewrite <- Ht. tauto.
  - intros Hp err Herr. rewrite (togglePlay_start w c Hp), start_run.
    destruct (initialize_frame w (engine (core c))) as (Ht & _).
    destruct (initialize w (engine (core c))) as [[[]|err'] e'];
      cbn [fst snd] in *; [discriminate|].
    injection Herr as ->.
    destruct c as [[] ? ? ? ? ? ?]. cbn in *. rewrite Ht. tauto.
Qed.

(** ** The mix of a render *)

Lemma offline_bars_channels layout barDuration bars o :
  well_formed layout ->
  Forall (fun b => (b < List.length (arrangement layout))%nat) bars ->
  channels (o_graph (for_ bars (offline_bar layout barDuration) o).2)
  = match last_pattern layout bars with
    | Some pattern => mixed_channels (trackSettings pattern)
    | None => channels (o_graph o)
    end.
Proof.
  intros Hwf Hall. revert o. unfold last_pattern.
  induction Hall as [|b bars Hb Hall IH]; intros o; [reflexivity|].
  cbn [for_ omap list_omap]. msimpl.
  destruct (lookup_lt_is_Some_2 _ _ Hb) as [entry He].
  pose proof (proj1 (Forall_lookup _ _) Hwf _ _ He) as Hplay. cbn in Hplay.
  rewrite He. destruct entry as [p|].
  - destruct Hplay as [pattern Hp].
    assert (Hat : pattern_at layout (Some (Some p)) = Some pattern) by exact Hp.
    rewrite Hat, (offline_bar_pattern _ _ _ _ _ _ He Hp). lazy beta iota.
    rewrite IH, last_cons.
    destruct (last _); [reflexivity|]. now destruct o as [? [] ? ? ?].
  - assert (Hat : pattern_at layout (Some None) = None) by reflexivity.
    rewrite Hat, (offline_bar_empty _ _ _ _ He). lazy beta iota. apply IH.
Qed.

(** A render applies the settings of every bar while it schedules, before
    its transport starts: the channel strips the whole song is rendered
    through are those of the pattern of the last bar that is not empty,
    whatever the bars before it ask for. *)
Theorem render_mix_is_last_bar w ambient layout r :
  well_formed layout ->
  renderSong w ambient layout = Ok r ->
  o_started (offline r) = true
  /\ channels (o_graph (offline r))
     = match last_pattern layout (seq 0 (List.length (arrangement layout))) with
       | Some pattern => mixed_channels (trackSettings pattern)
       | None => mkChannels default_channel default_channel default_channel
                   default_channel default_channel
       end.
Proof.
  intros Hwf. unfold renderSong, offline_callback, Tone_loaded. msimpl.
  destruct (forallb _ _); [|discriminate].
  assert (Hbars : Forall (fun b => (b < List.length (arrangement layout))%nat)
                    (seq 0 (List.length (arrangement layout)))).
  { apply List.Forall_forall. intros b Hb. apply in_seq in Hb. lia. }
  pose proof (offline_bars_channels layout (toSeconds ambient N1m) _
                (with_o_pending (fun _ => [])
                   (with_o_bpm (bpm layout) (offline_context layout))) Hwf Hbars) as Hch.
  destruct (for_ _ _ _) as [[[]|err] o]; [|discriminate].
  intros [= <-]. cbn [offline snd] in *.
  split; [now destruct o|].
  destruct o as [? [] ? ? ?]. cbn in *. rewrite Hch.
  now destruct (last_pattern _ _).
Qed.

End Model.

(** ** The WAV encoder *)
Module WavFacts.
Import Wav.

Lemma store_le_length n v p bytes :
  List.length (store_le n v p bytes) = List.length bytes.
Proof.
  revert v p bytes. induction n as [|n IH]; intros v p bytes; [reflexivity|].
  cbn [store_le]. now rewrite IH, length_insert.
Qed.

Lemma store_le_prefix k n v p bytes :
  (k <= p)%nat -> take k (store_le n v p bytes) = take k bytes.
Proof.
  revert v p bytes. induction n as [|n IH]; intros v p bytes Hp; [reflexivity|].
  cbn [store_le]. rewrite IH by lia. now apply take_insert_ge.
Qed.

Lemma write_frame_prefix k channels offset w :
  (k <= pos w)%nat ->
  take k (view (write_frame channels offset w)) = take k (view w)
  /\ pos (write_frame channels offset w) = (pos w + 2 * List.length channels)%nat
  /\ List.length (view (write_frame channels offset w)) = List.length (view w).
Proof.
  unfold write_frame. revert w.
  induction channels as [|ch channels IH]; intros w Hk; cbn [fold_left List.length].
  - repeat split. lia.
  - destruct (IH (setInt16 (encode_sample (sample_at ch offset)) w)) as (Ht & Hp & Hl).
    { cbn [setInt16 pos]. lia. }
    rewrite Ht, Hp, Hl. cbn [setInt16 pos view].
    rewrite store_le_prefix by lia. rewrite store_le_length.
    repeat split. lia.
Qed.

Lemma write_loop_prefix k fuel channels len offset w :
  (k <= pos w)%nat ->
  take k (view (write_loop fuel channels len offset w)) = take k (view w)
  /\ List.length (view (write_loop fuel channels len offset w)) = List.length (view w).
Proof.
  revert offset w. induction fuel as [|fuel IH]; intros offset w Hk; [easy|].
  cbn [write_loop]. destruct (pos w <? len)%nat; [|easy].
  destruct (write_frame_prefix k channels offset w Hk) as (Ht & Hp & Hl).
  destruct (IH (S offset) (write_frame channels offset w)) as (Ht' & Hl'); [lia|].
  now rewrite Ht', Hl', Ht, Hl.
Qed.

(** The sample loop stops because its guard fails, with fuel to spare:
    after [length] turns the write position has reached the file length. *)
Lemma write_loop_done frames channels offset w :
  pos (write_loop frames channels
         (pos w + frames * (2 * List.length channels)) offset w)
  = (pos w + frames * (2 * List.length channels))%nat.
Proof.
  revert offset w. induction frames as [|frames IH]; intros offset w.
  - cbn. lia.
  - cbn [write_loop].
    destruct (pos w <? pos w + S frames * (2 * List.length channels))%nat eqn:Hlt.
    + destruct (write_frame_prefix 0 channels offset w) as (_ & Hp & _); [lia|].
      specialize (IH (S offset) (write_frame channels offset w)).
      rewrite Hp in IH.
      replace (pos w + S frames * (2 * List.length channels))%nat
        with (pos w + 2 * List.length channels + frames * (2 * List.length channels))%nat
        by lia.
      rewrite IH. reflexivity.
    + apply Nat.ltb_ge in Hlt. lia.
Qed.

Lemma le32 v :
  0 <= v < 2 ^ 32 ->
  v mod 256 + 256 * (v / 256 mod 256 + 256 * (v / 256 / 256 mod 256
    + 256 * (v / 256 / 256 / 256 mod 256 + 256 * 0))) = v.
Proof. intros H. change (2 ^ 32) with 4294967296 in H. Z.div_mod_to_equations. lia. Qed.

Lemma le16 v :
  0 <= v < 2 ^ 16 -> v mod 256 + 256 * (v / 256 mod 256 + 256 * 0) = v.
Proof. intros H. change (2 ^ 16) with 65536 in H. Z.div_mod_to_equations. lia. Qed.

Lemma header_prefix buffer :
  take 44 (audioBufferToWav buffer)
  = take 44 (view (write_header (numberOfChannels buffer) (sampleRate buffer)
                     (wav_length buffer)
                     {| view := replicate (wav_length buffer) 0; pos := 0 |})).
Proof.
  unfold audioBufferToWav, encode.
  apply write_loop_prefix. reflexivity.
Qed.

Lemma load_le_prefix n p k bytes :
  (p + n <= k)%nat ->
  load_le n p bytes
  = if decide (p + n <= List.length bytes)%nat
    then Some (foldr (fun b r => b + 256 * r) 0 (take n (drop p (take k bytes))))
    else None.
Proof.
  intros Hk. unfold load_le. destruct (decide _); [|reflexivity].
  rewrite !take_drop_commute, take_take. now rewrite Nat.min_l by lia.
Qed.

Lemma setUint32_length v w :
  List.length (view (setUint32 v w)) = List.length (view w).
Proof. apply store_le_length. Qed.

Lemma setUint16_length v w :
  List.length (view (setUint16 v w)) = List.length (view w).
Proof. apply store_le_length. Qed.

Lemma wav_file_length buffer :
  List.length (audioBufferToWav buffer) = wav_length buffer.
Proof.
  unfold audioBufferToWav, encode.
  destruct (write_loop_prefix 0 (length buffer) (channelData buffer)
              (wav_length buffer) 0
              (write_header (numberOfChannels buffer) (sampleRate buffer)
                 (wav_length buffer)
                 {| view := replicate (wav_length buffer) 0; pos := 0 |}))
    as (_ & ->); [lia|].
  unfold write_header. lazy zeta.
  repeat (rewrite setUint32_length || rewrite setUint16_length).
  apply length_replicate.
Qed.

(** C6. For a buffer of [N] frames, [C] channels and sample rate [R]
    whose sizes fit the header's fields, the encoded file has the
    little-endian 32-bit value [N*C*2 + 44 - 8] at offset 4, the 16-bit
    value [C] at offset 22, the 32-bit value [R] at offset 24 and the
    16-bit value 16 at offset 34. *)
Theorem wav_header_layout (buffer : AudioBuffer) :
  let N := Z.of_nat (length buffer) in
  let C := Z.of_nat (numberOfChannels buffer) in
  let R := sampleRate buffer in
  N * C * 2 + 44 - 8 < 2 ^ 32 ->
  C < 2 ^ 16 ->
  0 <= R < 2 ^ 32 ->
  getUint32 (audioBufferToWav buffer) 4 = Some (N * C * 2 + 44 - 8)
  /\ getUint16 (audioBufferToWav buffer) 22 = Some C
  /\ getUint32 (audioBufferToWav buffer) 24 = Some R
  /\ getUint16 (audioBufferToWav buffer) 34 = Some 16.
Proof.
  intros N C R Hlen HC HR.
  unfold getUint32, getUint16.
  rewrite !(load_le_prefix _ _ 44) by lia.
  rewrite wav_file_length, header_prefix.
  assert (Hz : Z.of_nat (wav_length buffer) - 8 = N * C * 2 + 44 - 8)
    by (unfold wav_length; subst N C; lia).
  assert (Hv : replicate (wav_length buffer) 0
               = replicate 44 0 ++ replicate (length buffer * numberOfChannels buffer * 2) 0).
  { rewrite <- replicate_add. f_equal. unfold wav_length. lia. }
  rewrite Hv. clear Hv.
  set (len := wav_length buffer) in *. clearbody len.
  generalize (replicate (length buffer * numberOfChannels buffer * 2) 0). intros rest.
  cbv [write_header setUint32 setUint16 store_le view pos Nat.add replicate app
       insert list_insert take drop foldr].
  rewrite Hz.
  repeat (destruct (decide _) as [_|Hbad]; [|exfalso; lia]).
  rewrite !Z.mod_small with (b := 2 ^ 32) by (subst N C; lia).
  rewrite !Z.mod_small with (b := 2 ^ 16) by (subst N C; lia).
  rewrite !le32 by (subst N C; lia).
  rewrite !le16 by (subst N C; lia).
  auto.
Qed.

Lemma wav_header_layout_witness :
  (Z.of_nat (length demo_buffer) * Z.of_nat (numberOfChannels demo_buffer) * 2
     + 44 - 8 < 2 ^ 32
   /\ Z.of_nat (numberOfChannels demo_buffer) < 2 ^ 16
   /\ 0 <= sampleRate demo_buffer < 2 ^ 32)
  /\ getUint32 (audioBufferToWav demo_buffer) 4 = Some 44
  /\ getUint16 (audioBufferToWav demo_buffer) 22 = Some 2
  /\ getUint32 (audioBufferToWav demo_buffer) 24 = Some 44100
  /\ getUint16 (audioBufferToWav demo_buffer) 34 = Some 16.
Proof.
  split.
  - cbv; repeat split; discriminate.
  - apply (wav_header_layout demo_buffer); cbv; repeat split; discriminate.
Defined.

(** C2. The sample -0.25 is negative and survives the clamp unchanged,
    yet the encoder scales it by 32767: it writes -8191 where scaling a
    negative sample by 32768 gives -8192. The encoder picks 32768 only
    when [0.5 + sample < 0], that is for samples below -0.5. *)
Theorem negative_sample_scaled_by_32767 :
  clamp (Fin (-1 # 4)) = Fin (-1 # 4)
  /\ js_lt (Fin (-1 # 4)) (Fin 0) = true
  /\ encode_sample (Fin (-1 # 4)) = -8191
  /\ ToInt32 (js_mul (Fin (-1 # 4)) (Fin 32767)) = -8191
  /\ ToInt32 (js_mul (Fin (-1 # 4)) (Fin 32768)) = -8192
  /\ spec_encode_sample (Fin (-1 # 4)) = -8192
  /\ getInt16 (audioBufferToWav quarter_buffer) 44 = Some (-8191)
  /\ encode_sample (Fin (-3 # 4)) = spec_encode_sample (Fin (-3 # 4)).
Proof. repeat split. Qed.

(** What the encoder does with every finite sample: once clamped it is
    scaled by 32768 when it lies below -0.5 and by 32767 otherwise, then
    truncated. *)
Theorem scale_threshold (q : Q) :
  scale (Fin q)
  = if Qltb q (-1 # 2) then ToInt32 (Fin (q * 32768)%Q) else ToInt32 (Fin (q * 32767)%Q).
Proof.
  unfold scale, js_lt, js_add, js_mul.
  assert (H : Qltb ((1 # 2) + q)%Q 0 = Qltb q (-1 # 2)).
  { destruct q as [n d]. unfold Qltb. cbn.
    destruct (Z.ltb_spec ((1 * Z.pos d + n * 2) * 1) (0 * Z.pos (2 * d))),
             (Z.ltb_spec (n * 2) (-1 * Z.pos d)); try reflexivity; lia. }
  rewrite H. now destruct (Qltb q (-1 # 2)).
Qed.

(** The sample loop ends at the end of the file: the encoder's output is
    [N*C*2 + 44] bytes long and the write position stops there. *)
Theorem wav_file_complete (buffer : AudioBuffer) :
  List.length (audioBufferToWav buffer) = wav_length buffer
  /\ pos (encode buffer) = wav_length buffer.
Proof.
  split; [apply wav_file_length|].
  unfold encode.
  set (w := write_header _ _ _ _).
  assert (Hp : pos w = 44%nat) by reflexivity.
  pose proof (write_loop_done (length buffer) (channelData buffer) 0 w) as H.
  rewrite Hp in H. fold (numberOfChannels buffer) in H.
  replace (wav_length buffer)
    with (44 + length buffer * (2 * numberOfChannels buffer))%nat
    by (unfold wav_length; lia).
  exact H.
Qed.

End WavFacts.

(** ** The engine on concrete layouts, in exact rational arithmetic *)

Lemma demo_well_formed : well_formed (demo_layout (num := Q)).
Proof. repeat constructor; eexists; reflexivity. Qed.

Lemma resync_once_per_switch_witness :
  (currentLayout (demo_engine (num := Q)) = Some demo_layout
   /\ Forall (fun tk : Q * Q => playable demo_layout (resolved demo_layout tk.2))
        demo_ticks)
  /\ (run_ticks demo_ticks (demo_engine (num := Q))).1 = Ok tt
  /\ List.filter is_settings (trace (run_ticks demo_ticks (demo_engine (num := Q))).2)
     = List.filter is_settings (trace (demo_engine (num := Q)))
       ++ expected_resyncs demo_layout (currentPatternIndex (demo_engine (num := Q)))
            (map (fun tk : Q * Q => resolved demo_layout tk.2) demo_ticks)
  /\ channels (graph (run_ticks demo_ticks (demo_engine (num := Q))).2)
     = mixed_channels (trackSettings (demo_pattern "G7" true))
  /\ ch_mute (c_kick (channels (graph (demo_engine (num := Q))))) = false
  /\ ch_mute (c_kick (channels (graph (run_ticks demo_ticks (demo_engine (num := Q))).2)))
     = true
  /\ ch_mute (c_bass (channels (graph (demo_engine (num := Q))))) = false
  /\ ch_mute (c_bass (channels (graph (tick 0%Q 0%Q (demo_engine (num := Q))).2))) = true
  /\ graph (tick 4%Q (1 # 2)%Q (tick 0%Q 0%Q (demo_engine (num := Q))).2).2
     = graph (tick 0%Q 0%Q (demo_engine (num := Q))).2.
Proof.
  assert (H1 : currentLayout (demo_engine (num := Q)) = Some demo_layout)
    by reflexivity.
  assert (H2 : Forall (fun tk : Q * Q => playable demo_layout (resolved demo_layout tk.2))
                 demo_ticks).
  { repeat constructor; eexists; reflexivity. }
  split; [now split|].
  destruct (resync_once_per_switch demo_layout demo_ticks demo_engine H1 H2)
    as (Hok & Htr & Hg & Hswitch & _).
  split; [exact Hok|]. split; [exact Htr|].
  assert (Hr0 : resolved (demo_layout (num := Q)) 0%Q = Some (Some 0))
    by (vm_compute; reflexivity).
  assert (Hr2 : resolved (demo_layout (num := Q)) (1 # 2)%Q = Some (Some 0))
    by (vm_compute; reflexivity).
  assert (Hp0 : index (patterns (demo_layout (num := Q))) 0
                = Some (demo_pattern "Cm7" false)) by (vm_compute; reflexivity).
  destruct (Hswitch 0%Q 0%Q 0 (demo_pattern "Cm7" false) demo_engine H1 Hr0 Hp0)
    as (Hcur & Hnew & _).
  destruct Hnew as (Hch & _); [vm_compute; discriminate|].
  assert (Hl1 : currentLayout (tick 0%Q 0%Q (demo_engine (num := Q))).2 = Some demo_layout)
    by (vm_compute; reflexivity).
  destruct (Hswitch 4%Q (1 # 2)%Q 0 (demo_pattern "Cm7" false) _ Hl1 Hr2 Hp0)
    as (_ & _ & Hsame).
  rewrite Hg, Hch.
  split; [vm_compute; reflexivity|]. split; [vm_compute; reflexivity|].
  split; [vm_compute; reflexivity|]. split; [vm_compute; reflexivity|].
  split; [vm_compute; reflexivity|]. exact (Hsame Hcur).
Defined.

Lemma tick_on_empty_bar_witness :
  (currentLayout (demo_engine (num := Q)) = Some demo_layout
   /\ resolved (demo_layout (num := Q)) (1 # 4)%Q = Some None)
  /\ tick 2%Q (1 # 4)%Q demo_engine
     = (Ok tt, log [TriggerRelease Bass 2%Q] demo_engine)
  /\ trace (tick 2%Q (1 # 4)%Q demo_engine).2
     = trace (demo_engine (num := Q)) ++ [TriggerRelease Bass 2%Q]
  /\ currentPatternIndex (tick 2%Q (1 # 4)%Q demo_engine).2
     = currentPatternIndex (demo_engine (num := Q))
  /\ graph (tick 2%Q (1 # 4)%Q demo_engine).2 = graph (demo_engine (num := Q))
  /\ transport (tick 2%Q (1 # 4)%Q demo_engine).2
     = transport (demo_engine (num := Q)).
Proof.
  split; [now split|].
  apply (tick_on_empty_bar 2%Q (1 # 4)%Q demo_engine demo_layout); reflexivity.
Defined.

Lemma start_without_layout_witness :
  currentLayout (new_engine (num := Q)) = None
  /\ start fair_world (new_engine (num := Q)) = initialize fair_world new_engine
  /\ transport (start fair_world (new_engine (num := Q))).2 = transport new_engine
  /\ isInitialized (start fair_world (new_engine (num := Q))).2 = true
  /\ transport_started (transport (start fair_world (new_engine (num := Q))).2) = false.
Proof.
  split; [reflexivity|].
  destruct (start_without_layout fair_world (new_engine (num := Q)) eq_refl)
    as (Hs & Ht & _ & _ & Hok & _).
  split; [exact Hs|]. split; [exact Ht|]. split; [now apply Hok|].
  now rewrite Ht.
Defined.

Lemma renderSong_schedule_witness :
  (well_formed (demo_layout (num := Q))
   /\ forallb (fetch_ok fair_world) (o_pending (offline_context (demo_layout (num := Q))))
      = true)
  /\ exists r,
       renderSong fair_world 120%Q demo_layout = Ok r
       /\ totalDuration r = (2 * 4)%Q
       /\ List.filter is_trigger (o_trace (offline r))
          = List.filter is_trigger
              (flat_map (bar_plan demo_layout 120%Q 2%Q) (seq 0 4)).
Proof.
  split; [split; [exact demo_well_formed|reflexivity]|].
  destruct (renderSong_schedule fair_world 120%Q demo_layout demo_well_formed eq_refl)
    as (r & Hr & Hd & Ht & _).
  exists r. split; [exact Hr|]. split.
  - rewrite Hd. reflexivity.
  - rewrite Ht. reflexivity.
Defined.

Lemma mute_solo_resolution_witness :
  (exists t, solo (setting_of (trackSettings (demo_pattern (num := Q) "G7" true)) t) = true)
  /\ forall t,
       ch_mute (channel_of
                  (channels (graph (updateMixerSettings
                                      (trackSettings (demo_pattern (num := Q) "G7" true))
                                      new_engine).2)) t)
       = negb (solo (setting_of (trackSettings (demo_pattern (num := Q) "G7" true)) t)).
Proof.
  assert (H : exists t,
             solo (setting_of (trackSettings (demo_pattern (num := Q) "G7" true)) t) = true)
    by (exists Bass; reflexivity).
  split; [exact H|].
  exact (proj1 (proj1 (mute_solo_resolution _) new_engine) H).
Defined.

Lemma chords_need_sixteen_witness :
  blank (chordPromptText (demo_app (num := Q))) = false
  /\ (handleGenerateChords fair_world short_reply (demo_app (num := Q))).1 = Ok tt
  /\ layout (handleGenerateChords fair_world short_reply (demo_app (num := Q))).2
     = layout demo_app
  /\ toasts (handleGenerateChords fair_world short_reply (demo_app (num := Q))).2
     = ["AI failed to generate a valid chord progression."]
  /\ steps (seq_chords (sequencerState (activePattern
       (handleGenerateChords fair_world full_reply (demo_app (num := Q))).2)))
     = replicate 16 (StepNote "Am")
  /\ blank nbsp_prompt = true
  /\ blank wide_blank_prompt = true
  /\ handleGenerateChords fair_world full_reply
       (with_chordPromptText nbsp_prompt (demo_app (num := Q)))
     = (Ok tt, with_toasts (fun t => t ++ ["Please enter a chord progression prompt."])
                 (with_chordPromptText nbsp_prompt demo_app)).
Proof.
  split; [reflexivity|].
  destruct (chords_need_sixteen fair_world short_reply (demo_app (num := Q)) eq_refl)
    as (Hok & Hrej & _).
  destruct (chords_need_sixteen fair_world full_reply (demo_app (num := Q)) eq_refl)
    as (_ & _ & Hacc).
  split; [exact Hok|].
  destruct Hrej as (Hl & _ & Hn).
  { intros chords [= <-]. cbn. discriminate. }
  split; [exact Hl|]. split; [exact Hn|].
  split; [exact (proj1 (proj2 (Hacc _ 0%nat eq_refl eq_refl eq_refl)))|].
  split; [reflexivity|]. split; [reflexivity|].
  rewrite handleGenerateChords_blank by reflexivity.
  now rewrite showNotification_spec.
Defined.

(** C1. On the factory layout the live scheduler and the offline renderer
    schedule the same first chord, a quarter note of Cm7 at the start of
    bar 0, but not to the same effect. The voices differ: the live chord
    synth was built with a fat sawtooth oscillator and its own envelope,
    the offline one with no options, and no pattern setting ever touches
    it. The settings differ too: the live tick of bar 0 leaves the channels
    at the first pattern's mix, while the renderer has applied every bar's
    settings by the time its transport starts, so that the whole render,
    bar 0 included, runs on the mix of the last bar's pattern. *)
Theorem offline_chords_voice_differs :
  let layout := buildDefaultLayout (num := Q) in
  let live := tick 0%Q 0%Q (engine_with fair_world layout) in
  exists r,
    renderSong fair_world 120%Q layout = Ok r
    /\ live.1 = Ok tt
    /\ trace live.2 !! 6%nat
       = Some (TriggerAttackRelease Chords (StepNote "Cm7") N4n
                 (step_time 0%Q (toSeconds 120%Q N16n) 0))
    /\ o_trace (offline r) !! 6%nat
       = Some (TriggerAttackRelease Chords (StepNote "Cm7") N4n
                 (step_time 0%Q (toSeconds 120%Q N16n) 0))
    /\ i_chords (instruments (graph live.2)) = live_chords_options
    /\ i_chords (instruments (o_graph (offline r))) = no_options
    /\ live_chords_options (num := Q) <> no_options
    /\ channels (graph live.2) = mixed_channels (trackSettings default_pattern_1)
    /\ o_started (offline r) = true
    /\ channels (o_graph (offline r)) = mixed_channels (trackSettings default_pattern_2)
    /\ ch_volume (c_kick (channels (graph live.2))) = (-3)%Q
    /\ ch_volume (c_kick (channels (o_graph (offline r)))) = 0%Q.
Proof.
  cbv zeta. eexists. split; [vm_compute; reflexivity|].
  repeat split; try (vm_compute; reflexivity). discriminate.
Qed.

(** An empty bar: the live tick releases the bass, the offline bar
    schedules nothing. *)
Lemma empty_bar_live_release_only :
  trace (tick 2%Q (1 # 4)%Q (demo_engine (num := Q))).2
  = trace (demo_engine (num := Q)) ++ [TriggerRelease Bass 2%Q]
  /\ bar_plan (demo_layout (num := Q)) 120%Q 2%Q 1 = [].
Proof. split; vm_compute; reflexivity. Qed.

(** C8. Selecting a sample that fails to load: the error is logged and
    notified and the layout keeps its sample, but the engine has already
    disposed of the kick sampler and put one for the failed source in its
    place. *)
Theorem failed_load_swaps_sampler :
  let w := world_without (SAMPLES_URL +:+ "missing.wav") in
  let r := handleSampleSelected w DKick "missing.wav" (demo_app (num := Q)) in
  r.1 = Ok tt
  /\ toasts r.2 = ["Loading kick sample..."; "Error: Could not load kick sample."]
  /\ app_console r.2 = ["Failed to load sample for kick: LoadError"]
  /\ sample_of (sampleSettings (layout r.2)) DKick = "kick.wav"
  /\ sampler_of (instruments (graph (engine (demo_app (num := Q))))) DKick
     = new_sampler "kick.wav"
  /\ sampler_of (instruments (graph (engine r.2))) DKick = new_sampler "missing.wav".
Proof. repeat split; vm_compute; reflexivity. Qed.

Lemma live_and_offline_bar_witness :
  (currentLayout (demo_engine (num := Q)) = Some demo_layout
   /\ resolved (demo_layout (num := Q)) (3 # 4)%Q = Some (Some 1)
   /\ arrangement (demo_layout (num := Q)) !! 3%nat = Some (Some 1)
   /\ index (patterns (demo_layout (num := Q))) 1 = Some (demo_pattern "G7" true)
   /\ transport_bpm (transport (demo_engine (num := Q)))
      = o_bpm (with_o_bpm 120%Q (offline_context demo_layout)))
  /\ exists live rendered,
       trace (tick (3 * 2)%Q (3 # 4)%Q demo_engine).2
       = trace (demo_engine (num := Q)) ++ live
       /\ o_trace (offline_bar demo_layout 2%Q 3
                     (with_o_bpm 120%Q (offline_context demo_layout))).2
          = rendered
       /\ List.filter is_trigger live = List.filter is_trigger rendered.
Proof.
  assert (H1 : currentLayout (demo_engine (num := Q)) = Some demo_layout)
    by (vm_compute; reflexivity).
  assert (H2 : resolved (demo_layout (num := Q)) (3 # 4)%Q = Some (Some 1))
    by (vm_compute; reflexivity).
  assert (H3 : arrangement (demo_layout (num := Q)) !! 3%nat = Some (Some 1))
    by (vm_compute; reflexivity).
  assert (H4 : index (patterns (demo_layout (num := Q))) 1
               = Some (demo_pattern "G7" true))
    by (vm_compute; reflexivity).
  assert (H5 : transport_bpm (transport (demo_engine (num := Q)))
               = o_bpm (with_o_bpm 120%Q (offline_context demo_layout)))
    by (vm_compute; reflexivity).
  split; [repeat split; assumption|].
  destruct (live_and_offline_bar (demo_layout (num := Q)) demo_engine
              (with_o_bpm 120%Q (offline_context demo_layout))
              (3 * 2)%Q (3 # 4)%Q 3%nat 2%Q 1 (demo_pattern "G7" true)
              H1 H2 H3 H4 H5)
    as (live & rendered & Hl & Hr & Ht & _).
  { vm_compute. reflexivity. }
  exists live, rendered. split; [exact Hl|]. split; [exact Hr|exact Ht].
Defined.

Lemma loadSample_swaps_first_witness :
  isInitialized (demo_engine (num := Q)) = true
  /\ sampler_of (instruments (graph
        (loadSample (world_without (SAMPLES_URL +:+ "missing.wav")) DKick
           "missing.wav" (demo_engine (num := Q))).2)) DKick
     = new_sampler "missing.wav".
Proof.
  split; [reflexivity|].
  apply (loadSample_swaps_first _ (demo_engine (num := Q))). reflexivity.
Defined.

(** ** The WAV encoder: sample range, data layout, the rest of the header *)
Module WavData.
Import WavFacts.
Import Wav.

Lemma wrap_signed_small bits z :
  0 < bits -> - 2 ^ (bits - 1) <= z < 2 ^ (bits - 1) -> wrap_signed bits z = z.
Proof.
  intros Hb Hz. unfold wrap_signed.
  assert (Hp : 2 ^ bits = 2 * 2 ^ (bits - 1)).
  { rewrite <- Z.pow_succ_r by lia. f_equal. lia. }
  destruct (Z.ltb_spec (z mod 2 ^ bits) (2 ^ (bits - 1))) as [Hlt|Hge].
  - destruct (Z.le_gt_cases 0 z) as [Hnn|Hneg].
    + apply Z.mod_small. lia.
    + exfalso.
      assert (Hm : z mod 2 ^ bits = z + 2 ^ bits).
      { symmetry. apply (Z.mod_unique _ _ (-1)); lia. }
      lia.
  - destruct (Z.le_gt_cases 0 z) as [Hnn|Hneg].
    + exfalso. rewrite Z.mod_small in Hge by lia. lia.
    + assert (Hm : z mod 2 ^ bits = z + 2 ^ bits).
      { symmetry. apply (Z.mod_unique _ _ (-1)); lia. }
      lia.
Qed.

Lemma Qtrunc_bounds (n : Z) (d : positive) (lo hi : Z) :
  lo <= 0 <= hi -> lo * Z.pos d <= n <= hi * Z.pos d ->
  lo <= Qtrunc (n # d) <= hi.
Proof.
  intros H0 Hn. unfold Qtrunc. cbn [Qnum Qden].
  pose proof (Z.quot_rem' n (Z.pos d)) as Hq.
  destruct (Z.le_gt_cases 0 n) as [Hnn|Hneg].
  - pose proof (Z.rem_bound_pos_pos n (Z.pos d) ltac:(lia) Hnn). nia.
  - pose proof (Z.rem_bound_pos_neg n (Z.pos d) ltac:(lia) ltac:(lia)). nia.
Qed.

Lemma clamp_finite q :
  exists n d, clamp (Fin q) = Fin (n # d) /\ - Z.pos d <= n <= Z.pos d.
Proof.
  destruct q as [n d]. unfold clamp, Math_min, Math_max, Qltb. cbn [Qnum Qden].
  destruct (Z.ltb_spec (n * 1) (1 * Z.pos d)) as [H1|H1].
  - cbn [Qnum Qden].
    destruct (Z.ltb_spec (-1 * Z.pos d) (n * 1)) as [H2|H2].
    + exists n, d. split; [reflexivity|lia].
    + exists (-1), 1%positive. split; [reflexivity|lia].
  - cbn. exists 1, 1%positive. split; [reflexivity|lia].
Qed.

Lemma ToInt32_bounds n d lo hi :
  lo <= 0 <= hi -> - 2 ^ 31 <= lo -> hi < 2 ^ 31 ->
  lo * Z.pos d <= n <= hi * Z.pos d ->
  lo <= ToInt32 (Fin (n # d)) <= hi.
Proof.
  intros H0 Hlo Hhi Hn. unfold ToInt32.
  pose proof (Qtrunc_bounds n d lo hi H0 Hn) as Hq.
  rewrite wrap_signed_small; [exact Hq|lia|].
  change (2 ^ (32 - 1)) with (2 ^ 31). lia.
Qed.

Lemma scale_range n d :
  - Z.pos d <= n <= Z.pos d -> -32768 <= scale (Fin (n # d)) <= 32767.
Proof.
  intros Hn. unfold scale, js_lt, js_add, js_mul, Qmult, Qplus, Qltb.
  cbn [Qnum Qden].
  destruct (Z.ltb_spec ((1 * Z.pos d + n * 2) * 1) (0 * Z.pos (2 * d))) as [Hlt|Hge].
  - assert (-32768 <= ToInt32 (Fin (n * 32768 # d * 1)) <= 0); [|lia].
    apply ToInt32_bounds; lia.
  - apply ToInt32_bounds; lia.
Qed.

Lemma encode_sample_range (x : jsnum) : -32768 <= encode_sample x <= 32767.
Proof.
  unfold encode_sample. destruct x as [q| | |].
  - destruct (clamp_finite q) as (n & d & -> & Hn). now apply scale_range.
  - vm_compute. split; discriminate.
  - vm_compute. split; discriminate.
  - vm_compute. split; discriminate.
Qed.

(** Whatever the sample (finite, infinite or not a number), what the
    encoder hands to [setInt16] is a 16-bit signed value, so the store
    never wraps: the two bytes written read back as the value computed. *)
Theorem encode_sample_int16 (x : jsnum) :
  -32768 <= encode_sample x <= 32767
  /\ wrap_signed 16 (encode_sample x mod 2 ^ 16) = encode_sample x.
Proof.
  pose proof (encode_sample_range x) as Hr. split; [exact Hr|].
  assert (Hm : wrap_signed 16 (encode_sample x mod 2 ^ 16)
               = wrap_signed 16 (encode_sample x)).
  { unfold wrap_signed. now rewrite Z.mod_mod by discriminate. }
  rewrite Hm. apply wrap_signed_small; [lia|].
  change (2 ^ (16 - 1)) with 32768. lia.
Qed.

Lemma load_le_take n p bytes :
  load_le n p bytes
  = if decide (p + n <= List.length bytes)%nat
    then load_le n p (take (p + n) bytes) else None.
Proof.
  unfold load_le. destruct (decide (p + n <= List.length bytes)%nat) as [Hl|Hl];
    [|reflexivity].
  rewrite length_take, Nat.min_l by lia.
  destruct (decide (p + n <= p + n)%nat); [|lia].
  rewrite !take_drop_commute, take_take. now rewrite Nat.min_id.
Qed.

(** A read below the write position is not disturbed by later writes. *)
Lemma load_le_prefix_eq n p b1 b2 :
  take (p + n) b1 = take (p + n) b2 -> List.length b1 = List.length b2 ->
  load_le n p b1 = load_le n p b2.
Proof.
  intros Ht Hl. rewrite (load_le_take n p b1), (load_le_take n p b2).
  now rewrite Ht, Hl.
Qed.

Lemma load_store_16 v p bytes :
  0 <= v < 2 ^ 16 -> (p + 2 <= List.length bytes)%nat ->
  load_le 2 p (store_le 2 v p bytes) = Some v.
Proof.
  intros Hv Hp. unfold load_le. rewrite store_le_length.
  destruct (decide (p + 2 <= List.length bytes)%nat); [|lia].
  f_equal. cbn [store_le].
  assert (H0 : <[S p:=v / 256 mod 256]> (<[p:=v mod 256]> bytes) !! p = Some (v mod 256)).
  { rewrite list_lookup_insert_ne by lia. apply list_lookup_insert_eq. lia. }
  assert (H1 : <[S p:=v / 256 mod 256]> (<[p:=v mod 256]> bytes) !! S p
               = Some (v / 256 mod 256)).
  { apply list_lookup_insert_eq. rewrite length_insert. lia. }
  rewrite (drop_S _ _ _ H0), (drop_S _ _ _ H1). cbn [take foldr].
  now apply le16.
Qed.

Lemma write_frame_read channels offset w c ch :
  channels !! c = Some ch ->
  (pos w + 2 * List.length channels <= List.length (view w))%nat ->
  load_le 2 (pos w + 2 * c) (view (write_frame channels offset w))
  = Some (encode_sample (sample_at ch offset) mod 2 ^ 16).
Proof.
  unfold write_frame. revert w c.
  induction channels as [|ch0 channels IH]; intros w c Hc Hlen; [discriminate|].
  cbn [fold_left]. cbn [List.length] in Hlen.
  set (w1 := setInt16 (encode_sample (sample_at ch0 offset)) w).
  assert (Hp1 : pos w1 = (pos w + 2)%nat) by reflexivity.
  assert (Hl1 : List.length (view w1) = List.length (view w))
    by apply store_le_length.
  destruct c as [|c].
  - injection Hc as ->.
    destruct (write_frame_prefix (pos w + 2) channels offset w1) as (Ht & _ & Hl);
      [lia|]. unfold write_frame in Ht, Hl.
    replace (pos w + 2 * 0)%nat with (pos w) by lia.
    rewrite (load_le_prefix_eq 2 (pos w) _ (view w1)) by (rewrite ?Hl; auto).
    subst w1. cbn [setInt16 view].
    apply load_store_16; [|lia].
    apply Z.mod_pos_bound. reflexivity.
  - cbn in Hc.
    replace (pos w + 2 * S c)%nat with (pos w1 + 2 * c)%nat by lia.
    apply IH; [exact Hc|lia].
Qed.

Lemma write_loop_read fuel channels len offset w f c ch :
  (f < fuel)%nat ->
  channels !! c = Some ch ->
  (pos w + fuel * (2 * List.length channels) <= len)%nat ->
  (len <= List.length (view w))%nat ->
  load_le 2 (pos w + f * (2 * List.length channels) + 2 * c)
    (view (write_loop fuel channels len offset w))
  = Some (encode_sample (sample_at ch (offset + f)) mod 2 ^ 16).
Proof.
  revert offset w f.
  induction fuel as [|fuel IH]; intros offset w f Hf Hc Hfit Hlen; [lia|].
  pose proof (lookup_lt_Some _ _ _ Hc) as Hclt.
  cbn [write_loop].
  destruct (Nat.ltb_spec (pos w) len) as [_|Hge]; [|nia].
  destruct (write_frame_prefix 0 channels offset w) as (_ & Hp1 & Hl1); [lia|].
  destruct f as [|f].
  - destruct (write_loop_prefix (pos w + 2 * List.length channels) fuel channels len
                (S offset) (write_frame channels offset w)) as (Ht & Hl); [lia|].
    replace (pos w + 0 * (2 * List.length channels) + 2 * c)%nat
      with (pos w + 2 * c)%nat by lia.
    rewrite (load_le_prefix_eq 2 (pos w + 2 * c) _
               (view (write_frame channels offset w))).
    + rewrite Nat.add_0_r. apply write_frame_read; [exact Hc|nia].
    + apply (f_equal (take (pos w + 2 * c + 2))) in Ht.
      rewrite !take_take in Ht. now rewrite !Nat.min_l in Ht by lia.
    + exact Hl.
  - replace (pos w + S f * (2 * List.length channels) + 2 * c)%nat
      with (pos (write_frame channels offset w) + f * (2 * List.length channels) + 2 * c)%nat
      by (rewrite Hp1; lia).
    replace (offset + S f)%nat with (S offset + f)%nat by lia.
    apply IH; [lia|exact Hc|rewrite Hp1; lia|rewrite Hl1; lia].
Qed.

(** The data chunk is interleaved, frame after frame: the 16-bit signed
    value at byte [44 + 2 * (f * C + c)] is the encoding of frame [f] of
    channel [c]. *)
Theorem wav_samples_interleaved (buffer : AudioBuffer) (f c : nat) (ch : list jsnum) :
  (f < length buffer)%nat ->
  channelData buffer !! c = Some ch ->
  getInt16 (audioBufferToWav buffer) (44 + 2 * (f * numberOfChannels buffer + c))
  = Some (encode_sample (sample_at ch f)).
Proof.
  intros Hf Hc. unfold getInt16, audioBufferToWav, encode.
  set (w := write_header _ _ _ _).
  assert (Hp : pos w = 44%nat) by reflexivity.
  assert (Hl : List.length (view w) = wav_length buffer).
  { subst w. unfold write_header. lazy zeta.
    repeat (rewrite setUint32_length || rewrite setUint16_length).
    apply length_replicate. }
  pose proof (write_loop_read (length buffer) (channelData buffer)
                (wav_length buffer) 0 w f c ch Hf Hc) as H.
  fold (numberOfChannels buffer) in H. rewrite Hp in H.
  replace (44 + 2 * (f * numberOfChannels buffer + c))%nat
    with (44 + f * (2 * numberOfChannels buffer) + 2 * c)%nat by lia.
  rewrite H by (unfold wav_length in *; lia).
  cbn [fmap option_fmap option_map]. f_equal. rewrite Nat.add_0_l.
  pose proof (encode_sample_range (sample_at ch f)) as Hr.
  set (e := encode_sample (sample_at ch f)) in *.
  assert (Hm : wrap_signed 16 (e mod 2 ^ 16) = wrap_signed 16 e).
  { unfold wrap_signed. now rewrite Z.mod_mod by discriminate. }
  rewrite Hm. apply wrap_signed_small; [lia|].
  change (2 ^ (16 - 1)) with 32768. lia.
Qed.

Lemma take_drop_prefix {A} (k m n : nat) (l : list A) :
  (m + k <= n)%nat -> take k (drop m l) = take k (drop m (take n l)).
Proof.
  intros H. rewrite !take_drop_commute, take_take. now rewrite Nat.min_l by lia.
Qed.

(** The rest of the canonical header, for sizes that fit its fields: the
    four chunk identifiers, the format chunk (size 16, PCM, byte rate
    [R*2*C], block align [C*2]) and the size [N*C*2] of the data chunk. *)
Theorem wav_header_chunks (buffer : AudioBuffer) :
  let N := Z.of_nat (length buffer) in
  let C := Z.of_nat (numberOfChannels buffer) in
  let R := sampleRate buffer in
  N * C * 2 + 44 - 8 < 2 ^ 32 ->
  C * 2 < 2 ^ 16 ->
  0 <= R ->
  R * 2 * C < 2 ^ 32 ->
  take 4 (audioBufferToWav buffer) = ascii_bytes "RIFF"
  /\ take 4 (drop 8 (audioBufferToWav buffer)) = ascii_bytes "WAVE"
  /\ take 4 (drop 12 (audioBufferToWav buffer)) = ascii_bytes "fmt "
  /\ getUint32 (audioBufferToWav buffer) 16 = Some 16
  /\ getUint16 (audioBufferToWav buffer) 20 = Some 1
  /\ getUint32 (audioBufferToWav buffer) 28 = Some (R * 2 * C)
  /\ getUint16 (audioBufferToWav buffer) 32 = Some (C * 2)
  /\ take 4 (drop 36 (audioBufferToWav buffer)) = ascii_bytes "data"
  /\ getUint32 (audioBufferToWav buffer) 40 = Some (N * C * 2).
Proof.
  intros N C R Hlen HC HR HB.
  unfold getUint32, getUint16.
  rewrite !(load_le_prefix _ _ 44) by lia.
  rewrite (take_drop_prefix 4 8 44), (take_drop_prefix 4 12 44),
    (take_drop_prefix 4 36 44) by lia.
  replace (take 4 (audioBufferToWav buffer))
    with (take 4 (take 44 (audioBufferToWav buffer)))
    by (rewrite take_take; reflexivity).
  rewrite wav_file_length, header_prefix.
  assert (Hz : Z.of_nat (wav_length buffer) - Z.of_nat 40 - 4 = N * C * 2)
    by (unfold wav_length; subst N C; lia).
  assert (Hv : replicate (wav_length buffer) 0
               = replicate 44 0 ++ replicate (length buffer * numberOfChannels buffer * 2) 0).
  { rewrite <- replicate_add. f_equal. unfold wav_length. lia. }
  rewrite Hv. clear Hv.
  set (len := wav_length buffer) in *. clearbody len.
  generalize (replicate (length buffer * numberOfChannels buffer * 2) 0). intros rest.
  cbv [write_header setUint32 setUint16 store_le view pos Nat.add replicate app
       insert list_insert take drop foldr].
  rewrite Hz.
  repeat (destruct (decide _) as [_|Hbad]; [|exfalso; lia]).
  assert (H0 : 0 <= R * 2 * C) by (subst C; nia).
  rewrite !Z.mod_small with (b := 2 ^ 32) by (subst N C R; lia).
  rewrite !Z.mod_small with (b := 2 ^ 16) by (subst N C R; lia).
  rewrite !le32 by (subst N C R; lia).
  rewrite !le16 by (subst N C R; lia).
  repeat split; reflexivity.
Qed.


Lemma wav_samples_interleaved_witness :
  (1 < length demo_buffer)%nat
  /\ channelData demo_buffer !! 0%nat = Some [Fin (1 # 2); Fin (-1)]
  /\ getInt16 (audioBufferToWav demo_buffer) 48 = Some (-32768).
Proof.
  assert (H1 : (1 < length demo_buffer)%nat) by (cbv; lia).
  assert (H2 : channelData demo_buffer !! 0%nat = Some [Fin (1 # 2); Fin (-1)])
    by reflexivity.
  split; [exact H1|]. split; [exact H2|].
  exact (wav_samples_interleaved demo_buffer 1 0 _ H1 H2).
Defined.

Lemma wav_header_chunks_witness :
  (Z.of_nat (length demo_buffer) * Z.of_nat (numberOfChannels demo_buffer) * 2
     + 44 - 8 < 2 ^ 32
   /\ Z.of_nat (numberOfChannels demo_buffer) * 2 < 2 ^ 16
   /\ 0 <= sampleRate demo_buffer
   /\ sampleRate demo_buffer * 2 * Z.of_nat (numberOfChannels demo_buffer) < 2 ^ 32)
  /\ take 4 (audioBufferToWav demo_buffer) = ascii_bytes "RIFF"
  /\ take 4 (drop 8 (audioBufferToWav demo_buffer)) = ascii_bytes "WAVE"
  /\ take 4 (drop 12 (audioBufferToWav demo_buffer)) = ascii_bytes "fmt "
  /\ getUint32 (audioBufferToWav demo_buffer) 16 = Some 16
  /\ getUint16 (audioBufferToWav demo_buffer) 20 = Some 1
  /\ getUint32 (audioBufferToWav demo_buffer) 28 = Some 176400
  /\ getUint16 (audioBufferToWav demo_buffer) 32 = Some 4
  /\ take 4 (drop 36 (audioBufferToWav demo_buffer)) = ascii_bytes "data"
  /\ getUint32 (audioBufferToWav demo_buffer) 40 = Some 8.
Proof.
  split.
  - cbv; repeat split; discriminate.
  - apply (wav_header_chunks demo_buffer); cbv; first [reflexivity | discriminate].
Defined.
Lemma floor_le_cross (p1 p2 : Z) (q1 q2 : positive) :
  p1 * Z.pos q2 <= p2 * Z.pos q1 -> p1 / Z.pos q1 <= p2 / Z.pos q2.
Proof.
  intros H.
  rewrite <- (Z.div_mul_cancel_r p1 (Z.pos q1) (Z.pos q2)) by lia.
  rewrite <- (Z.div_mul_cancel_r p2 (Z.pos q2) (Z.pos q1)) by lia.
  rewrite (Z.mul_comm (Z.pos q2) (Z.pos q1)).
  apply Z.div_le_mono; lia.
Qed.

Lemma quot_neg (p : Z) (q : positive) : p < 0 -> p ÷ Z.pos q = - (- p / Z.pos q).
Proof.
  intros H. replace p with (- - p) at 1 by lia.
  rewrite Z.quot_opp_l by lia. now rewrite Z.quot_div_nonneg by lia.
Qed.

(** Truncation toward zero preserves the order of the rationals. *)
Lemma quot_le_cross (p1 p2 : Z) (q1 q2 : positive) :
  p1 * Z.pos q2 <= p2 * Z.pos q1 -> p1 ÷ Z.pos q1 <= p2 ÷ Z.pos q2.
Proof.
  intros H.
  destruct (Z.le_gt_cases 0 p1) as [H1|H1].
  - assert (H2 : 0 <= p2) by nia.
    rewrite !Z.quot_div_nonneg by lia. now apply floor_le_cross.
  - rewrite (quot_neg p1 q1 H1).
    destruct (Z.le_gt_cases 0 p2) as [H2|H2].
    + transitivity 0.
      * assert (0 <= - p1 / Z.pos q1) by (apply Z.div_pos; lia). lia.
      * apply Z.quot_pos; lia.
    + rewrite (quot_neg p2 q2 H2).
      assert (- p2 / Z.pos q2 <= - p1 / Z.pos q1) by (apply floor_le_cross; lia).
      lia.
Qed.

Lemma clamp_monotone n1 d1 n2 d2 :
  n1 * Z.pos d2 <= n2 * Z.pos d1 ->
  exists a1 b1 a2 b2,
    clamp (Fin (n1 # d1)) = Fin (a1 # b1)
    /\ clamp (Fin (n2 # d2)) = Fin (a2 # b2)
    /\ - Z.pos b1 <= a1 <= Z.pos b1
    /\ - Z.pos b2 <= a2 <= Z.pos b2
    /\ a1 * Z.pos b2 <= a2 * Z.pos b1.
Proof.
  intros H. unfold clamp, Math_min, Math_max, Qltb. cbn [Qnum Qden].
  destruct (Z.ltb_spec (n1 * 1) (1 * Z.pos d1)) as [H1|H1];
    destruct (Z.ltb_spec (n2 * 1) (1 * Z.pos d2)) as [H2|H2]; cbn [Qnum Qden].
  - destruct (Z.ltb_spec (-1 * Z.pos d1) (n1 * 1)) as [H3|H3];
      destruct (Z.ltb_spec (-1 * Z.pos d2) (n2 * 1)) as [H4|H4].
    + exists n1, d1, n2, d2. repeat split; lia.
    + exists n1, d1, (-1), 1%positive. repeat split; try lia. nia.
    + exists (-1), 1%positive, n2, d2. repeat split; lia.
    + exists (-1), 1%positive, (-1), 1%positive. repeat split; lia.
  - destruct (Z.ltb_spec (-1 * Z.pos d1) (n1 * 1)) as [H3|H3]; cbn.
    + exists n1, d1, 1, 1%positive. repeat split; lia.
    + exists (-1), 1%positive, 1, 1%positive. repeat split; lia.
  - exfalso. nia.
  - cbn. exists 1, 1%positive, 1, 1%positive. repeat split; lia.
Qed.

Lemma scale_value a b :
  - Z.pos b <= a <= Z.pos b ->
  scale (Fin (a # b))
  = (a * (if Z.pos b + 2 * a <? 0 then 32768 else 32767)) ÷ Z.pos b.
Proof.
  intros Hn. unfold scale, js_lt, js_add, js_mul, Qmult, Qplus, Qltb.
  cbn [Qnum Qden].
  destruct (Z.ltb_spec ((1 * Z.pos b + a * 2) * 1) (0 * Z.pos (2 * b))) as [Hlt|Hge].
  - rewrite (proj2 (Z.ltb_lt _ _)) by lia.
    unfold ToInt32. rewrite wrap_signed_small.
    + unfold Qtrunc. cbn [Qnum Qden]. now rewrite Pos.mul_1_r.
    + lia.
    + change (2 ^ (32 - 1)) with (2 ^ 31).
      pose proof (Qtrunc_bounds (a * 32768) (b * 1) (-32768) 32768
                    ltac:(lia) ltac:(lia)). lia.
  - rewrite (proj2 (Z.ltb_ge _ _)) by lia.
    unfold ToInt32. rewrite wrap_signed_small.
    + unfold Qtrunc. cbn [Qnum Qden]. now rewrite Pos.mul_1_r.
    + lia.
    + change (2 ^ (32 - 1)) with (2 ^ 31).
      pose proof (Qtrunc_bounds (a * 32767) (b * 1) (-32767) 32767
                    ltac:(lia) ltac:(lia)). lia.
Qed.

(** The encoder preserves the order of finite samples: the change of
    scale factor at -0.5 opens no gap the wrong way. *)
Theorem encode_sample_monotone (x y : Q) :
  (x <= y)%Q -> encode_sample (Fin x) <= encode_sample (Fin y).
Proof.
  destruct x as [n1 d1], y as [n2 d2]. unfold Qle. cbn [Qnum Qden]. intros H.
  destruct (clamp_monotone n1 d1 n2 d2 H)
    as (a1 & b1 & a2 & b2 & Hc1 & Hc2 & Hb1 & Hb2 & Hle).
  unfold encode_sample. rewrite Hc1, Hc2.
  rewrite (scale_value a1 b1 Hb1), (scale_value a2 b2 Hb2).
  apply quot_le_cross.
  destruct (Z.ltb_spec (Z.pos b1 + 2 * a1) 0) as [Hx|Hx];
    destruct (Z.ltb_spec (Z.pos b2 + 2 * a2) 0) as [Hy|Hy]; nia.
Qed.

Lemma encode_sample_monotone_witness :
  ((-3 # 4) <= (-1 # 4))%Q
  /\ encode_sample (Fin (-3 # 4)) <= encode_sample (Fin (-1 # 4))
  /\ encode_sample (Fin (-3 # 4)) = -24576
  /\ encode_sample (Fin (-1 # 4)) = -8191.
Proof.
  assert (H : ((-3 # 4) <= (-1 # 4))%Q) by (unfold Qle; cbn; lia).
  split; [exact H|]. split; [exact (encode_sample_monotone _ _ H)|].
  split; reflexivity.
Defined.

End WavData.

(** ** Examples for the engine and the component *)

Lemma tick_unplayable_throws_witness :
  (currentLayout (demo_engine (num := Q)) = Some demo_layout
   /\ ~ playable (demo_layout (num := Q)) (resolved demo_layout 1%Q))
  /\ tick 8%Q 1%Q demo_engine = (Throw TypeError, demo_engine (num := Q)).
Proof.
  assert (H1 : currentLayout (demo_engine (num := Q)) = Some demo_layout)
    by (vm_compute; reflexivity).
  assert (H2 : ~ playable (demo_layout (num := Q)) (resolved demo_layout 1%Q))
    by (vm_compute; tauto).
  split; [now split|].
  exact (tick_unplayable_throws 8%Q 1%Q demo_engine demo_layout H1 H2).
Defined.

Lemma updateAll_samplers_witness :
  isInitialized (demo_engine (num := Q)) = true
  /\ sampler_of (instruments (graph
       (updateAll fair_world
          (with_sampleSettings (fun s => set_sample s DKick "kick_808.wav") demo_layout)
          (demo_engine (num := Q))).2)) DKick
     = new_sampler "kick_808.wav"
  /\ sampler_of (instruments (graph
       (updateAll fair_world
          (with_sampleSettings (fun s => set_sample s DKick "kick_808.wav") demo_layout)
          (demo_engine (num := Q))).2)) DSnare
     = sampler_of (instruments (graph (demo_engine (num := Q)))) DSnare.
Proof.
  assert (H : isInitialized (demo_engine (num := Q)) = true) by (vm_compute; reflexivity).
  split; [exact H|]. split.
  - rewrite (updateAll_samplers fair_world _ (demo_engine (num := Q)) DKick H).
    vm_compute. reflexivity.
  - rewrite (updateAll_samplers fair_world _ (demo_engine (num := Q)) DSnare H).
    vm_compute. reflexivity.
Defined.

Lemma blocked_audio_changes_nothing_witness :
  (isInitialized (new_engine (num := Q)) = false /\ audio_allowed silent_world = false)
  /\ start silent_world (new_engine (num := Q)) = (Throw NotAllowedError, new_engine)
  /\ loadSample silent_world DKick "kick_808.wav" (new_engine (num := Q))
     = (Throw NotAllowedError, new_engine).
Proof.
  split; [now split|].
  destruct (blocked_audio_changes_nothing silent_world (new_engine (num := Q))
              eq_refl eq_refl) as (_ & Hs & Hl).
  split; [exact Hs|apply Hl].
Defined.

Lemma start_with_layout_witness :
  (currentLayout (demo_engine (num := Q)) = Some demo_layout
   /\ (initialize fair_world (demo_engine (num := Q))).1 = Ok tt)
  /\ transport (start fair_world (demo_engine (num := Q))).2
     = mkTransport 120%Q true true (Some 4%nat) true.
Proof.
  assert (H1 : currentLayout (demo_engine (num := Q)) = Some demo_layout)
    by (vm_compute; reflexivity).
  assert (H2 : (initialize fair_world (demo_engine (num := Q))).1 = Ok tt)
    by (vm_compute; reflexivity).
  split; [now split|].
  destruct (start_with_layout fair_world (demo_engine (num := Q)) demo_layout H1 H2)
    as (_ & Ht & _).
  rewrite Ht. vm_compute. reflexivity.
Defined.

Lemma stop_forces_resync_witness :
  (currentLayout (tick 0%Q 0%Q (demo_engine (num := Q))).2 = Some demo_layout
   /\ currentPatternIndex (tick 0%Q 0%Q (demo_engine (num := Q))).2 = Some 0
   /\ resolved (demo_layout (num := Q)) 0%Q = Some (Some 0)
   /\ index (patterns (demo_layout (num := Q))) 0 = Some (demo_pattern "Cm7" false))
  /\ List.filter is_settings
       (trace (tick 8%Q 0%Q (stop (tick 0%Q 0%Q (demo_engine (num := Q))).2).2).2)
     = List.filter is_settings (trace (tick 0%Q 0%Q (demo_engine (num := Q))).2)
       ++ resync (demo_pattern "Cm7" false).
Proof.
  assert (H1 : currentLayout (tick 0%Q 0%Q (demo_engine (num := Q))).2 = Some demo_layout)
    by (vm_compute; reflexivity).
  assert (H2 : currentPatternIndex (tick 0%Q 0%Q (demo_engine (num := Q))).2 = Some 0)
    by (vm_compute; reflexivity).
  assert (H3 : resolved (demo_layout (num := Q)) 0%Q = Some (Some 0))
    by (vm_compute; reflexivity).
  assert (H4 : index (patterns (demo_layout (num := Q))) 0 = Some (demo_pattern "Cm7" false))
    by (vm_compute; reflexivity).
  split; [auto|].
  exact (proj1 (proj2 (stop_forces_resync 8%Q 0%Q _ demo_layout 0
                         (demo_pattern "Cm7" false) H1 H3 H4))).
Defined.

Lemma handlers_keep_engine_in_step_witness :
  in_step (demo_app (num := Q))
  /\ (for_ demo_events (handle (world_without (SAMPLES_URL +:+ "missing.wav")))
        (demo_app (num := Q))).1 = Ok tt
  /\ in_step (for_ demo_events (handle (world_without (SAMPLES_URL +:+ "missing.wav")))
                (demo_app (num := Q))).2.
Proof.
  assert (H : in_step (demo_app (num := Q))) by exact (connected_in_step fair_world demo_layout).
  split; [exact H|].
  exact (handlers_keep_engine_in_step _ demo_events demo_app H).
Defined.

Lemma assign_keeps_playable_witness :
  ((1 < List.length (arrangement (layout (demo_app (num := Q)))))%nat
   /\ well_formed (layout (demo_app (num := Q))))
  /\ ~ well_formed (layout (assignPatternToBar fair_world 1 7 (demo_app (num := Q))).2)
  /\ well_formed (layout (assignPatternToBar fair_world 1 1 (demo_app (num := Q))).2).
Proof.
  assert (H1 : (1 < List.length (arrangement (layout (demo_app (num := Q)))))%nat)
    by (vm_compute; lia).
  assert (H2 : well_formed (layout (demo_app (num := Q)))) by exact demo_well_formed.
  split; [now split|]. split.
  - destruct (assign_keeps_playable fair_world 1 7 (demo_app (num := Q)) H1 H2)
      as (_ & _ & _ & Hiff).
    intros Hwf. apply Hiff in Hwf. destruct Hwf as [p Hp]. discriminate Hp.
  - destruct (assign_keeps_playable fair_world 1 1 (demo_app (num := Q)) H1 H2)
      as (_ & _ & _ & Hiff).
    apply Hiff. eexists. reflexivity.
Defined.

Lemma clear_bar_silences_witness :
  (0 < List.length (arrangement (layout (demo_app (num := Q)))))%nat
  /\ tick 0%Q 0%Q (engine (clearArrangementBar fair_world 0 (demo_app (num := Q))).2)
     = (Ok tt, log [TriggerRelease Bass 0%Q]
                 (engine (clearArrangementBar fair_world 0 (demo_app (num := Q))).2)).
Proof.
  assert (H1 : (0 < List.length (arrangement (layout (demo_app (num := Q)))))%nat)
    by (vm_compute; lia).
  split; [exact H1|].
  destruct (clear_bar_silences fair_world 0 (demo_app (num := Q)) H1) as (_ & _ & Ht & _).
  apply Ht. vm_compute. reflexivity.
Defined.

Lemma sample_selection_outcome_witness :
  isInitialized (engine (demo_app (num := Q))) = true
  /\ layout (handleSampleSelected fair_world DKick "kick_808.wav" (demo_app (num := Q))).2
     = with_sampleSettings (fun s => set_sample s DKick "kick_808.wav") demo_layout
  /\ layout (handleSampleSelected (world_without (SAMPLES_URL +:+ "missing.wav"))
               DKick "missing.wav" (demo_app (num := Q))).2
     = demo_layout
  /\ sampler_of (instruments (graph (engine
       (handleSampleSelected (world_without (SAMPLES_URL +:+ "missing.wav"))
          DKick "missing.wav" (demo_app (num := Q))).2))) DKick
     = new_sampler "missing.wav".
Proof.
  assert (H : isInitialized (engine (demo_app (num := Q))) = true)
    by (vm_compute; reflexivity).
  split; [exact H|].
  destruct (sample_selection_outcome fair_world DKick "kick_808.wav" (demo_app (num := Q)) H)
    as (_ & _ & _ & Hl1).
  destruct (sample_selection_outcome (world_without (SAMPLES_URL +:+ "missing.wav"))
              DKick "missing.wav" (demo_app (num := Q)) H)
    as (_ & _ & Hs2 & Hl2).
  split; [rewrite Hl1; vm_compute; reflexivity|].
  split; [rewrite Hl2; vm_compute; reflexivity|exact Hs2].
Defined.

Lemma midi_dispatch_by_status_witness :
  0 <= 0x93 < 256
  /\ onMIDIMessage [0x93; 60; 0] = [MidiNoteOff (Some 60) (Some 0)]
  /\ onMIDIMessage [0x93; 60; 100] = [MidiNoteOn 60 100].
Proof.
  assert (H : 0 <= 0x93 < 256) by lia.
  split; [exact H|]. split.
  - rewrite (midi_dispatch_by_status 0x93 60 0 [] H). reflexivity.
  - rewrite (midi_dispatch_by_status 0x93 60 100 [] H). reflexivity.
Defined.

Lemma midi_learn_binds_controller_witness :
  (isMidiLearning (demo_midi (num := Q)) = Some "prompt-2"
   /\ find_prompt (has_id "prompt-2") (prompts (demo_midi (num := Q))) = Some 2%nat
   /\ find_prompt (has_cc 74) (take 2 (prompts (demo_midi (num := Q)))) = None)
  /\ isMidiLearning (handleMidiControlChange 74 5 (demo_midi (num := Q))) = None
  /\ prompts (handleMidiControlChange 74 127
                (handleMidiControlChange 74 5 (demo_midi (num := Q))))
     = alter (fmap (with_weight (127 # 127)%Q)) 2%nat
         (alter (fmap (with_cc (Some 74))) 2%nat demo_prompts).
Proof.
  assert (H1 : isMidiLearning (demo_midi (num := Q)) = Some "prompt-2") by reflexivity.
  assert (H2 : find_prompt (has_id "prompt-2") (prompts (demo_midi (num := Q)))
               = Some 2%nat) by (vm_compute; reflexivity).
  assert (H3 : find_prompt (has_cc 74) (take 2 (prompts (demo_midi (num := Q)))) = None)
    by (vm_compute; reflexivity).
  split; [auto|].
  destruct (midi_learn_binds_controller 74 5 (demo_midi (num := Q)) "prompt-2" 2%nat H1 H2)
    as (Hl & _ & _ & Hturn).
  split; [exact Hl|]. exact (proj1 (Hturn H3 127)).
Defined.

Lemma export_outcome_witness :
  (in_step (core (demo_component (num := Q)))
   /\ forallb (fetch_ok fair_world)
        (o_pending (offline_context (layout (core (demo_component (num := Q)))))) = true
   /\ well_formed (layout (core (demo_component (num := Q)))))
  /\ isRendering (handleExport fair_world (demo_component (num := Q))).2 = false
  /\ exists wav,
       downloads (handleExport fair_world (demo_component (num := Q))).2 = [wav]
       /\ totalDuration wav = (2 * 4)%Q.
Proof.
  assert (H1 : in_step (core (demo_component (num := Q))))
    by exact (connected_in_step fair_world demo_layout).
  assert (H2 : forallb (fetch_ok fair_world)
                 (o_pending (offline_context (layout (core (demo_component (num := Q))))))
               = true) by reflexivity.
  assert (H3 : well_formed (layout (core (demo_component (num := Q)))))
    by exact demo_well_formed.
  split; [auto|].
  destruct (export_outcome fair_world (demo_component (num := Q)) H1)
    as (_ & Hr & _ & _ & Hok & _).
  split; [exact Hr|].
  destruct (Hok H2 H3) as (wav & Hwav & Hd & _).
  exists wav. split; [exact Hd|].
  vm_compute in Hwav. injection Hwav as <-. reflexivity.
Defined.

Lemma ai_effects_keep_wet_witness :
  (blank (fxPromptText (demo_component (num := Q))) = false
   /\ active_index (core (demo_component (num := Q))) = Some 0%nat
   /\ patterns (layout (core (demo_component (num := Q)))) !! 0%nat
      = Some (demo_pattern "Cm7" false))
  /\ distortion (effectsState (activePattern
       (core (handleApplyAiEffects distortion_reply (demo_component (num := Q))).2)))
     = mkEffectState 0%Q [("distortion", VNum (9 # 10)%Q)]
  /\ delay (effectsState (activePattern
       (core (handleApplyAiEffects distortion_reply (demo_component (num := Q))).2)))
     = delay createDefaultEffectsState
  /\ blank nbsp_prompt = true
  /\ handleApplyAiEffects distortion_reply
       (with_fxPromptText nbsp_prompt (demo_component (num := Q)))
     = (Ok tt, with_core (notice "Please enter an effects prompt.")
                 (with_fxPromptText nbsp_prompt demo_component)).
Proof.
  assert (H1 : blank (fxPromptText (demo_component (num := Q))) = false) by reflexivity.
  assert (H2 : active_index (core (demo_component (num := Q))) = Some 0%nat)
    by (vm_compute; reflexivity).
  assert (H3 : patterns (layout (core (demo_component (num := Q)))) !! 0%nat
               = Some (demo_pattern "Cm7" false)) by reflexivity.
  split; [auto|].
  destruct (ai_effects_keep_wet distortion_reply (demo_component (num := Q)) 0%nat
              (demo_pattern "Cm7" false) _ _ _ H1 H2 H3 eq_refl) as (_ & He & _).
  rewrite He. split; [reflexivity|]. split; [reflexivity|]. split; [reflexivity|].
  apply handleApplyAiEffects_blank. reflexivity.
Defined.

Lemma render_mix_is_last_bar_witness :
  well_formed (demo_layout (num := Q))
  /\ exists r,
       renderSong fair_world 120%Q demo_layout = Ok r
       /\ channels (o_graph (offline r))
          = mixed_channels (trackSettings (demo_pattern "G7" true))
       /\ ch_mute (c_kick (channels (o_graph (offline r)))) = true.
Proof.
  split; [exact demo_well_formed|].
  destruct (renderSong fair_world 120%Q (demo_layout (num := Q))) as [r|e] eqn:Hr;
    [|vm_compute in Hr; discriminate Hr].
  exists r. split; [reflexivity|].
  destruct (render_mix_is_last_bar fair_world 120%Q demo_layout r demo_well_formed Hr)
    as [_ Hc].
  rewrite Hc. split; vm_compute; reflexivity.
Defined.

Lemma renderSong_outcome_witness :
  renderSong (world_without (SAMPLES_URL +:+ "kick.wav")) 120%Q (demo_layout (num := Q))
  = Throw LoadError
  /\ renderSong fair_world 120%Q
       (with_arrangement (<[1%nat := Some 7]>) (demo_layout (num := Q)))
     = Throw TypeError.
Proof.
  split.
  - apply (proj1 (renderSong_outcome _ 120%Q (demo_layout (num := Q)))).
    vm_compute. reflexivity.
  - apply (proj1 (proj2 (renderSong_outcome fair_world 120%Q
                           (with_arrangement (<[1%nat := Some 7]>)
                              (demo_layout (num := Q)))))).
    + reflexivity.
    + intros Hwf. apply (proj1 (Forall_lookup _ _)) with (i := 1%nat) (x := Some 7) in Hwf.
      * destruct Hwf as [p Hp]. discriminate Hp.
      * reflexivity.
Defined.

Lemma mixer_edit_waits_for_switch_witness :
  currentPatternIndex (engine (playing_app (num := Q))) = Some 0
  /\ mute (ts_kick (trackSettings (activePattern
       (handleMixerChange fair_world Kick (SetMute true) (playing_app (num := Q))).2)))
     = true
  /\ ch_mute (c_kick (channels (graph
       (tick 8%Q 0%Q
          (engine (handleMixerChange fair_world Kick (SetMute true)
                     (playing_app (num := Q))).2)).2)))
     = false.
Proof.
  assert (H1 : currentPatternIndex (engine (playing_app (num := Q))) = Some 0)
    by (vm_compute; reflexivity).
  split; [exact H1|]. split; [vm_compute; reflexivity|].
  destruct (mixer_edit_waits_for_switch fair_world Kick (SetMute true)
              (playing_app (num := Q))) as (_ & _ & _ & _ & Htick).
  rewrite (Htick 8%Q 0%Q 0
             (with_trackSettings (on_setting Kick (set_setting (SetMute true)))
                (demo_pattern "Cm7" false)) H1).
  - vm_compute. reflexivity.
  - vm_compute. reflexivity.
  - vm_compute. reflexivity.
Defined.

Lemma effect_wet_edit_is_immediate_witness :
  fx_wet (fx_reverb (bassEffects (graph (engine
    (handleEffectWetChange FxReverb (1 # 2)%Q (playing_app (num := Q))).2))))
  = (1 # 2)%Q
  /\ currentPatternIndex (engine
       (handleEffectWetChange FxReverb (1 # 2)%Q (playing_app (num := Q))).2)
     = Some 0.
Proof.
  destruct (effect_wet_edit_is_immediate FxReverb (1 # 2)%Q (playing_app (num := Q)))
    as (Hfx & _ & _ & _ & Hcp).
  rewrite Hfx, Hcp. split; vm_compute; reflexivity.
Defined.

Lemma toggle_play_witness :
  (isPlaying (togglePlay fair_world (demo_component (num := Q))).2 = true
   /\ transport_started
        (transport (engine (core (togglePlay fair_world (demo_component (num := Q))).2)))
      = true)
  /\ (isPlaying (togglePlay fair_world (detached_component (num := Q))).2 = true
      /\ transport_started
           (transport (engine (core (togglePlay fair_world
                                       (detached_component (num := Q))).2)))
         = false)
  /\ (togglePlay silent_world (detached_component (num := Q))).1 = Throw NotAllowedError.
Proof.
  destruct (toggle_play fair_world (demo_component (num := Q))) as (_ & Hstart & _).
  destruct (toggle_play fair_world (detached_component (num := Q))) as (_ & Hdet & _).
  destruct (toggle_play silent_world (detached_component (num := Q))) as (_ & _ & Hblock).
  split; [|split].
  - destruct Hstart as (_ & Hp & Ht); [reflexivity|vm_compute; reflexivity|].
    split; [exact Hp|]. rewrite Ht. vm_compute. reflexivity.
  - destruct Hdet as (_ & Hp & Ht); [reflexivity|vm_compute; reflexivity|].
    split; [exact Hp|]. rewrite Ht. vm_compute. reflexivity.
  - apply (Hblock eq_refl NotAllowedError). vm_compute. reflexivity.
Defined.

Lemma new_prompt_color_least_used_witness :
  getNewPromptColor (demo_prompts (num := Q)) = "#5200ff"
  /\ exists i, palette !! i = Some "#5200ff"
       /\ forall j c, palette !! j = Some c -> (j < i)%nat ->
            (0 < color_count (omap (fmap color) (demo_prompts (num := Q))) c)%nat.
Proof.
  assert (Hc : getNewPromptColor (demo_prompts (num := Q)) = "#5200ff")
    by (vm_compute; reflexivity).
  split; [exact Hc|].
  destruct (new_prompt_color_least_used (demo_prompts (num := Q))) as (i & Hi & Hmin).
  rewrite Hc in Hi, Hmin. exists i. split; [exact Hi|].
  intros j c Hj Hlt. destruct (Hmin j c Hj) as [_ Hstrict]. specialize (Hstrict Hlt). lia.
Defined.

Lemma randomize_fills_empty_slots_witness :
  (randomize_from demo_id [] (demo_prompts (num := Q)) ["Lush Pad"; "Wobble"; "Choir"]).2
  = 2%nat
  /\ fresh_texts (demo_prompts (num := Q))
       (randomize_from demo_id [] (demo_prompts (num := Q))
          ["Lush Pad"; "Wobble"; "Choir"]).1
     = ["Lush Pad"; "Wobble"]
  /\ (randomize_from demo_id [] (demo_prompts (num := Q)) ["Lush Pad"]).1 !! 1%nat
     = Some (Some (mkPrompt "prompt-new" "Lush Pad" (lit 0) "#5200ff" false None))
  /\ (randomize_from demo_id [] (demo_prompts (num := Q)) ["Lush Pad"]).1 !! 3%nat
     = Some None
  /\ (randomize_from demo_id [] [None; None] ["Lush Pad"]).1
     = [Some (mkPrompt (num := Q) "prompt-new" "Lush Pad" (lit 0) "#9900ff" false None);
        None].
Proof.
  destruct (randomize_fills_empty_slots demo_id (demo_prompts (num := Q))
              ["Lush Pad"; "Wobble"; "Choir"]) as (_ & Hn & _ & _ & Hf & _).
  destruct (randomize_fills_empty_slots demo_id (demo_prompts (num := Q))
              ["Lush Pad"]) as (_ & _ & _ & _ & _ & Hfill).
  rewrite Hf, Hn, (Hfill 1%nat eq_refl), (Hfill 3%nat eq_refl).
  repeat split; vm_compute; reflexivity.
Defined.

Lemma updateAll_frame_witness :
  channels (graph (updateAll fair_world
                     (with_patterns (alter (with_trackSettings
                                       (on_setting Kick (set_setting (SetMute true)))) 0%nat)
                        demo_layout)
                     (engine (playing_app (num := Q)))).2)
  = channels (graph (engine (playing_app (num := Q)))).
Proof.
  exact (proj1 (proj2 (proj2 (proj2 (proj2 (proj2
           (updateAll_frame fair_world _ (engine (playing_app (num := Q)))))))))).
Defined.
